(** * Pulse back end: credential resolution and pipeline aggregation

  A shallow embedding of
    - [backend/src/utils/crypto.js]   (decrypt, mask),
    - [backend/src/routes/github.js]  (maybeAuth, ensureGitHubToken,
      fetchLatestRun, the /pipelines and /job-log handlers),
    - [backend/src/routes/pipeline.js] (the top-level pipelines handler),
  together with the properties of the credential chain and of the
  aggregation loop.

  JavaScript strings are modelled by [string]; a character stands for one
  code unit.  A value that may be [undefined] or [null] is an [option].
  Remote calls are answered by a [World] of oracles; every call is
  recorded in a trace, and mutation that survives an exception (the
  [pipelines] array of the handlers) lives in the state of the monad. *)

From Stdlib Require Import List String Ascii Bool Arith NArith Lia.
From Stdlib Require Import DecimalString DecimalPos DecimalN.
Import ListNotations.

Local Open Scope string_scope.
Local Open Scope list_scope.

(* ------------------------------------------------------------------ *)
(** ** JavaScript values used by the handlers                          *)
(* ------------------------------------------------------------------ *)

Module Js.

(** Truthiness of a string-or-undefined value: [undefined], [null] and
    [''] are falsy. *)
Definition truthy (v : option string) : bool :=
  match v with
  | Some s => negb (s =? "")
  | None => false
  end.

(** [a || b] on string-or-undefined values. *)
Definition or_else (a b : option string) : option string :=
  if truthy a then a else b.

(** [a || 'lit'] where the right operand is a string. *)
Definition or_str (a : option string) (b : string) : string :=
  match a with
  | Some s => if s =? "" then b else s
  | None => b
  end.

(** [`${v}`] for a string-or-null value. *)
Definition tmpl (v : option string) : string :=
  match v with
  | Some s => s
  | None => "null"
  end.

(** [String(n)] for a non-negative integer. *)
Definition of_N (n : N) : string := NilZero.string_of_uint (N.to_uint n).

(** ['c'.repeat(n)] *)
Fixpoint repeat (c : ascii) (n : nat) : string :=
  match n with
  | O => ""
  | S k => String c (repeat c k)
  end.

(** [s.slice(-k)]: the last [k] code units ([s] itself when shorter). *)
Definition slice_last (k : nat) (s : string) : string :=
  substring (String.length s - k) k s.

(** [s.split(sep)] for a one-character separator.  [cur] is the piece
    being read, kept reversed. *)
Fixpoint rev_string (acc s : string) : string :=
  match s with
  | EmptyString => acc
  | String c r => rev_string (String c acc) r
  end.

Fixpoint split_from (sep : ascii) (cur : string) (s : string) : list string :=
  match s with
  | EmptyString => [rev_string "" cur]
  | String c r =>
      if Ascii.eqb c sep
      then rev_string "" cur :: split_from sep "" r
      else split_from sep (String c cur) r
  end.

Definition split (sep : ascii) (s : string) : list string :=
  split_from sep "" s.

(** [s.toLowerCase()] on the ASCII letters. *)
Definition lower_ascii (c : ascii) : ascii :=
  let n := nat_of_ascii c in
  if Nat.leb 65 n && Nat.leb n 90 then ascii_of_nat (n + 32) else c.

Fixpoint toLowerCase (s : string) : string :=
  match s with
  | EmptyString => EmptyString
  | String c r => String (lower_ascii c) (toLowerCase r)
  end.

(** [lines.join(sep)] *)
Definition join (sep : string) (ls : list string) : string :=
  String.concat sep ls.

End Js.

(* ------------------------------------------------------------------ *)
(** ** utils/crypto.js                                                 *)
(* ------------------------------------------------------------------ *)

Module Crypto.

Section Decrypt.

(** The AES-256-GCM primitive of the Node runtime, applied to the three
    base64 fields with the process key: [Some plain] when
    [decipher.final()] accepts the tag, [None] when any of the calls
    throws. *)
Variable aes_gcm_open : string -> string -> string -> option string.

(** [decrypt(payload = '')]: a missing or empty field gives [null], and so
    does anything the cipher throws. *)
Definition decrypt (payload : string) : option string :=
  match Js.split ":" payload with
  | ivB64 :: tagB64 :: dataB64 :: _ =>
      if (ivB64 =? "") || (tagB64 =? "") || (dataB64 =? "")
      then None
      else aes_gcm_open ivB64 tagB64 dataB64
  | _ => None
  end.

End Decrypt.

(** [mask(str)]: [null] for a falsy argument, four stars for a string of at
    most four code units, otherwise stars followed by the last four. *)
Definition mask (str : option string) : option string :=
  match str with
  | None => None
  | Some s =>
      if s =? "" then None
      else Some (if Nat.leb (String.length s) 4
                 then "****"
                 else (Js.repeat "*" (String.length s - 4)
                         ++ Js.slice_last 4 s)%string)
  end.

End Crypto.

(* ------------------------------------------------------------------ *)
(** ** Data read from the remote API and produced by the handlers      *)
(* ------------------------------------------------------------------ *)

(** An element of [reposRes.data]; [repo_owner_login] is
    [repo.owner?.login]. *)
Record Repo := mkRepo {
  repo_owner_login : option string;
  repo_name : string
}.

(** An element of [wfRes.data.workflows]. *)
Record Workflow := mkWorkflow {
  wf_id : N;
  wf_name : string;
  wf_path : string;
  wf_state : string;
  wf_created_at : string;
  wf_updated_at : string;
  wf_html_url : string
}.

(** An element of [runsRes.data.workflow_runs]; [run_actor_login] is
    [run.actor?.login]. *)
Record Run := mkRun {
  run_id : N;
  run_status : string;
  run_conclusion : option string;
  run_event : string;
  run_head_branch : option string;
  run_created_at : string;
  run_updated_at : string;
  run_html_url : string;
  run_actor_login : option string
}.

(** The object built by [fetchLatestRun]. *)
Record LatestRun := mkLatestRun {
  lr_runId : N;
  lr_status : string;
  lr_conclusion : option string;
  lr_event : string;
  lr_head_branch : option string;
  lr_created_at : string;
  lr_updated_at : string;
  lr_url : string;
  lr_actor : option string
}.

(** The object pushed on [pipelines]; [latest_run] is [null] or a run. *)
Record Pipeline := mkPipeline {
  owner : string;
  repo : string;
  workflowId : N;
  name : string;
  path : string;
  state : string;
  created_at : string;
  updated_at : string;
  url : string;
  latest_run : option LatestRun
}.

(** An element of [job.steps]. *)
Record Step := mkStep {
  step_number : N;
  step_name : string;
  step_status : string;
  step_conclusion : option string;
  step_started_at : option string;
  step_completed_at : option string
}.

(** An element of [data.jobs]. *)
Record Job := mkJob {
  job_id : N;
  job_name : string;
  job_status : string;
  job_conclusion : option string;
  job_started_at : option string;
  job_completed_at : option string;
  job_steps : option (list Step)
}.

(** What a handler can catch: [e.response?.status],
    [e.response?.data?.message] and [e.message]. *)
Record Exn := mkExn {
  response_status : option nat;
  response_data_message : option string;
  message : string
}.

(** [e.response?.status === code] *)
Definition status_is (code : nat) (e : Exn) : bool :=
  match response_status e with
  | Some n => Nat.eqb n code
  | None => false
  end.

(** [codes.includes(e.response?.status)] *)
Definition status_in (codes : list nat) (e : Exn) : bool :=
  match response_status e with
  | Some n => existsb (Nat.eqb n) codes
  | None => false
  end.

(** [err.response?.status || 500] *)
Definition status_or_500 (e : Exn) : nat :=
  match response_status e with
  | Some n => if Nat.eqb n 0 then 500 else n
  | None => 500
  end.

(** [err.response?.data?.message || err.message] *)
Definition error_msg (e : Exn) : string :=
  Js.or_str (response_data_message e) (message e).

(** Bodies passed to [res.json]. *)
Inductive Body :=
| BError (error : string)
| BPipelines (ps : list Pipeline)
| BText (text : string).

(** [res.status(code).json(body)]; [res.json(body)] has code 200. *)
Record Response := mkResponse {
  status : nat;
  body : Body
}.

(** [source] in [ensureGitHubToken]. *)
Inductive TokenSource := SrcNone | SrcDb | SrcHeader | SrcEnv.

(** [req.user] as Passport leaves it. *)
Record SessionUser := mkSessionUser {
  su_id : option string;
  su_accessToken : option string
}.

(** The fields of the request the handlers read or write. *)
Record Req := mkReq {
  user : option SessionUser;
  session_passport_user : option string;
  userId : option string;
  header_x_github_token : option string;
  query_org : option string;
  query_includeRuns : option string;
  query_owner : option string;
  query_repo : option string;
  query_runId : option string;
  query_jobId : option string;
  githubToken : option string;
  githubTokenSource : option TokenSource
}.

Definition with_userId (req : Req) (v : option string) : Req :=
  mkReq (user req) (session_passport_user req) v (header_x_github_token req)
        (query_org req) (query_includeRuns req) (query_owner req)
        (query_repo req) (query_runId req) (query_jobId req)
        (githubToken req) (githubTokenSource req).

Definition with_github (req : Req) (token : string) (source : TokenSource) : Req :=
  mkReq (user req) (session_passport_user req) (userId req)
        (header_x_github_token req)
        (query_org req) (query_includeRuns req) (query_owner req)
        (query_repo req) (query_runId req) (query_jobId req)
        (Some token) (Some source).

(** The stored document, as far as [u?.github?.patEnc] reads it. *)
Record UserDoc := mkUserDoc {
  github_patEnc : option string
}.

(* ------------------------------------------------------------------ *)
(** ** The outside world                                               *)
(* ------------------------------------------------------------------ *)

(** One outbound call.  The last argument of each GitHub call is the token
    placed in the [Authorization] header. *)
Inductive Call :=
| DbFindById (id : string)
| GetUser (token : string)
| GetOrgRepos (org token : string)
| GetUserRepos (org token : string)
| GetWorkflows (owner repo token : string)
| GetRuns (owner repo : string) (workflowId : N) (token : string)
| GetJobs (owner repo runId token : string).

(** The answers of the collaborators.  An [axios.get] resolves ([inr]) on a
    2xx status and rejects ([inl]) on anything else, a missing response
    included.  [api_workflows] gives [wfRes.data?.workflows], [api_runs]
    gives [runsRes.data?.workflow_runs], [api_jobs] gives [data.jobs].
    During one request a call with the same arguments has the same
    answer. *)
Record World := mkWorld {
  env_GITHUB_PAT : option string;
  aes_gcm_open : string -> string -> string -> option string;
  User_findById : string -> Exn + option UserDoc;
  api_user : string -> Exn + unit;
  api_org_repos : string -> string -> Exn + list Repo;
  api_user_repos : string -> string -> Exn + list Repo;
  api_workflows : string -> string -> string -> Exn + option (list Workflow);
  api_runs : string -> string -> N -> string -> Exn + option (list Run);
  api_jobs : string -> string -> string -> string -> Exn + option (list Job)
}.

(* ------------------------------------------------------------------ *)
(** ** Effects: a trace of calls, the [pipelines] array, exceptions    *)
(* ------------------------------------------------------------------ *)

Record St := mkSt {
  calls : list Call;
  pipelines : list Pipeline
}.

Definition St0 : St := mkSt [] [].

(** A computation either throws or returns; the state is kept in both
    cases, as a [catch] block sees what the [try] block did. *)
Definition M (A : Type) : Type := St -> (Exn + A) * St.

Definition ret {A} (a : A) : M A := fun s => (inr a, s).

Definition bind {A B} (m : M A) (k : A -> M B) : M B :=
  fun s =>
    match m s with
    | (inr a, s') => k a s'
    | (inl e, s') => (inl e, s')
    end.

Definition throw {A} (e : Exn) : M A := fun s => (inl e, s).

Definition try_catch {A} (m : M A) (h : Exn -> M A) : M A :=
  fun s =>
    match m s with
    | (inl e, s') => h e s'
    | (inr a, s') => (inr a, s')
    end.

(** An outbound call with its answer. *)
Definition request {A} (c : Call) (answer : Exn + A) : M A :=
  fun s => (answer, mkSt (calls s ++ [c]) (pipelines s)).

(** [const pipelines = []] and [pipelines.push(p)]. *)
Definition new_pipelines : M unit :=
  fun s => (inr tt, mkSt (calls s) []).

Definition push (p : Pipeline) : M unit :=
  fun s => (inr tt, mkSt (calls s) (pipelines s ++ [p])).

Definition read_pipelines : M (list Pipeline) :=
  fun s => (inr (pipelines s), s).

Declare Scope js_scope.
Delimit Scope js_scope with js.
Notation "x <- m ;; k" := (bind m (fun x => k))
  (at level 100, m at next level, right associativity) : js_scope.
Notation "m ;;; k" := (bind m (fun _ => k))
  (at level 100, right associativity) : js_scope.
Local Open Scope js_scope.

(* ------------------------------------------------------------------ *)
(** ** routes/github.js                                                *)
(* ------------------------------------------------------------------ *)

(** [maybeAuth]: copy the session's principal to [req.userId], if any. *)
Definition maybeAuth (req : Req) : Req :=
  let user_id := match user req with Some u => su_id u | None => None end in
  if Js.truthy user_id then with_userId req user_id
  else if Js.truthy (session_passport_user req)
       then with_userId req (session_passport_user req)
       else req.

(** What a middleware does with the request: answer it, pass it on with
    [req.githubToken] and [req.githubTokenSource] set, or pass an error to
    [next]. *)
Inductive MwResult :=
| MwRespond (r : Response)
| MwNext (token : string) (source : TokenSource)
| MwError (e : Exn).

Section Handlers.

Variable w : World.

Definition decrypt : string -> option string :=
  Crypto.decrypt (aes_gcm_open w).

Definition axios_get_user (token : string) : M unit :=
  request (GetUser token) (api_user w token).

Definition axios_get_org_repos (org token : string) : M (list Repo) :=
  request (GetOrgRepos org token) (api_org_repos w org token).

Definition axios_get_user_repos (org token : string) : M (list Repo) :=
  request (GetUserRepos org token) (api_user_repos w org token).

Definition axios_get_workflows (owner repo token : string)
  : M (option (list Workflow)) :=
  request (GetWorkflows owner repo token) (api_workflows w owner repo token).

Definition axios_get_runs (owner repo : string) (workflowId : N) (token : string)
  : M (option (list Run)) :=
  request (GetRuns owner repo workflowId token)
          (api_runs w owner repo workflowId token).

Definition axios_get_jobs (owner repo runId token : string)
  : M (option (list Job)) :=
  request (GetJobs owner repo runId token) (api_jobs w owner repo runId token).

Definition findById_lean (id : string) : M (option UserDoc) :=
  request (DbFindById id) (User_findById w id).

(** Step 1 of [ensureGitHubToken]: the value of [(token, source)] after the
    block guarded by [if (req.userId)].  An exception of the lookup is
    logged and dropped. *)
Definition stored_step (req : Req) : M (option string * TokenSource) :=
  if Js.truthy (userId req) then
    try_catch
      (u <- findById_lean (Js.or_str (userId req) "") ;;
       let patEnc := match u with Some d => github_patEnc d | None => None end in
       let pat := decrypt (Js.or_str patEnc "") in
       if Js.truthy pat then ret (pat, SrcDb) else ret (None, SrcNone))
      (fun _ => ret (None, SrcNone))
  else ret (None, SrcNone).

(** Step 2: the header, read only while [token] is falsy. *)
Definition header_step (req : Req) (ts : option string * TokenSource)
  : option string * TokenSource :=
  if negb (Js.truthy (fst ts)) then
    let tokenFromHeader := header_x_github_token req in
    if Js.truthy tokenFromHeader then (tokenFromHeader, SrcHeader) else ts
  else ts.

(** Step 3: the environment. *)
Definition env_step (ts : option string * TokenSource)
  : option string * TokenSource :=
  if negb (Js.truthy (fst ts)) && Js.truthy (env_GITHUB_PAT w)
  then (env_GITHUB_PAT w, SrcEnv)
  else ts.

(** [ensureGitHubToken(req, res, next)] *)
Definition ensureGitHubToken (req : Req) : M MwResult :=
  try_catch
    (ts1 <- stored_step req ;;
     let ts2 := header_step req ts1 in
     let ts3 := env_step ts2 in
     let source := snd ts3 in
     match fst ts3 with
     | None => ret (MwRespond (mkResponse 401 (BError "Missing token")))
     | Some token =>
         if token =? "" then
           ret (MwRespond (mkResponse 401 (BError "Missing token")))
         else
           try_catch
             (axios_get_user token ;;;
              ret (MwNext token source))
             (fun _ => ret (MwRespond (mkResponse 401 (BError "Bad credentials"))))
     end)
    (fun e => ret (MwError e)).

(** [fetchLatestRun(owner, repo, workflowId, token)] *)
Definition fetchLatestRun (owner repo : string) (workflowId : N) (token : string)
  : M (option LatestRun) :=
  workflow_runs <- axios_get_runs owner repo workflowId token ;;
  match workflow_runs with
  | Some (run :: _) =>
      ret (Some (mkLatestRun (run_id run) (run_status run) (run_conclusion run)
                             (run_event run) (run_head_branch run)
                             (run_created_at run) (run_updated_at run)
                             (run_html_url run) (run_actor_login run)))
  | _ => ret None
  end.

(** [String(req.query.includeRuns ?? 'true').toLowerCase() !== 'false'] *)
Definition parse_includeRuns (q : option string) : bool :=
  negb (Js.toLowerCase (match q with Some v => v | None => "true" end)
        =? "false").

(** The organization listing with its fall-back to the account listing. *)
Definition list_repos (org token : string) : M (list Repo) :=
  try_catch
    (axios_get_org_repos org token)
    (fun e =>
       if status_is 404 e then axios_get_user_repos org token
       else throw e).

(** [for (const wf of wfRes.data.workflows) { ... }] *)
Fixpoint workflow_loop (includeRuns : bool) (owner repo_name token : string)
    (wfs : list Workflow) : M unit :=
  match wfs with
  | [] => ret tt
  | wf :: rest =>
      latest_run <- (if includeRuns
                     then fetchLatestRun owner repo_name (wf_id wf) token
                     else ret None) ;;
      push (mkPipeline owner repo_name (wf_id wf) (wf_name wf) (wf_path wf)
                       (wf_state wf) (wf_created_at wf) (wf_updated_at wf)
                       (wf_html_url wf) latest_run) ;;;
      workflow_loop includeRuns owner repo_name token rest
  end.

(** [repo.owner?.login || org] *)
Definition owner_of (org : string) (r : Repo) : string :=
  Js.or_str (repo_owner_login r) org.

(** The body of [for (const repo of reposRes.data)]: the [try] covers the
    workflow listing and the run look-ups; [continue] ends this iteration
    only. *)
Definition repo_body (includeRuns : bool) (org token : string) (r : Repo)
  : M unit :=
  let owner := owner_of org r in
  try_catch
    (workflows <- axios_get_workflows owner (repo_name r) token ;;
     match workflows with
     | Some (wf :: wfs) =>
         workflow_loop includeRuns owner (repo_name r) token (wf :: wfs)
     | _ => ret tt
     end)
    (fun e =>
       if status_in [403; 404; 409] e then ret tt
       else throw e).

Fixpoint repo_loop (includeRuns : bool) (org token : string)
    (repos : list Repo) : M unit :=
  match repos with
  | [] => ret tt
  | r :: rest =>
      repo_body includeRuns org token r ;;;
      repo_loop includeRuns org token rest
  end.

(** The part of both pipelines handlers between [let reposRes] and
    [res.json(pipelines)]. *)
Definition aggregate (includeRuns : bool) (org token : string)
  : M (list Pipeline) :=
  repos <- list_repos org token ;;
  new_pipelines ;;;
  repo_loop includeRuns org token repos ;;;
  read_pipelines.

(** [`token ${req.githubToken}`] reads the field set by the middleware. *)
Definition req_token (req : Req) : string :=
  match githubToken req with Some t => t | None => "undefined" end.

(** The handler of [GET /github/pipelines]. *)
Definition github_pipelines (req : Req) : M Response :=
  let org := query_org req in
  let includeRuns := parse_includeRuns (query_includeRuns req) in
  if negb (Js.truthy org) then
    ret (mkResponse 400 (BError "Organization name is required"))
  else
    try_catch
      (ps <- aggregate includeRuns (Js.or_str org "") (req_token req) ;;
       ret (mkResponse 200 (BPipelines ps)))
      (fun err => ret (mkResponse (status_or_500 err) (BError (error_msg err)))).

(** The placeholder of a missing timestamp (an em dash). *)
Definition dash : string := "—".

(** The line feed passed to [lines.join]. *)
Definition LF : string := String (ascii_of_nat 10) "".

(** The template of one step line of the job log. *)
Definition step_line (s : Step) : string :=
  (" - #" ++ Js.of_N (step_number s) ++ " " ++ step_name s
   ++ " | status: " ++ step_status s
   ++ " | conclusion: " ++ Js.tmpl (step_conclusion s)
   ++ " | started: " ++ Js.or_str (step_started_at s) dash
   ++ " | completed: " ++ Js.or_str (step_completed_at s) dash)%string.

(** [for (const s of job.steps || []) { lines.push(...) }] *)
Fixpoint push_steps (lines : list string) (steps : list Step) : list string :=
  match steps with
  | [] => lines
  | s :: rest => push_steps (lines ++ [step_line s]) rest
  end.

(** [job.steps || []] *)
Definition steps_of (job : Job) : list Step :=
  match job_steps job with Some ss => ss | None => [] end.

(** The array [lines] of the job-log handler at the time it is joined. *)
Definition job_log_lines (job : Job) : list string :=
  let lines := [] in
  let lines := lines ++
    [("Job: " ++ job_name job ++ " | status: " ++ job_status job
      ++ " | conclusion: " ++ Js.tmpl (job_conclusion job))%string] in
  let lines := lines ++
    [("Started: " ++ Js.or_str (job_started_at job) dash
      ++ " | Completed: " ++ Js.or_str (job_completed_at job) dash)%string] in
  let lines := lines ++ [""] in
  let lines := lines ++ ["Steps:"] in
  let lines := push_steps lines (steps_of job) in
  let lines := lines ++ [""] in
  lines ++
    ["(Raw log not fetched: GH API returns ZIP; this is a synthesized summary text.)"].

(** [(data.jobs || []).find((j) => String(j.id) === String(jobId))] *)
Definition find_job (jobs : option (list Job)) (jobId : string) : option Job :=
  find (fun j => Js.of_N (job_id j) =? jobId)
       (match jobs with Some js => js | None => [] end).

(** The handler of [GET /github/job-log]. *)
Definition github_job_log (req : Req) : M Response :=
  if negb (Js.truthy (query_owner req)) || negb (Js.truthy (query_repo req))
     || negb (Js.truthy (query_runId req)) || negb (Js.truthy (query_jobId req))
  then ret (mkResponse 400 (BError "owner, repo, runId and jobId are required"))
  else
    try_catch
      (jobs <- axios_get_jobs (Js.or_str (query_owner req) "")
                              (Js.or_str (query_repo req) "")
                              (Js.or_str (query_runId req) "")
                              (req_token req) ;;
       match find_job jobs (Js.or_str (query_jobId req) "") with
       | None => ret (mkResponse 200 (BText "(No job found to assemble log)"))
       | Some job =>
           ret (mkResponse 200 (BText (Js.join LF (job_log_lines job))))
       end)
      (fun err => ret (mkResponse (status_or_500 err) (BError (error_msg err)))).

(** What the client of a route gets: a response, or an error left to the
    framework. *)
Inductive Outcome :=
| Sent (r : Response)
| Unhandled (e : Exn).

(** [router.get(path, maybeAuth, ensureGitHubToken, handler)] *)
Definition github_route (handler : Req -> M Response) (req0 : Req) : M Outcome :=
  let req := maybeAuth req0 in
  r <- ensureGitHubToken req ;;
  match r with
  | MwRespond resp => ret (Sent resp)
  | MwError e => ret (Unhandled e)
  | MwNext token source =>
      resp <- handler (with_github req token source) ;;
      ret (Sent resp)
  end.

(* ------------------------------------------------------------------ *)
(** ** routes/pipeline.js                                              *)
(* ------------------------------------------------------------------ *)

(** [tokenFromOAuth || tokenFromHeader || process.env.GITHUB_PAT] *)
Definition pipeline_token (req : Req) : option string :=
  let tokenFromOAuth :=
    match user req with Some u => su_accessToken u | None => None end in
  let tokenFromHeader := header_x_github_token req in
  Js.or_else (Js.or_else tokenFromOAuth tokenFromHeader) (env_GITHUB_PAT w).

(** The handler of [GET /pipelines].  Its listing and its loops are the
    text of the handler of [GET /github/pipelines] with [token] for
    [req.githubToken]. *)
Definition pipeline_index (req : Req) : M Response :=
  let org := query_org req in
  let includeRuns := parse_includeRuns (query_includeRuns req) in
  if negb (Js.truthy org) then
    ret (mkResponse 400 (BError "Organization is required"))
  else
    let token := pipeline_token req in
    if negb (Js.truthy token) then
      ret (mkResponse 401 (BError "GitHub token required (oauth/header/.env)"))
    else
      try_catch
        (ps <- aggregate includeRuns (Js.or_str org "") (Js.or_str token "") ;;
         ret (mkResponse 200 (BPipelines ps)))
        (fun err =>
           if status_is 404 err then
             ret (mkResponse 404
                    (BError ("Organization or user '" ++ Js.or_str org ""
                             ++ "' not found")%string))
           else
             ret (mkResponse (status_or_500 err) (BError (error_msg err)))).

(** [router.get('/', handler)]: no middleware runs before the handler. *)
Definition pipeline_route (req : Req) : M Outcome :=
  resp <- pipeline_index req ;;
  ret (Sent resp).

End Handlers.

(** Running a route from the empty state: the outcome and the calls made. *)
Definition run {A} (m : M A) : (Exn + A) * list Call :=
  let '(r, s) := m St0 in (r, calls s).

(* ------------------------------------------------------------------ *)
(** ** Definitions used to state the properties                        *)
(* ------------------------------------------------------------------ *)

(** The reading of the masked form under which the first and the last code
    unit of the credential stay visible and the result is not the credential
    itself. *)
Definition exposes_first_and_last (s : string) : Prop :=
  exists m, Crypto.mask (Some s) = Some m
            /\ String.get 0 m = String.get 0 s
            /\ String.get (String.length m - 1) m
               = String.get (String.length s - 1) s
            /\ m <> s.

(** The header of a job log: name, status and conclusion, then the
    timestamps, an empty line and the title of the step list. *)
Definition job_header (job : Job) : list string :=
  [ ("Job: " ++ job_name job ++ " | status: " ++ job_status job
     ++ " | conclusion: " ++ Js.tmpl (job_conclusion job))%string;
    ("Started: " ++ Js.or_str (job_started_at job) dash
     ++ " | Completed: " ++ Js.or_str (job_completed_at job) dash)%string;
    "";
    "Steps:" ].

(** The trailing note of a job log. *)
Definition job_footer : list string :=
  [ "";
    "(Raw log not fetched: GH API returns ZIP; this is a synthesized summary text.)" ].

(** Steps sorted by their sequence number (insertion sort). *)
Fixpoint insert_step (s : Step) (l : list Step) : list Step :=
  match l with
  | [] => [s]
  | x :: r => if N.leb (step_number s) (step_number x) then s :: x :: r
              else x :: insert_step s r
  end.

Definition steps_by_number (l : list Step) : list Step :=
  fold_right insert_step [] l.

(** The stored credential of the request's principal, in the words of the
    resolution order: a principal is known, the store has a record for it,
    and the record opens to a non-empty token. *)
Definition stored_credential (w : World) (req : Req) : option string :=
  match userId req with
  | None => None
  | Some uid =>
      if uid =? "" then None
      else match User_findById w uid with
           | inl _ => None
           | inr None => None
           | inr (Some doc) =>
               match github_patEnc doc with
               | None => None
               | Some enc =>
                   match Crypto.decrypt (aes_gcm_open w) enc with
                   | Some pat => if pat =? "" then None else Some pat
                   | None => None
                   end
               end
           end
  end.

(** The credential selected by the resolution order: stored, then header,
    then environment; first present source wins. *)
Definition selected_credential (w : World) (req : Req)
  : option (string * TokenSource) :=
  match stored_credential w req with
  | Some pat => Some (pat, SrcDb)
  | None =>
      match header_x_github_token req with
      | Some h => if negb (h =? "") then Some (h, SrcHeader)
                  else match env_GITHUB_PAT w with
                       | Some t => if t =? "" then None else Some (t, SrcEnv)
                       | None => None
                       end
      | None => match env_GITHUB_PAT w with
                | Some t => if t =? "" then None else Some (t, SrcEnv)
                | None => None
                end
      end
  end.

(** The result of the resolver in the words of its contract: no source
    gives [NoCredential]; the selected credential is self-tested, and a
    failed self-test gives [InvalidCredential]. *)
Definition resolution (w : World) (req : Req) : MwResult :=
  match selected_credential w req with
  | None => MwRespond (mkResponse 401 (BError "Missing token"))
  | Some (token, source) =>
      match api_user w token with
      | inr _ => MwNext token source
      | inl _ => MwRespond (mkResponse 401 (BError "Bad credentials"))
      end
  end.

(** The self-test made for the selected credential. *)
Definition self_test_calls (w : World) (req : Req) : list Call :=
  match selected_credential w req with
  | Some (token, _) => [GetUser token]
  | None => []
  end.

(** The state [s] extended by what a computation added. *)
Definition st_app (s d : St) : St :=
  mkSt (calls s ++ calls d) (pipelines s ++ pipelines d).

(** A computation that only appends to the trace and to [pipelines], and
    whose result does not depend on the state it starts from. *)
Definition framed {A} (m : M A) : Prop :=
  forall s, m s = (fst (m St0), st_app s (snd (m St0))).

(** The result of the loop over the enumerated repositories: the
    accumulated list, or the error that aborted it. *)
Definition collected (w : World) (includeRuns : bool) (org token : string)
    (repos : list Repo) : Exn + list Pipeline :=
  match repo_loop w includeRuns org token repos St0 with
  | (inr _, s) => inr (pipelines s)
  | (inl e, _) => inl e
  end.

(** The repositories enumerated for a name, or the error of the listing. *)
Definition enumerated (w : World) (org token : string) : Exn + list Repo :=
  fst (list_repos w org token St0).

(** The identity of a repository and of a pipeline. *)
Definition repo_key (org : string) (r : Repo) : string * string :=
  (owner_of org r, repo_name r).

Definition triple (p : Pipeline) : string * string * N :=
  (owner p, repo p, workflowId p).

(** Kinds of calls. *)
Definition is_user_repos (c : Call) : bool :=
  match c with GetUserRepos _ _ => true | _ => false end.

Definition is_runs (c : Call) : bool :=
  match c with GetRuns _ _ _ _ => true | _ => false end.

Definition is_loop_call (c : Call) : bool :=
  match c with
  | GetWorkflows _ _ _ | GetRuns _ _ _ _ => true
  | _ => false
  end.

Definition count_calls (p : Call -> bool) (tr : list Call) : nat :=
  List.length (filter p tr).

(** The answer of a pipelines handler to an error it caught. *)
Definition error_response (e : Exn) : Response :=
  mkResponse (status_or_500 e) (BError (error_msg e)).

(** A computation that appends calls satisfying [Pc] and pipelines
    satisfying [Pp], and nothing else. *)
Definition adds (Pc : Call -> Prop) (Pp : Pipeline -> Prop) {A} (m : M A) : Prop :=
  forall s, exists dc dp,
    snd (m s) = mkSt (calls s ++ dc) (pipelines s ++ dp)
    /\ Forall Pc dc /\ Forall Pp dp.

(** The workflows a repository contributes: its listing when the listing
    answers, nothing otherwise. *)
Definition listed_workflows (w : World) (org token : string) (r : Repo)
  : list Workflow :=
  match api_workflows w (owner_of org r) (repo_name r) token with
  | inr (Some wfs) => wfs
  | _ => []
  end.

(** The three failures of a workflow listing that are local to one
    repository: forbidden, not found, conflict. *)
Definition repo_local (e : Exn) : Prop :=
  response_status e = Some 403 \/ response_status e = Some 404
  \/ response_status e = Some 409.

(** The triples a repository can contribute, in listing order. *)
Definition triples_of (w : World) (org token : string) (r : Repo)
  : list (string * string * N) :=
  map (fun wf => (owner_of org r, repo_name r, wf_id wf))
      (listed_workflows w org token r).

(** The store look-up made for a known principal. *)
Definition store_calls (req : Req) : list Call :=
  match userId req with
  | Some uid => if uid =? "" then [] else [DbFindById uid]
  | None => []
  end.

(** The calls of a trace that present a token to the remote API. *)
Definition is_remote (c : Call) : bool :=
  match c with
  | DbFindById _ => false
  | _ => true
  end.

Definition remote_calls (tr : list Call) : list Call := filter is_remote tr.

(** The self-test comes first among the remote calls of a trace. *)
Definition self_test_first (tr : list Call) : bool :=
  match remote_calls tr with
  | [] => true
  | GetUser _ :: _ => true
  | _ => false
  end.

(* ------------------------------------------------------------------ *)
(** ** Sample data                                                     *)
(* ------------------------------------------------------------------ *)

(** A request with nothing set. *)
Definition req0 : Req :=
  mkReq None None None None None None None None None None None None.

(** The rejection of a request by the remote API. *)
Definition http_error (code : nat) (msg : string) : Exn :=
  mkExn (Some code) (Some msg) "Request failed".

Definition wf_build : Workflow :=
  mkWorkflow 11 "build" ".github/workflows/build.yml" "active"
             "2024-01-01T00:00:00Z" "2024-01-02T00:00:00Z"
             "https://github.com/acme/api/actions/workflows/build.yml".

Definition wf_lint : Workflow :=
  mkWorkflow 12 "lint" ".github/workflows/lint.yml" "active"
             "2024-01-01T00:00:00Z" "2024-01-02T00:00:00Z"
             "https://github.com/acme/api/actions/workflows/lint.yml".

Definition wf_docs : Workflow :=
  mkWorkflow 11 "docs" ".github/workflows/docs.yml" "active"
             "2024-02-01T00:00:00Z" "2024-02-02T00:00:00Z"
             "https://github.com/acme/web/actions/workflows/docs.yml".

Definition run_build : Run :=
  mkRun 9001 "completed" (Some "success") "push" (Some "main")
        "2024-03-01T00:00:00Z" "2024-03-01T00:05:00Z"
        "https://github.com/acme/api/actions/runs/9001" (Some "octocat").

Definition step_n (n : N) (nm : string) : Step :=
  mkStep n nm "completed" (Some "success")
         (Some "2024-03-01T00:00:00Z") None.

(** A job whose steps arrive as 2, 1, 3. *)
Definition job_unordered : Job :=
  mkJob 77 "test" "completed" (Some "failure")
        (Some "2024-03-01T00:00:00Z") None
        (Some [step_n 2 "Build"; step_n 1 "Checkout"; step_n 3 "Test"]).

(** An organization [acme] with the repositories [api] (two workflows, the
    second never run), [vault] (workflow listing forbidden) and [web] (one
    workflow); [broken] answers 500 on its workflow listing.  The name
    [octocat] is an account, not an organization.  The store knows [u1]
    (a valid token), [u2] (a revoked token), [u4] (a payload that does not
    open) and fails on [u3].  The toy cipher returns the data field, except
    for the field [bad]. *)
Definition acme_world : World :=
  let live (token : string) {A} (a : Exn + A) : Exn + A :=
    if token =? "ghp_revoked" then inl (http_error 401 "Bad credentials") else a in
  mkWorld
    (Some "ghp_env")
    (fun _ _ data => if data =? "bad" then None else Some data)
    (fun id =>
       if id =? "u1" then inr (Some (mkUserDoc (Some "iv:tag:ghp_stored")))
       else if id =? "u2" then inr (Some (mkUserDoc (Some "iv:tag:ghp_revoked")))
       else if id =? "u3" then inl (mkExn None None "buffering timed out")
       else if id =? "u4" then inr (Some (mkUserDoc (Some "iv:tag:bad")))
       else inr None)
    (fun token => live token (inr tt))
    (fun org token =>
       live token
         (if org =? "acme"
          then inr [mkRepo (Some "acme") "api"; mkRepo (Some "acme") "vault";
                    mkRepo None "web"]
          else if org =? "down" then inl (http_error 503 "Service unavailable")
          else if org =? "lab" then inr [mkRepo (Some "lab") "api";
                                         mkRepo (Some "lab") "broken";
                                         mkRepo (Some "lab") "web"]
          else inl (http_error 404 "Not Found")))
    (fun org token =>
       live token
         (if org =? "octocat" then inr [mkRepo (Some "octocat") "web"]
          else inl (http_error 404 "Not Found")))
    (fun _ repo token =>
       live token
         (if repo =? "api" then inr (Some [wf_build; wf_lint])
          else if repo =? "vault" then inl (http_error 403 "Resource not accessible")
          else if repo =? "web" then inr (Some [wf_docs])
          else if repo =? "broken" then inl (http_error 500 "Server Error")
          else inl (http_error 404 "Not Found")))
    (fun _ _ wf token =>
       live token (if N.eqb wf 12 then inr (Some []) else inr (Some [run_build])))
    (fun _ _ runId token =>
       live token
         (if runId =? "9001" then inr (Some [job_unordered])
          else inl (http_error 404 "Not Found"))).

Definition with_header (req : Req) (h : string) : Req :=
  mkReq (user req) (session_passport_user req) (userId req) (Some h)
        (query_org req) (query_includeRuns req) (query_owner req)
        (query_repo req) (query_runId req) (query_jobId req)
        (githubToken req) (githubTokenSource req).

Definition with_query (req : Req) (org includeRuns : option string) : Req :=
  mkReq (user req) (session_passport_user req) (userId req)
        (header_x_github_token req)
        org includeRuns (query_owner req)
        (query_repo req) (query_runId req) (query_jobId req)
        (githubToken req) (githubTokenSource req).

(* ------------------------------------------------------------------ *)
(** ** More of the code base                                           *)
(* ------------------------------------------------------------------ *)

(** String methods used by the remaining handlers. *)
Module JsText.

(** White space for [trim], among the code units below 256: tab, line
    feed, vertical tab, form feed, carriage return, space, no-break
    space. *)
Definition is_ws (c : ascii) : bool :=
  let n := nat_of_ascii c in
  Nat.eqb n 9 || Nat.eqb n 10 || Nat.eqb n 11 || Nat.eqb n 12
  || Nat.eqb n 13 || Nat.eqb n 32 || Nat.eqb n 160.

(** [s.trimStart()] *)
Fixpoint trimStart (s : string) : string :=
  match s with
  | EmptyString => EmptyString
  | String c r => if is_ws c then trimStart r else s
  end.

(** [s.trim()]: both ends, the right one on the reversed string. *)
Definition trim (s : string) : string :=
  Js.rev_string "" (trimStart (Js.rev_string "" (trimStart s))).

(** [s.slice(n)] for [n >= 0]. *)
Fixpoint slice_from (n : nat) (s : string) : string :=
  match n, s with
  | O, _ => s
  | S k, EmptyString => EmptyString
  | S k, String _ r => slice_from k r
  end.


(** [s.startsWith(p)] *)
Definition startsWith (p s : string) : bool := String.prefix p s.

(** [v || null] on a string-or-undefined value. *)
Definition or_null (v : option string) : option string :=
  if Js.truthy v then v else None.

End JsText.

(** *** utils/crypto.js: encrypt *)

Section Encrypt.

(** The sealing side of the AES-256-GCM primitive with the process key:
    from the base64 of the initialisation vector and the plain text, the
    base64 of the authentication tag and of the cipher text. *)
Variable aes_gcm_seal : string -> string -> string * string.

(** [encrypt(plain = '')]; [iv] is the base64 of the twelve bytes drawn by
    [crypto.randomBytes(12)]. *)
Definition encrypt (iv : string) (plain : option string) : string :=
  let text := match plain with Some p => p | None => "" end in
  let (tag, enc) := aes_gcm_seal iv text in
  (iv ++ ":" ++ tag ++ ":" ++ enc)%string.

End Encrypt.

(** *** middleware/requireAuth.js *)

Inductive AuthResult :=
| AuthRespond (r : Response)
| AuthNext (userId : option string).

Section RequireAuth.

(** [jwt.verify(token, process.env.JWT_SECRET)]: [None] when it throws,
    otherwise [decoded.id]. *)
Variable jwt_verify : string -> option (option string).

(** [requireAuth(req, res, next)], from [req.headers.authorization]. *)
Definition requireAuth (authorization : option string) : AuthResult :=
  let header := Js.or_str authorization "" in
  let token := if JsText.startsWith "Bearer " header
               then Some (JsText.slice_from 7 header) else None in
  if negb (Js.truthy token) then
    AuthRespond (mkResponse 401 (BError "Missing token"))
  else
    match jwt_verify (Js.or_str token "") with
    | Some id => AuthNext id
    | None => AuthRespond (mkResponse 401 (BError "Invalid token"))
    end.

End RequireAuth.

(** *** routes/me.js *)

(** [user.github] *)
Record GithubConfig := mkGithubConfig {
  patEnc : option string;
  clientId : option string;
  clientSecretEnc : option string;
  callbackUrl : option string;
  homepageUrl : option string
}.

(** The stored user, as far as the handlers of [routes/me.js] read it. *)
Record Account := mkAccount {
  acc_id : string;
  acc_firstName : string;
  acc_lastName : string;
  acc_username : string;
  acc_github : option GithubConfig
}.

(** [user.github?.field] *)
Definition github_field (f : GithubConfig -> option string) (u : Account)
  : option string :=
  match acc_github u with Some g => f g | None => None end.

(** The body of the answer of [GET /me]. *)
Record Profile := mkProfile {
  pr_id : string;
  pr_firstName : string;
  pr_lastName : string;
  pr_username : string;
  pr_githubConfigured : bool;
  pr_patMasked : option string;
  pr_clientId : option string;
  pr_clientSecretMasked : option string;
  pr_callbackUrl : option string;
  pr_homepageUrl : option string
}.

Inductive MeResponse :=
| MeError (status : nat) (error : string)
| MeProfile (p : Profile)
| MeOk.

(** The body of [POST /me/config]; a field is [None] when it is missing or
    not a string. *)
Record ConfigBody := mkConfigBody {
  cb_pat : option string;
  cb_clientId : option string;
  cb_clientSecret : option string;
  cb_callbackUrl : option string;
  cb_homepageUrl : option string
}.

Section Me.

Variable aes_gcm_open : string -> string -> string -> option string.
Variable aes_gcm_seal : string -> string -> string * string.

(** The handler of [GET /me] on the result of [User.findById(req.userId)]. *)
Definition me_get (found : option Account) : MeResponse :=
  match found with
  | None => MeError 404 "User not found"
  | Some user =>
      let patPlain :=
        Crypto.decrypt aes_gcm_open (Js.or_str (github_field patEnc user) "") in
      let secretPlain :=
        Crypto.decrypt aes_gcm_open
          (Js.or_str (github_field clientSecretEnc user) "") in
      let githubConfigured :=
        Js.truthy patPlain
        || (Js.truthy (github_field clientId user) && Js.truthy secretPlain
            && Js.truthy (github_field callbackUrl user)) in
      MeProfile
        (mkProfile (acc_id user) (acc_firstName user) (acc_lastName user)
           (acc_username user) githubConfigured
           (Crypto.mask (Some (Js.or_str patPlain "")))
           (JsText.or_null (github_field clientId user))
           (Crypto.mask (Some (Js.or_str secretPlain "")))
           (JsText.or_null (github_field callbackUrl user))
           (JsText.or_null (github_field homepageUrl user)))
  end.

(** The assignments of [POST /me/config] to [user.github]; [iv1] and [iv2]
    are the vectors drawn by the two calls of [encrypt]. *)
Definition config_github (iv1 iv2 : string) (b : ConfigBody) (g0 : option GithubConfig)
  : GithubConfig :=
  let g := match g0 with
           | Some g => g
           | None => mkGithubConfig None None None None None
           end in
  let g :=
    match cb_pat b with
    | Some pat =>
        if negb (JsText.trim pat =? "")
        then mkGithubConfig
               (Some (encrypt aes_gcm_seal iv1 (Some (JsText.trim pat))))
               (clientId g) (clientSecretEnc g) (callbackUrl g) (homepageUrl g)
        else g
    | None => g
    end in
  let g :=
    match cb_clientId b with
    | Some v =>
        mkGithubConfig (patEnc g) (JsText.or_null (Some (JsText.trim v)))
                       (clientSecretEnc g) (callbackUrl g) (homepageUrl g)
    | None => g
    end in
  let g :=
    match cb_clientSecret b with
    | Some v =>
        if negb (JsText.trim v =? "")
        then mkGithubConfig (patEnc g) (clientId g)
               (Some (encrypt aes_gcm_seal iv2 (Some (JsText.trim v))))
               (callbackUrl g) (homepageUrl g)
        else g
    | None => g
    end in
  let g :=
    match cb_callbackUrl b with
    | Some v =>
        mkGithubConfig (patEnc g) (clientId g) (clientSecretEnc g)
                       (JsText.or_null (Some (JsText.trim v))) (homepageUrl g)
    | None => g
    end in
  match cb_homepageUrl b with
  | Some v =>
      mkGithubConfig (patEnc g) (clientId g) (clientSecretEnc g)
                     (callbackUrl g) (JsText.or_null (Some (JsText.trim v)))
  | None => g
  end.

(** The handler of [POST /me/config]: the answer and the document passed
    to [user.save()], if any. *)
Definition me_config (iv1 iv2 : string) (body : option ConfigBody)
    (found : option Account) : MeResponse * option Account :=
  let b := match body with
           | Some b => b
           | None => mkConfigBody None None None None None
           end in
  match found with
  | None => (MeError 404 "User not found", None)
  | Some user =>
      (MeOk,
       Some (mkAccount (acc_id user) (acc_firstName user) (acc_lastName user)
               (acc_username user)
               (Some (config_github iv1 iv2 b (acc_github user)))))
  end.

End Me.

(** *** routes/github.js: the handler of [GET /github/run-jobs] *)

(** An element of [jobs] in the answer of [GET /github/run-jobs]. *)
Record JobView := mkJobView {
  jv_id : N;
  jv_name : string;
  jv_status : string;
  jv_conclusion : option string;
  jv_started_at : option string;
  jv_completed_at : option string;
  jv_url : option string;
  jv_steps : list Step
}.

Inductive RunJobsResponse :=
| RjError (status : nat) (error : string)
| RjJobs (total_count : nat) (jobs : list JobView).

Section RunJobs.

Variable w : World.

(** The parts of the request and of the remote answer that [Req], [Job]
    and [World] do not carry: the alias parameters [run_id] and [id], the
    field [data.total_count] and the field [j.html_url]. *)
Variables query_run_id query_id : option string.
Variable data_total_count : option nat.
Variable html_url : Job -> option string.

(** [(j.steps || []).map((s) => ({ ... }))] *)
Definition view_steps (j : Job) : list Step :=
  map (fun s => mkStep (step_number s) (step_name s) (step_status s)
                       (step_conclusion s) (step_started_at s)
                       (step_completed_at s))
      (match job_steps j with Some ss => ss | None => [] end).

(** [(data.jobs || []).map((j) => ({ ... }))] *)
Definition view_jobs (jobs : option (list Job)) : list JobView :=
  map (fun j => mkJobView (job_id j) (job_name j) (job_status j)
                          (job_conclusion j) (job_started_at j)
                          (job_completed_at j) (html_url j) (view_steps j))
      (match jobs with Some js => js | None => [] end).

(** [req.query.runId || req.query.run_id || req.query.id] *)
Definition run_id_param (req : Req) : option string :=
  Js.or_else (Js.or_else (query_runId req) query_run_id) query_id.

Definition github_run_jobs (req : Req) : M RunJobsResponse :=
  let owner := query_owner req in
  let repo := query_repo req in
  let runId := run_id_param req in
  if negb (Js.truthy owner) || negb (Js.truthy repo) || negb (Js.truthy runId)
  then ret (RjError 400
              ("owner/repo/runId required (owner: " ++ Js.or_str owner dash
               ++ ", repo: " ++ Js.or_str repo dash ++ ")")%string)
  else
    try_catch
      (data_jobs <- axios_get_jobs w (Js.or_str owner "") (Js.or_str repo "")
                                   (Js.or_str runId "") (req_token req) ;;
       let jobs := view_jobs data_jobs in
       ret (RjJobs (match data_total_count with
                    | Some n => if Nat.eqb n 0 then List.length jobs else n
                    | None => List.length jobs
                    end) jobs))
      (fun err => ret (RjError (status_or_500 err) (error_msg err))).

End RunJobs.

(** *** routes/ai.js: makePrompt *)





(* ------------------------------------------------------------------ *)
(** ** Definitions used to state the further properties                *)
(* ------------------------------------------------------------------ *)

(** The token a call presents. *)
Definition call_token (c : Call) : option string :=
  match c with
  | DbFindById _ => None
  | GetUser t => Some t
  | GetOrgRepos _ t => Some t
  | GetUserRepos _ t => Some t
  | GetWorkflows _ _ t => Some t
  | GetRuns _ _ _ t => Some t
  | GetJobs _ _ _ t => Some t
  end.

(** The pipeline the loop pushes for a workflow whose run look-up
    answers. *)
Definition pipeline_of (w : World) (owner repo token : string) (wf : Workflow)
  : Pipeline :=
  mkPipeline owner repo (wf_id wf) (wf_name wf) (wf_path wf) (wf_state wf)
    (wf_created_at wf) (wf_updated_at wf) (wf_html_url wf)
    (match api_runs w owner repo (wf_id wf) token with
     | inr (Some (run :: _)) =>
         Some (mkLatestRun (run_id run) (run_status run) (run_conclusion run)
                 (run_event run) (run_head_branch run) (run_created_at run)
                 (run_updated_at run) (run_html_url run) (run_actor_login run))
     | _ => None
     end).

(** A string without the field separator of the stored payload. *)
Fixpoint no_colon (s : string) : bool :=
  match s with
  | EmptyString => true
  | String c r => negb (Ascii.eqb c ":") && no_colon r
  end.

(** The number of separators of a string. *)
Fixpoint count_sep (sep : ascii) (s : string) : nat :=
  match s with
  | EmptyString => 0
  | String c r => (if Ascii.eqb c sep then 1 else 0) + count_sep sep r
  end.

(** Every code unit before the last four is a star. *)
Definition starred (m : string) : Prop :=
  forall i, i + 4 < String.length m -> String.get i m = Some "*"%char.

(** A toy cipher for the examples: the tag is fixed and the cipher text is
    the plain text. *)
Definition toy_seal (iv plain : string) : string * string := ("dGFn", plain).

Definition toy_open (iv tag data : string) : option string :=
  if tag =? "dGFn" then Some data else None.

(** [acme_world] with a run look-up that answers 404 for the workflow
    [lint]. *)
Definition flaky_world : World :=
  mkWorld (env_GITHUB_PAT acme_world) (aes_gcm_open acme_world)
          (User_findById acme_world) (api_user acme_world)
          (api_org_repos acme_world) (api_user_repos acme_world)
          (api_workflows acme_world)
          (fun o r wf token =>
             if N.eqb wf 12 then inl (http_error 404 "Not Found")
             else api_runs acme_world o r wf token)
          (api_jobs acme_world).

(** The calls of the aggregation: the two repository listings, the
    workflow listing and the run listing. *)
Definition is_aggregation_call (c : Call) : bool :=
  match c with
  | GetOrgRepos _ _ | GetUserRepos _ _ | GetWorkflows _ _ _ | GetRuns _ _ _ _ =>
      true
  | _ => false
  end.

(** What the aggregation may call: its four listings, with [token]. *)
Definition mine (token : string) (c : Call) : Prop :=
  is_aggregation_call c = true /\ call_token c = Some token.

(** The answer of [routes/pipeline.js] to a name that is neither an
    organization nor an account. *)
Definition not_found_response (org : string) : Response :=
  mkResponse 404
    (BError ("Organization or user '" ++ org ++ "' not found")%string).

Definition with_jobId (req : Req) (jobId : string) : Req :=
  mkReq (user req) (session_passport_user req) (userId req)
        (header_x_github_token req)
        (query_org req) (query_includeRuns req) (query_owner req)
        (query_repo req) (query_runId req) (Some jobId)
        (githubToken req) (githubTokenSource req).

(** An exhausted rate limit, as the remote API signals it: status 403 or
    429 and a message that starts with [API rate limit exceeded]. *)
Definition rate_limit_exhausted (e : Exn) : bool :=
  (status_is 403 e || status_is 429 e)
  && String.prefix "API rate limit exceeded"
                   (Js.or_str (response_data_message e) "").

(** The rate-limit answer with status 403. *)
Definition rate_limit_403 : Exn :=
  http_error 403 "API rate limit exceeded for user ID 1.".

(** [acme_world] with the rate limit exhausted on every workflow
    listing. *)
Definition throttled_world : World :=
  mkWorld (env_GITHUB_PAT acme_world) (aes_gcm_open acme_world)
          (User_findById acme_world) (api_user acme_world)
          (api_org_repos acme_world) (api_user_repos acme_world)
          (fun _ _ _ => inl rate_limit_403)
          (api_runs acme_world) (api_jobs acme_world).

(** The pipeline of a workflow when the run look-up is suppressed. *)
Definition bare_pipeline (owner repo : string) (wf : Workflow) : Pipeline :=
  mkPipeline owner repo (wf_id wf) (wf_name wf) (wf_path wf) (wf_state wf)
    (wf_created_at wf) (wf_updated_at wf) (wf_html_url wf) None.

(** The pipelines of a repository: one per listed workflow, in listing
    order, with the latest run when run look-ups are made. *)
Definition contribution (w : World) (includeRuns : bool) (org token : string)
    (r : Repo) : list Pipeline :=
  map (fun wf =>
         if includeRuns
         then pipeline_of w (owner_of org r) (repo_name r) token wf
         else bare_pipeline (owner_of org r) (repo_name r) wf)
      (listed_workflows w org token r).

(** A repository that cannot abort the aggregation: its workflow listing
    answers, or fails with one of the three local codes, and the run
    look-ups of its workflows answer when they are made. *)
Definition settles (w : World) (includeRuns : bool) (org token : string)
    (r : Repo) : Prop :=
  match api_workflows w (owner_of org r) (repo_name r) token with
  | inl e => repo_local e
  | inr None => True
  | inr (Some wfs) =>
      includeRuns = true ->
      forall wf, In wf wfs ->
        exists runs,
          api_runs w (owner_of org r) (repo_name r) (wf_id wf) token = inr runs
  end.

(* ------------------------------------------------------------------ *)
(** * Properties                                                     *)
(* ------------------------------------------------------------------ *)

Example split_three : Js.split ":" "aa:bb:cc" = ["aa"; "bb"; "cc"].
Proof. reflexivity. Qed.

Example split_empty : Js.split ":" "" = [""].
Proof. reflexivity. Qed.

Example mask_long : Crypto.mask (Some "ghp_abcdef") = Some "******cdef".
Proof. reflexivity. Qed.

Example of_N_42 : Js.of_N 42 = "42" /\ Js.of_N 0 = "0".
Proof. split; reflexivity. Qed.

Example decrypt_missing_field :
  Crypto.decrypt (fun _ _ d => Some d) "iv:tag" = None
  /\ Crypto.decrypt (fun _ _ d => Some d) "iv::data" = None
  /\ Crypto.decrypt (fun _ _ d => Some d) "iv:tag:data" = Some "data".
Proof. repeat split. Qed.

Example includeRuns_parsing :
  parse_includeRuns None = true
  /\ parse_includeRuns (Some "False") = false
  /\ parse_includeRuns (Some "0") = true
  /\ parse_includeRuns (Some "") = true.
Proof. repeat split. Qed.

(** [acme]: [api] has two workflows, [vault] answers 403 and is skipped,
    [web] has no owner object and falls back to the organization name. *)
Example acme_scenario :
  match run (github_route acme_world (github_pipelines acme_world)
               (with_query req0 (Some "acme") None)) with
  | (inr (Sent (mkResponse 200 (BPipelines ps))), tr) =>
      map triple ps
      = [("acme", "api", 11%N); ("acme", "api", 12%N); ("acme", "web", 11%N)]
      /\ map (fun p => match latest_run p with
                       | Some r => Some (lr_runId r)
                       | None => None
                       end) ps
         = [Some 9001%N; None; Some 9001%N]
      /\ tr = [GetUser "ghp_env"; GetOrgRepos "acme" "ghp_env";
               GetWorkflows "acme" "api" "ghp_env";
               GetRuns "acme" "api" 11 "ghp_env";
               GetRuns "acme" "api" 12 "ghp_env";
               GetWorkflows "acme" "vault" "ghp_env";
               GetWorkflows "acme" "web" "ghp_env";
               GetRuns "acme" "web" 11 "ghp_env"]
  | _ => False
  end.
Proof. vm_compute. repeat split. Qed.

(** [lab]: the listing of [broken] answers 500 and the request fails, the
    repository after it is never listed. *)
Example lab_scenario :
  run (github_route acme_world (github_pipelines acme_world)
         (with_query req0 (Some "lab") (Some "false")))
  = (inr (Sent (mkResponse 500 (BError "Server Error"))),
     [GetUser "ghp_env"; GetOrgRepos "lab" "ghp_env";
      GetWorkflows "lab" "api" "ghp_env";
      GetWorkflows "lab" "broken" "ghp_env"]).
Proof. reflexivity. Qed.

(** No source of token at all. *)
Example no_credential :
  run (github_route (mkWorld None (aes_gcm_open acme_world)
                       (User_findById acme_world) (api_user acme_world)
                       (api_org_repos acme_world) (api_user_repos acme_world)
                       (api_workflows acme_world) (api_runs acme_world)
                       (api_jobs acme_world))
         (github_pipelines acme_world) (with_query req0 (Some "acme") None))
  = (inr (Sent (mkResponse 401 (BError "Missing token"))), []).
Proof. reflexivity. Qed.

(** A job identifier that matches no job. *)
Example job_log_placeholder :
  fst (github_job_log acme_world
         (mkReq None None None None None None
                (Some "acme") (Some "api") (Some "9001") (Some "78")
                (Some "ghp_env") (Some SrcEnv)) St0)
  = inr (mkResponse 200 (BText "(No job found to assemble log)")).
Proof. reflexivity. Qed.

(* ------------------------------------------------------------------ *)
(** ** The masked form of a credential                                 *)
(* ------------------------------------------------------------------ *)

Module MaskFacts.

Lemma length_repeat (c : ascii) (n : nat) : String.length (Js.repeat c n) = n.
Proof. induction n as [|n IH]; simpl; [reflexivity | now rewrite IH]. Qed.

Lemma get_repeat (c : ascii) (n i : nat) :
  i < n -> String.get i (Js.repeat c n) = Some c.
Proof.
  revert i; induction n as [|n IH]; intros i Hi; [lia|].
  destruct i as [|i]; simpl; [reflexivity | apply IH; lia].
Qed.

Lemma length_app (a b : string) :
  String.length (a ++ b)%string = String.length a + String.length b.
Proof. induction a as [|c a IH]; simpl; [reflexivity | now rewrite IH]. Qed.

Lemma length_substring (s : string) (n m : nat) :
  n + m <= String.length s -> String.length (substring n m s) = m.
Proof.
  revert n m; induction s as [|c s IH]; intros n m H; simpl in H.
  - assert (n = 0) by lia; assert (m = 0) by lia; subst; reflexivity.
  - destruct n as [|n]; simpl.
    + destruct m as [|m]; simpl; [reflexivity|]. rewrite IH; [reflexivity | lia].
    + apply IH; lia.
Qed.

Lemma get_beyond (s : string) (i : nat) :
  String.length s <= i -> String.get i s = None.
Proof.
  revert i; induction s as [|c s IH]; intros i Hi; simpl; [reflexivity|].
  simpl in Hi. destruct i as [|i]; [lia | apply IH; lia].
Qed.

(** The masked form of a string of more than four code units, position by
    position. *)
Lemma get_masked (s : string) (i : nat) :
  4 < String.length s ->
  String.get i (Js.repeat "*" (String.length s - 4) ++ Js.slice_last 4 s)%string
  = if Nat.ltb i (String.length s - 4) then Some "*"%char else String.get i s.
Proof.
  intros Hlen. destruct (Nat.ltb_spec i (String.length s - 4)) as [Hi | Hi].
  - rewrite <- append_correct1 by (rewrite length_repeat; exact Hi).
    apply get_repeat; exact Hi.
  - replace i with ((i - (String.length s - 4))
                    + String.length (Js.repeat "*" (String.length s - 4)))
      at 1 by (rewrite length_repeat; lia).
    rewrite <- append_correct2. unfold Js.slice_last.
    destruct (Nat.lt_ge_cases (i - (String.length s - 4)) 4) as [Hin | Hout].
    + rewrite substring_correct1 by exact Hin. f_equal. lia.
    + rewrite substring_correct2 by exact Hout.
      symmetry. apply get_beyond. lia.
Qed.

End MaskFacts.

(** C9, as stated, fails: the first code unit of a ten-character token is
    replaced by a star, and a credential made of four stars is returned as
    it is. *)
Lemma mask_hides_first_char :
  ~ exposes_first_and_last "ghp_abcdef"
  /\ ~ exposes_first_and_last "****"
  /\ Crypto.mask (Some "ghp_abcdef") = Some "******cdef"
  /\ Crypto.mask (Some "****") = Some "****".
Proof.
  repeat split.
  - intros (m & Hm & Hfirst & _). vm_compute in Hm.
    injection Hm as <-. vm_compute in Hfirst. discriminate.
  - intros (m & Hm & _ & _ & Hne). vm_compute in Hm.
    injection Hm as <-. apply Hne. reflexivity.
Qed.

(** C9 (amended): a non-empty credential of at most four code units is
    masked as four stars; a longer one keeps its length, shows its last
    four code units (so its last one) and has a star at every earlier
    position (so its first one is hidden); the masked form differs from
    the credential as soon as one of those earlier positions is not a
    star. *)
Theorem mask_shows_last_four (s : string) :
  s <> "" ->
  exists m,
    Crypto.mask (Some s) = Some m
    /\ (String.length s <= 4 -> m = "****")
    /\ (4 < String.length s ->
        String.length m = String.length s
        /\ (forall i, i < String.length s - 4 -> String.get i m = Some "*"%char)
        /\ (forall i, String.length s - 4 <= i -> String.get i m = String.get i s)
        /\ String.get 0 m = Some "*"%char
        /\ String.get (String.length m - 1) m
           = String.get (String.length s - 1) s
        /\ ((exists i, i < String.length s - 4
                       /\ String.get i s <> Some "*"%char) -> m <> s)).
Proof.
  intros Hne. unfold Crypto.mask.
  destruct (String.eqb_spec s "") as [-> | _]; [congruence|].
  eexists; split; [reflexivity|].
  destruct (Nat.leb_spec (String.length s) 4) as [Hshort | Hlong].
  - split; [reflexivity | lia].
  - split; [lia|]. intros _.
    assert (Hlen : String.length
                     (Js.repeat "*" (String.length s - 4) ++ Js.slice_last 4 s)%string
                   = String.length s).
    { rewrite MaskFacts.length_app, MaskFacts.length_repeat.
      unfold Js.slice_last. rewrite MaskFacts.length_substring; lia. }
    assert (Hlo : forall i, i < String.length s - 4 ->
              String.get i (Js.repeat "*" (String.length s - 4)
                              ++ Js.slice_last 4 s)%string = Some "*"%char).
    { intros i Hi. rewrite MaskFacts.get_masked by exact Hlong.
      destruct (Nat.ltb_spec i (String.length s - 4)); [reflexivity | lia]. }
    assert (Hhi : forall i, String.length s - 4 <= i ->
              String.get i (Js.repeat "*" (String.length s - 4)
                              ++ Js.slice_last 4 s)%string = String.get i s).
    { intros i Hi. rewrite MaskFacts.get_masked by exact Hlong.
      destruct (Nat.ltb_spec i (String.length s - 4)); [lia | reflexivity]. }
    split; [exact Hlen|]. split; [exact Hlo|]. split; [exact Hhi|].
    split; [apply Hlo; lia|]. split.
    + rewrite Hlen. apply Hhi. lia.
    + intros (i & Hi & Hstar) Heq. apply Hstar.
      rewrite <- Heq at 1. apply Hlo. exact Hi.
Qed.

Lemma mask_shows_last_four_witness :
  "ghp_abcdef" <> ""
  /\ exists m, Crypto.mask (Some "ghp_abcdef") = Some m
               /\ String.get 0 m = Some "*"%char
               /\ String.get 9 m = Some "f"%char.
Proof.
  split; [discriminate|].
  destruct (mask_shows_last_four "ghp_abcdef") as (m & Hm & _ & Hlong);
    [discriminate|].
  exists m. split; [exact Hm|].
  destruct Hlong as (_ & Hlo & Hhi & _); [simpl; lia|].
  split; [apply Hlo; simpl; lia | rewrite Hhi by (simpl; lia); reflexivity].
Defined.

(* ------------------------------------------------------------------ *)
(** ** The credential chain                                            *)
(* ------------------------------------------------------------------ *)

Module TokenFacts.

Lemma St_eta (s : St) : mkSt (calls s) (pipelines s) = s.
Proof. destruct s; reflexivity. Qed.

Lemma St_nil (s : St) : mkSt (calls s ++ []) (pipelines s) = s.
Proof. rewrite app_nil_r. apply St_eta. Qed.

(** Step 1 selects the stored credential and makes the store look-up, and
    nothing else. *)
Lemma stored_step_run (w : World) (req : Req) (s : St) :
  stored_step w req s
  = (inr (match stored_credential w req with
          | Some pat => (Some pat, SrcDb)
          | None => (None, SrcNone)
          end),
     mkSt (calls s ++ store_calls req) (pipelines s)).
Proof.
  unfold stored_step, stored_credential, store_calls.
  destruct (userId req) as [uid|]; simpl; [|now rewrite St_nil].
  destruct (String.eqb_spec uid "") as [-> | Hne]; simpl; [now rewrite St_nil|].
  unfold try_catch, bind, findById_lean, request, decrypt, Js.or_str.
  destruct (String.eqb_spec uid "") as [-> | _]; [congruence|].
  destruct (User_findById w uid) as [e | [doc|]]; simpl; try reflexivity.
  destruct (github_patEnc doc) as [enc|]; simpl.
  - destruct (String.eqb_spec enc "") as [-> | _]; simpl.
    + reflexivity.
    + destruct (Crypto.decrypt (aes_gcm_open w) enc) as [pat|]; simpl;
        [|reflexivity].
      destruct (pat =? ""); reflexivity.
  - reflexivity.
Qed.

(** The middleware computes the resolution of the contract and makes the
    store look-up and one self-test, on the selected credential. *)
Lemma ensureGitHubToken_run (w : World) (req : Req) (s : St) :
  ensureGitHubToken w req s
  = (inr (resolution w req),
     mkSt (calls s ++ store_calls req ++ self_test_calls w req) (pipelines s)).
Proof.
  rewrite app_assoc.
  unfold ensureGitHubToken, try_catch at 1, bind at 1.
  rewrite stored_step_run.
  unfold resolution, self_test_calls, selected_credential, header_step, env_step.
  assert (Htest : forall t src s1,
            try_catch (axios_get_user w t ;;; ret (MwNext t src))
              (fun _ => ret (MwRespond
                               (mkResponse 401 (BError "Bad credentials")))) s1
            = (inr match api_user w t with
                   | inr _ => MwNext t src
                   | inl _ => MwRespond (mkResponse 401 (BError "Bad credentials"))
                   end,
               mkSt (calls s1 ++ [GetUser t]) (pipelines s1))).
  { intros t src s1.
    unfold try_catch, bind, axios_get_user, request, ret.
    destruct (api_user w t) as [e | []]; reflexivity. }
  destruct (stored_credential w req) as [pat|] eqn:Hst.
  - assert (Hpat : (pat =? "") = false).
    { unfold stored_credential in Hst.
      repeat match type of Hst with
             | match ?x with _ => _ end = _ => destruct x eqn:?; try discriminate
             | (if ?x then _ else _) = _ => destruct x eqn:?; try discriminate
             end.
      now injection Hst as <-. }
    repeat (progress (cbn [fst snd Js.truthy negb andb]; rewrite ?Hpat)).
    rewrite Htest. reflexivity.
  - destruct (header_x_github_token req) as [h|].
    + destruct (h =? "") eqn:Hh.
      * destruct (env_GITHUB_PAT w) as [t|].
        -- destruct (t =? "") eqn:Ht;
             repeat (progress (cbn [fst snd Js.truthy negb andb];
                               rewrite ?Hh, ?Ht)).
           ++ unfold ret. now rewrite app_nil_r.
           ++ rewrite Htest. reflexivity.
        -- repeat (progress (cbn [fst snd Js.truthy negb andb]; rewrite ?Hh)).
           unfold ret. now rewrite app_nil_r.
      * repeat (progress (cbn [fst snd Js.truthy negb andb]; rewrite ?Hh)).
        rewrite Htest. reflexivity.
    + destruct (env_GITHUB_PAT w) as [t|].
      * destruct (t =? "") eqn:Ht;
          repeat (progress (cbn [fst snd Js.truthy negb andb]; rewrite ?Ht)).
        -- unfold ret. now rewrite app_nil_r.
        -- rewrite Htest. reflexivity.
      * cbn [fst snd Js.truthy negb andb]. unfold ret. now rewrite app_nil_r.
Qed.

(** A guarded route: the middleware, then the handler if it was let
    through. *)
Lemma github_route_run (w : World) (handler : Req -> M Response) (req : Req) :
  github_route w handler req St0
  = match resolution w (maybeAuth req) with
    | MwRespond resp =>
        (inr (Sent resp),
         mkSt (store_calls (maybeAuth req) ++ self_test_calls w (maybeAuth req)) [])
    | MwNext token source =>
        match handler (with_github (maybeAuth req) token source)
                (mkSt (store_calls (maybeAuth req)
                         ++ self_test_calls w (maybeAuth req)) []) with
        | (inr resp, s) => (inr (Sent resp), s)
        | (inl e, s) => (inl e, s)
        end
    | MwError e =>
        (inr (Unhandled e),
         mkSt (store_calls (maybeAuth req) ++ self_test_calls w (maybeAuth req)) [])
    end.
Proof.
  unfold github_route, bind at 1. rewrite ensureGitHubToken_run. simpl.
  destruct (resolution w (maybeAuth req)); reflexivity.
Qed.

End TokenFacts.

(** C1: a principal whose stored credential opens to a non-empty token that
    passes the self-test gets that token with provenance [SrcDb], and the
    only calls made are the store look-up and the self-test of that token,
    whatever the header and the environment hold.  Without a stored
    credential the header token is taken, then the environment token; with
    no source at all the answer is 401 [Missing token] and no remote call
    is made. *)
Theorem resolution_order (w : World) (req : Req) (s : St) :
  (forall uid doc enc pat,
      userId req = Some uid -> uid <> "" ->
      User_findById w uid = inr (Some doc) ->
      github_patEnc doc = Some enc ->
      Crypto.decrypt (aes_gcm_open w) enc = Some pat -> pat <> "" ->
      api_user w pat = inr tt ->
      ensureGitHubToken w req s
      = (inr (MwNext pat SrcDb),
         mkSt (calls s ++ [DbFindById uid; GetUser pat]) (pipelines s)))
  /\ (forall h,
      stored_credential w req = None ->
      header_x_github_token req = Some h -> h <> "" ->
      ensureGitHubToken w req s
      = (inr (match api_user w h with
              | inr _ => MwNext h SrcHeader
              | inl _ => MwRespond (mkResponse 401 (BError "Bad credentials"))
              end),
         mkSt (calls s ++ store_calls req ++ [GetUser h]) (pipelines s)))
  /\ (forall t,
      stored_credential w req = None ->
      Js.truthy (header_x_github_token req) = false ->
      env_GITHUB_PAT w = Some t -> t <> "" ->
      ensureGitHubToken w req s
      = (inr (match api_user w t with
              | inr _ => MwNext t SrcEnv
              | inl _ => MwRespond (mkResponse 401 (BError "Bad credentials"))
              end),
         mkSt (calls s ++ store_calls req ++ [GetUser t]) (pipelines s)))
  /\ (stored_credential w req = None ->
      Js.truthy (header_x_github_token req) = false ->
      Js.truthy (env_GITHUB_PAT w) = false ->
      ensureGitHubToken w req s
      = (inr (MwRespond (mkResponse 401 (BError "Missing token"))),
         mkSt (calls s ++ store_calls req) (pipelines s))).
Proof.
  repeat split.
  - intros uid doc enc pat Huid Hne Hdb Henc Hdec Hpat Hok.
    rewrite TokenFacts.ensureGitHubToken_run.
    assert (Hst : stored_credential w req = Some pat).
    { unfold stored_credential. rewrite Huid.
      destruct (String.eqb_spec uid "") as [-> | _]; [congruence|].
      rewrite Hdb, Henc, Hdec.
      destruct (String.eqb_spec pat "") as [-> | _]; [congruence | reflexivity]. }
    unfold resolution, self_test_calls, selected_credential, store_calls.
    rewrite Hst, Hok, Huid.
    destruct (String.eqb_spec uid "") as [-> | _]; [congruence | reflexivity].
  - intros h Hst Hh Hne.
    rewrite TokenFacts.ensureGitHubToken_run.
    unfold resolution, self_test_calls, selected_credential.
    rewrite Hst, Hh.
    destruct (String.eqb_spec h "") as [-> | _]; [congruence|]. simpl.
    destruct (api_user w h); reflexivity.
  - intros t Hst Hh Henv Hne.
    rewrite TokenFacts.ensureGitHubToken_run.
    unfold resolution, self_test_calls, selected_credential.
    rewrite Hst, Henv. unfold Js.truthy in Hh.
    destruct (String.eqb_spec t "") as [-> | _]; [congruence|].
    destruct (header_x_github_token req) as [h|].
    + destruct (h =? ""); [|discriminate]. simpl.
      destruct (api_user w t); reflexivity.
    + destruct (api_user w t); reflexivity.
  - intros Hst Hh Henv.
    rewrite TokenFacts.ensureGitHubToken_run.
    unfold resolution, self_test_calls, selected_credential.
    rewrite Hst. unfold Js.truthy in Hh, Henv.
    destruct (header_x_github_token req) as [h|];
      destruct (env_GITHUB_PAT w) as [t|];
      repeat match goal with
             | H : negb (?x =? "") = false |- _ =>
                 destruct (x =? ""); [clear H | discriminate H]
             end;
      simpl; rewrite ?app_nil_r; reflexivity.
Qed.

(** A principal [u1] with a stored token, a header token and an environment
    token all present: the stored token is selected. *)
Lemma resolution_order_witness :
  ensureGitHubToken acme_world
    (with_header (with_userId req0 (Some "u1")) "ghp_header") St0
  = (inr (MwNext "ghp_stored" SrcDb),
     mkSt [DbFindById "u1"; GetUser "ghp_stored"] []).
Proof.
  apply (proj1 (resolution_order acme_world
                  (with_header (with_userId req0 (Some "u1")) "ghp_header") St0)
               "u1" (mkUserDoc (Some "iv:tag:ghp_stored")) "iv:tag:ghp_stored"
               "ghp_stored");
    solve [reflexivity | discriminate].
Defined.

(** C2, as stated, fails on the route of [routes/pipeline.js]: a header
    token goes straight into the repository listing; no self-test is made
    and the 401 is the one of the listing itself. *)
Lemma pipeline_route_skips_self_test :
  run (pipeline_route acme_world
         (with_query (with_header req0 "ghp_revoked") (Some "acme") None))
  = (inr (Sent (mkResponse 401 (BError "Bad credentials"))),
     [GetOrgRepos "acme" "ghp_revoked"])
  /\ self_test_first [GetOrgRepos "acme" "ghp_revoked"] = false.
Proof. split; reflexivity. Qed.

(** C2 (amended): on every route guarded by [ensureGitHubToken] (the routes
    of [routes/github.js]), the credential selected from any of the three
    sources is self-tested before the handler runs: the handler starts in a
    state whose trace ends with that self-test.  When the self-test fails
    the answer is 401 [Bad credentials], the handler does not run and no
    other token is presented; in particular a stored credential that fails
    the self-test is never replaced by the header or environment token. *)
Theorem self_test_guards_github_routes
    (w : World) (handler : Req -> M Response) (req0 : Req) :
  forall token source,
    selected_credential w (maybeAuth req0) = Some (token, source) ->
    ((exists e, api_user w token = inl e) ->
       run (github_route w handler req0)
       = (inr (Sent (mkResponse 401 (BError "Bad credentials"))),
          store_calls (maybeAuth req0) ++ [GetUser token]))
    /\ (api_user w token = inr tt ->
        github_route w handler req0 St0
        = (resp <- handler (with_github (maybeAuth req0) token source) ;;
           ret (Sent resp))
            (mkSt (store_calls (maybeAuth req0) ++ [GetUser token]) []))
    /\ (forall pat e,
           stored_credential w (maybeAuth req0) = Some pat ->
           api_user w pat = inl e ->
           token = pat /\ source = SrcDb
           /\ run (github_route w handler req0)
              = (inr (Sent (mkResponse 401 (BError "Bad credentials"))),
                 store_calls (maybeAuth req0) ++ [GetUser pat])).
Proof.
  intros token source Hsel.
  assert (Hfail : forall e, api_user w token = inl e ->
            run (github_route w handler req0)
            = (inr (Sent (mkResponse 401 (BError "Bad credentials"))),
               store_calls (maybeAuth req0) ++ [GetUser token])).
  { intros e He. unfold run, github_route, bind.
    rewrite TokenFacts.ensureGitHubToken_run.
    unfold resolution, self_test_calls. rewrite Hsel, He. reflexivity. }
  split; [|split].
  - intros [e He]. exact (Hfail e He).
  - intros Hok. unfold github_route, bind at 1.
    rewrite TokenFacts.ensureGitHubToken_run.
    unfold resolution, self_test_calls. rewrite Hsel, Hok. reflexivity.
  - intros pat e Hst He.
    unfold selected_credential in Hsel. rewrite Hst in Hsel.
    injection Hsel as <- <-.
    split; [reflexivity|]. split; [reflexivity|]. exact (Hfail e He).
Qed.

(** The principal [u2] holds a revoked token; the header and the
    environment hold valid ones, and neither is tried. *)
Lemma self_test_guards_github_routes_witness :
  run (github_route acme_world (github_pipelines acme_world)
         (with_query (with_header (with_userId req0 (Some "u2")) "ghp_header")
                     (Some "acme") None))
  = (inr (Sent (mkResponse 401 (BError "Bad credentials"))),
     [DbFindById "u2"; GetUser "ghp_revoked"]).
Proof.
  apply (proj1 (self_test_guards_github_routes acme_world
                  (github_pipelines acme_world)
                  (with_query (with_header (with_userId req0 (Some "u2"))
                                           "ghp_header")
                              (Some "acme") None)
                  "ghp_revoked" SrcDb eq_refl)).
  exists (http_error 401 "Bad credentials"). reflexivity.
Defined.

(** C10: when the store look-up of a known principal throws, or the stored
    payload does not open, the middleware does not fail: it answers as it
    does for the same request without a principal, that is from the header
    token and then the environment token, and the only extra call is the
    store look-up. *)
Theorem store_failure_falls_through (w : World) (req : Req) (s : St) (uid : string) :
  userId req = Some uid -> uid <> "" ->
  ((exists e, User_findById w uid = inl e)
   \/ (exists doc, User_findById w uid = inr (Some doc)
                   /\ decrypt w (Js.or_str (github_patEnc doc) "") = None)) ->
  stored_credential w req = None
  /\ ensureGitHubToken w req s
     = (inr (resolution w (with_userId req None)),
        mkSt (calls s ++ [DbFindById uid]
                ++ self_test_calls w (with_userId req None)) (pipelines s))
  /\ fst (ensureGitHubToken w req s)
     = fst (ensureGitHubToken w (with_userId req None) s)
  /\ (forall e, fst (ensureGitHubToken w req s) <> inl e)
  /\ (forall e, fst (ensureGitHubToken w req s) <> inr (MwError e)).
Proof.
  intros Huid Hne Hfail.
  assert (Hst : stored_credential w req = None).
  { unfold stored_credential. rewrite Huid.
    destruct (String.eqb_spec uid "") as [-> | _]; [congruence|].
    destruct Hfail as [[e He] | (doc & Hdoc & Hdec)].
    - rewrite He. reflexivity.
    - rewrite Hdoc. unfold decrypt, Js.or_str in Hdec.
      destruct (github_patEnc doc) as [enc|]; [|reflexivity].
      destruct (enc =? "") eqn:Henc.
      + apply String.eqb_eq in Henc. subst enc. reflexivity.
      + rewrite Hdec. reflexivity. }
  assert (Hsel : selected_credential w req
                 = selected_credential w (with_userId req None)).
  { unfold selected_credential. rewrite Hst. reflexivity. }
  assert (Hrun : ensureGitHubToken w req s
                 = (inr (resolution w (with_userId req None)),
                    mkSt (calls s ++ [DbFindById uid]
                            ++ self_test_calls w (with_userId req None))
                         (pipelines s))).
  { rewrite TokenFacts.ensureGitHubToken_run.
    unfold resolution, self_test_calls, store_calls.
    rewrite Hsel, Huid.
    destruct (String.eqb_spec uid "") as [-> | _]; [congruence | reflexivity]. }
  split; [exact Hst|]. split; [exact Hrun|].
  rewrite Hrun, TokenFacts.ensureGitHubToken_run. simpl.
  split; [reflexivity|]. split; [discriminate|].
  intros e. unfold resolution.
  destruct (selected_credential w (with_userId req None)) as [[t src]|];
    [destruct (api_user w t)|]; discriminate.
Qed.

(** The store fails for [u3]; the header token is selected. *)
Lemma store_failure_falls_through_witness :
  ensureGitHubToken acme_world
    (with_header (with_userId req0 (Some "u3")) "ghp_header") St0
  = (inr (MwNext "ghp_header" SrcHeader),
     mkSt [DbFindById "u3"; GetUser "ghp_header"] []).
Proof.
  refine (proj1 (proj2 (store_failure_falls_through acme_world
            (with_header (with_userId req0 (Some "u3")) "ghp_header") St0 "u3"
            eq_refl _ _))).
  - discriminate.
  - left. exists (mkExn None None "buffering timed out"). reflexivity.
Defined.

(* ------------------------------------------------------------------ *)
(** ** The job log                                                     *)
(* ------------------------------------------------------------------ *)

Lemma push_steps_map (lines : list string) (steps : list Step) :
  push_steps lines steps = lines ++ map step_line steps.
Proof.
  revert lines; induction steps as [|s rest IH]; intros lines; simpl.
  - now rewrite app_nil_r.
  - rewrite IH, <- app_assoc. reflexivity.
Qed.

Lemma job_log_lines_shape (job : Job) :
  job_log_lines job
  = job_header job ++ map step_line (steps_of job) ++ job_footer.
Proof.
  unfold job_log_lines. rewrite push_steps_map.
  unfold job_header, job_footer. simpl. rewrite <- !app_assoc. reflexivity.
Qed.

(** C7, as stated, fails: the steps of [job_unordered] arrive as 2, 1, 3
    and their lines come out in that order, not sorted by number. *)
Lemma job_log_not_sorted :
  map step_number (steps_of job_unordered) = [2; 1; 3]%N
  /\ job_log_lines job_unordered
     = job_header job_unordered
       ++ [step_line (step_n 2 "Build"); step_line (step_n 1 "Checkout");
           step_line (step_n 3 "Test")]
       ++ job_footer
  /\ job_log_lines job_unordered
     <> job_header job_unordered
        ++ map step_line (steps_by_number (steps_of job_unordered))
        ++ job_footer.
Proof.
  split; [reflexivity|]. split; [reflexivity|].
  vm_compute. intros H. discriminate H.
Qed.

(** C7 (amended): for a job with N steps the job log is the header (name,
    status, conclusion; timestamps), then exactly N step lines, the i-th
    line rendering the i-th step of the array as the source returned it,
    then the note that raw logs are not fetched; the handler answers with
    these lines joined by line feeds. *)
Theorem job_log_keeps_source_order
    (w : World) (req : Req) (s : St)
    (owner repo runId jobId : string) (jobs : option (list Job)) (job : Job) :
  query_owner req = Some owner -> owner <> "" ->
  query_repo req = Some repo -> repo <> "" ->
  query_runId req = Some runId -> runId <> "" ->
  query_jobId req = Some jobId -> jobId <> "" ->
  api_jobs w owner repo runId (req_token req) = inr jobs ->
  find_job jobs jobId = Some job ->
  job_log_lines job
  = job_header job ++ map step_line (steps_of job) ++ job_footer
  /\ List.length (map step_line (steps_of job)) = List.length (steps_of job)
  /\ (forall i st, nth_error (steps_of job) i = Some st ->
        nth_error (job_log_lines job) (4 + i) = Some (step_line st))
  /\ github_job_log w req s
     = (inr (mkResponse 200
               (BText (Js.join LF (job_header job
                                   ++ map step_line (steps_of job)
                                   ++ job_footer)))),
        mkSt (calls s ++ [GetJobs owner repo runId (req_token req)])
             (pipelines s)).
Proof.
  intros Ho Hone Hr Hrne Hrun Hrunne Hj Hjne Hjobs Hfind.
  split; [apply job_log_lines_shape|].
  split; [apply length_map|].
  split.
  - intros i st Hi. rewrite job_log_lines_shape.
    change (job_header job) with
      ([nth 0 (job_header job) ""; nth 1 (job_header job) "";
        nth 2 (job_header job) ""; nth 3 (job_header job) ""]).
    cbn [app nth_error Nat.add].
    rewrite nth_error_app1 by (rewrite length_map; apply nth_error_Some; congruence).
    rewrite nth_error_map, Hi. reflexivity.
  - unfold github_job_log. rewrite Ho, Hr, Hrun, Hj. unfold Js.truthy, Js.or_str.
    apply String.eqb_neq in Hone, Hrne, Hrunne, Hjne.
    rewrite Hone, Hrne, Hrunne, Hjne. cbn [negb orb].
    unfold try_catch, bind, axios_get_jobs, request.
    rewrite Hjobs, Hfind, job_log_lines_shape. reflexivity.
Qed.

Lemma job_log_keeps_source_order_witness :
  github_job_log acme_world
    (mkReq None None None None None None
           (Some "acme") (Some "api") (Some "9001") (Some "77")
           (Some "ghp_env") (Some SrcEnv)) St0
  = (inr (mkResponse 200
            (BText (Js.join LF (job_header job_unordered
                                ++ map step_line (steps_of job_unordered)
                                ++ job_footer)))),
     mkSt [GetJobs "acme" "api" "9001" "ghp_env"] []).
Proof.
  refine (proj2 (proj2 (proj2
    (job_log_keeps_source_order acme_world
       (mkReq None None None None None None
              (Some "acme") (Some "api") (Some "9001") (Some "77")
              (Some "ghp_env") (Some SrcEnv)) St0
       "acme" "api" "9001" "77" (Some [job_unordered]) job_unordered
       eq_refl _ eq_refl _ eq_refl _ eq_refl _ eq_refl eq_refl))));
    discriminate.
Defined.

(* ------------------------------------------------------------------ *)
(** ** Computations that only append                                   *)
(* ------------------------------------------------------------------ *)

Module Frame.

Lemma st_app_St0_l (d : St) : st_app St0 d = d.
Proof. destruct d; reflexivity. Qed.

Lemma st_app_St0_r (s : St) : st_app s St0 = s.
Proof. destruct s; unfold st_app; simpl. now rewrite !app_nil_r. Qed.

Lemma st_app_assoc (a b c : St) : st_app (st_app a b) c = st_app a (st_app b c).
Proof. unfold st_app; simpl. now rewrite !app_assoc. Qed.

Lemma framed_ret {A} (a : A) : framed (ret a).
Proof. intros s. unfold ret; simpl. now rewrite st_app_St0_r. Qed.

Lemma framed_throw {A} (e : Exn) : framed (@throw A e).
Proof. intros s. unfold throw; simpl. now rewrite st_app_St0_r. Qed.

Lemma framed_request {A} (c : Call) (answer : Exn + A) : framed (request c answer).
Proof. intros s. unfold request, st_app; simpl. now rewrite app_nil_r. Qed.

Lemma framed_push (p : Pipeline) : framed (push p).
Proof. intros s. unfold push, st_app; simpl. now rewrite app_nil_r. Qed.

Lemma framed_bind {A B} (m : M A) (k : A -> M B) :
  framed m -> (forall a, framed (k a)) -> framed (bind m k).
Proof.
  intros Hm Hk s. unfold bind. rewrite (Hm s).
  destruct (m St0) as [[e | a] d]; simpl.
  - reflexivity.
  - rewrite (Hk a (st_app s d)), (Hk a d). simpl.
    now rewrite st_app_assoc.
Qed.

Lemma framed_try_catch {A} (m : M A) (h : Exn -> M A) :
  framed m -> (forall e, framed (h e)) -> framed (try_catch m h).
Proof.
  intros Hm Hh s. unfold try_catch. rewrite (Hm s).
  destruct (m St0) as [[e | a] d]; simpl.
  - rewrite (Hh e (st_app s d)), (Hh e d). simpl.
    now rewrite st_app_assoc.
  - reflexivity.
Qed.

Create HintDb frame.
#[local] Hint Resolve framed_ret framed_throw framed_request framed_push : frame.

Lemma framed_fetchLatestRun (w : World) (owner repo : string) (id : N) (token : string) :
  framed (fetchLatestRun w owner repo id token).
Proof.
  unfold fetchLatestRun, axios_get_runs.
  apply framed_bind; [auto with frame|].
  intros [[|run rest]|]; auto with frame.
Qed.

Lemma framed_workflow_loop (w : World) (includeRuns : bool)
    (owner repo token : string) (wfs : list Workflow) :
  framed (workflow_loop w includeRuns owner repo token wfs).
Proof.
  induction wfs as [|wf rest IH]; simpl; [auto with frame|].
  apply framed_bind.
  - destruct includeRuns; [apply framed_fetchLatestRun | auto with frame].
  - intros lr. apply framed_bind; [auto with frame | intros _; exact IH].
Qed.

Lemma framed_repo_body (w : World) (includeRuns : bool) (org token : string) (r : Repo) :
  framed (repo_body w includeRuns org token r).
Proof.
  unfold repo_body, axios_get_workflows. apply framed_try_catch.
  - apply framed_bind; [auto with frame|].
    intros [[|wf wfs]|]; auto with frame. apply framed_workflow_loop.
  - intros e. destruct (status_in _ e); auto with frame.
Qed.

Lemma framed_repo_loop (w : World) (includeRuns : bool) (org token : string)
    (repos : list Repo) :
  framed (repo_loop w includeRuns org token repos).
Proof.
  induction repos as [|r rest IH]; simpl; [auto with frame|].
  apply framed_bind; [apply framed_repo_body | intros _; exact IH].
Qed.

Lemma framed_list_repos (w : World) (org token : string) :
  framed (list_repos w org token).
Proof.
  unfold list_repos, axios_get_org_repos, axios_get_user_repos.
  apply framed_try_catch; [auto with frame|].
  intros e. destruct (status_is 404 e); auto with frame.
Qed.

(** The loop over a concatenation is the loop over the first part followed
    by the loop over the second. *)
Lemma repo_loop_app (w : World) (includeRuns : bool) (org token : string)
    (l1 l2 : list Repo) (s : St) :
  repo_loop w includeRuns org token (l1 ++ l2) s
  = (repo_loop w includeRuns org token l1 ;;;
     repo_loop w includeRuns org token l2) s.
Proof.
  revert s; induction l1 as [|r l1 IH]; intros s; simpl.
  - reflexivity.
  - unfold bind.
    destruct (repo_body w includeRuns org token r s) as [[e | []] s1];
      [reflexivity|].
    rewrite IH. reflexivity.
Qed.

End Frame.

(* ------------------------------------------------------------------ *)
(** ** What a computation appends                                      *)
(* ------------------------------------------------------------------ *)

Module Adds.

Section Closure.

Variable Pc : Call -> Prop.
Variable Pp : Pipeline -> Prop.

Lemma adds_ret {A} (a : A) : adds Pc Pp (ret a).
Proof.
  intros s. exists [], []. simpl. rewrite !app_nil_r.
  destruct s; repeat split; constructor.
Qed.

Lemma adds_throw {A} (e : Exn) : adds Pc Pp (@throw A e).
Proof.
  intros s. exists [], []. simpl. rewrite !app_nil_r.
  destruct s; repeat split; constructor.
Qed.

Lemma adds_request {A} (c : Call) (answer : Exn + A) :
  Pc c -> adds Pc Pp (request c answer).
Proof.
  intros Hc s. exists [c], []. simpl. rewrite app_nil_r.
  repeat split; repeat constructor; assumption.
Qed.

Lemma adds_push (p : Pipeline) : Pp p -> adds Pc Pp (push p).
Proof.
  intros Hp s. exists [], [p]. simpl. rewrite app_nil_r.
  repeat split; repeat constructor; assumption.
Qed.

Lemma adds_bind {A B} (m : M A) (k : A -> M B) :
  adds Pc Pp m -> (forall a, adds Pc Pp (k a)) -> adds Pc Pp (bind m k).
Proof.
  intros Hm Hk s. unfold bind.
  destruct (Hm s) as (dc1 & dp1 & Hs1 & Hc1 & Hp1).
  destruct (m s) as [[e | a] s1]; simpl in Hs1.
  - exists dc1, dp1. simpl. auto.
  - destruct (Hk a s1) as (dc2 & dp2 & Hs2 & Hc2 & Hp2).
    exists (dc1 ++ dc2), (dp1 ++ dp2). rewrite Hs2, Hs1; simpl.
    rewrite !app_assoc. repeat split; apply Forall_app; split; assumption.
Qed.

Lemma adds_try_catch {A} (m : M A) (h : Exn -> M A) :
  adds Pc Pp m -> (forall e, adds Pc Pp (h e)) -> adds Pc Pp (try_catch m h).
Proof.
  intros Hm Hh s. unfold try_catch.
  destruct (Hm s) as (dc1 & dp1 & Hs1 & Hc1 & Hp1).
  destruct (m s) as [[e | a] s1]; simpl in Hs1.
  - destruct (Hh e s1) as (dc2 & dp2 & Hs2 & Hc2 & Hp2).
    exists (dc1 ++ dc2), (dp1 ++ dp2). rewrite Hs2, Hs1; simpl.
    rewrite !app_assoc. repeat split; apply Forall_app; split; assumption.
  - exists dc1, dp1. simpl. auto.
Qed.

Variable w : World.

Lemma adds_fetchLatestRun (owner repo : string) (id : N) (token : string) :
  Pc (GetRuns owner repo id token) ->
  adds Pc Pp (fetchLatestRun w owner repo id token).
Proof.
  intros Hc. unfold fetchLatestRun, axios_get_runs.
  apply adds_bind; [now apply adds_request|].
  intros [[|run rest]|]; apply adds_ret.
Qed.

Section Loops.

Variable includeRuns : bool.

Hypothesis Pc_workflows : forall o r t, Pc (GetWorkflows o r t).
Hypothesis Pc_runs : includeRuns = true -> forall o r i t, Pc (GetRuns o r i t).
Hypothesis Pp_run : forall p, (includeRuns = false -> latest_run p = None) -> Pp p.

Lemma adds_workflow_loop (owner repo token : string) (wfs : list Workflow) :
  adds Pc Pp (workflow_loop w includeRuns owner repo token wfs).
Proof.
  induction wfs as [|wf rest IH]; simpl; [apply adds_ret|].
  destruct (Bool.bool_dec includeRuns true) as [Hir | Hir].
  - apply adds_bind.
    + rewrite Hir. apply adds_fetchLatestRun. now apply Pc_runs.
    + intros lr. apply adds_bind; [|intros _; exact IH].
      apply adds_push, Pp_run. congruence.
  - apply Bool.not_true_is_false in Hir.
    assert (H : adds Pc Pp
                  (push (mkPipeline owner repo (wf_id wf) (wf_name wf)
                           (wf_path wf) (wf_state wf) (wf_created_at wf)
                           (wf_updated_at wf) (wf_html_url wf) None) ;;;
                   workflow_loop w includeRuns owner repo token rest)).
    { apply adds_bind; [|intros _; exact IH].
      apply adds_push, Pp_run. reflexivity. }
    intros s. specialize (H s). unfold bind, ret in H |- *.
    rewrite Hir in H |- *. exact H.
Qed.

Lemma adds_repo_body (org token : string) (r : Repo) :
  adds Pc Pp (repo_body w includeRuns org token r).
Proof.
  unfold repo_body, axios_get_workflows. apply adds_try_catch.
  - apply adds_bind; [apply adds_request, Pc_workflows|].
    intros [[|wf wfs]|]; try apply adds_ret. apply adds_workflow_loop.
  - intros e. destruct (status_in _ e); [apply adds_ret | apply adds_throw].
Qed.

Lemma adds_repo_loop (org token : string) (repos : list Repo) :
  adds Pc Pp (repo_loop w includeRuns org token repos).
Proof.
  induction repos as [|r rest IH]; simpl; [apply adds_ret|].
  apply adds_bind; [apply adds_repo_body | intros _; exact IH].
Qed.

End Loops.

End Closure.

End Adds.

(* ------------------------------------------------------------------ *)
(** ** The aggregation                                                 *)
(* ------------------------------------------------------------------ *)

Module AggregateFacts.

Section Facts.

Variable w : World.
Variable includeRuns : bool.
Variables org token : string.

(** A repository whose workflow listing is rejected: the error is dropped
    for the three local codes and thrown again otherwise; nothing is
    pushed. *)
Lemma repo_body_listing_fails (r : Repo) (e : Exn) (s : St) :
  api_workflows w (owner_of org r) (repo_name r) token = inl e ->
  repo_body w includeRuns org token r s
  = ((if status_in [403; 404; 409] e then inr tt else inl e),
     mkSt (calls s ++ [GetWorkflows (owner_of org r) (repo_name r) token])
          (pipelines s)).
Proof.
  intros He. unfold repo_body, try_catch, bind, axios_get_workflows, request.
  rewrite He. destruct (status_in _ e); reflexivity.
Qed.

Lemma collected_nil : collected w includeRuns org token [] = inr [].
Proof. reflexivity. Qed.

Lemma collected_app (l1 l2 : list Repo) :
  collected w includeRuns org token (l1 ++ l2)
  = match collected w includeRuns org token l1 with
    | inl e => inl e
    | inr p1 =>
        match collected w includeRuns org token l2 with
        | inl e => inl e
        | inr p2 => inr (p1 ++ p2)
        end
    end.
Proof.
  unfold collected. rewrite Frame.repo_loop_app. unfold bind.
  destruct (repo_loop w includeRuns org token l1 St0) as [[e | []] s1];
    [reflexivity|].
  rewrite (Frame.framed_repo_loop w includeRuns org token l2 s1).
  destruct (repo_loop w includeRuns org token l2 St0) as [[e | []] d];
    reflexivity.
Qed.

Lemma collected_single_fails (r : Repo) (e : Exn) :
  api_workflows w (owner_of org r) (repo_name r) token = inl e ->
  collected w includeRuns org token [r]
  = if status_in [403; 404; 409] e then inr [] else inl e.
Proof.
  intros He. unfold collected. simpl. unfold bind.
  rewrite (repo_body_listing_fails r e St0 He).
  destruct (status_in _ e); reflexivity.
Qed.

(** The calls of the listing: the organization scope, then the account
    scope when and only when the first answer is a 404. *)
Lemma list_repos_run (s : St) :
  list_repos w org token s
  = match api_org_repos w org token with
    | inr repos =>
        (inr repos, mkSt (calls s ++ [GetOrgRepos org token]) (pipelines s))
    | inl e =>
        if status_is 404 e
        then (api_user_repos w org token,
              mkSt (calls s ++ [GetOrgRepos org token; GetUserRepos org token])
                   (pipelines s))
        else (inl e, mkSt (calls s ++ [GetOrgRepos org token]) (pipelines s))
    end.
Proof.
  unfold list_repos, try_catch, axios_get_org_repos, axios_get_user_repos,
    request, throw.
  destruct (api_org_repos w org token) as [e | repos]; simpl; [|reflexivity].
  destruct (status_is 404 e); simpl; [|reflexivity].
  rewrite <- app_assoc. reflexivity.
Qed.

Lemma aggregate_run (s : St) :
  aggregate w includeRuns org token s
  = match list_repos w org token St0 with
    | (inl e, d) => (inl e, st_app s d)
    | (inr repos, d) =>
        (collected w includeRuns org token repos,
         mkSt (calls s ++ calls d
                 ++ calls (snd (repo_loop w includeRuns org token repos St0)))
              (pipelines (snd (repo_loop w includeRuns org token repos St0))))
    end.
Proof.
  unfold aggregate, bind. rewrite (Frame.framed_list_repos w org token s).
  destruct (list_repos w org token St0) as [[e | repos] d]; simpl;
    [reflexivity|].
  rewrite (Frame.framed_repo_loop w includeRuns org token repos
             (mkSt (calls s ++ calls d) [])).
  unfold collected, read_pipelines.
  destruct (repo_loop w includeRuns org token repos St0) as [[e | []] d2];
    unfold st_app; simpl; rewrite <- app_assoc; reflexivity.
Qed.

Lemma aggregate_result (s : St) :
  fst (aggregate w includeRuns org token s)
  = match enumerated w org token with
    | inl e => inl e
    | inr repos => collected w includeRuns org token repos
    end.
Proof.
  rewrite aggregate_run. unfold enumerated.
  destruct (list_repos w org token St0) as [[e | repos] d]; reflexivity.
Qed.

End Facts.

(** The answer of the handler of [GET /github/pipelines] for a request
    that names an organization. *)
Lemma github_pipelines_result (w : World) (req : Req) (s : St) (org : string) :
  query_org req = Some org -> org <> "" ->
  fst (github_pipelines w req s)
  = inr (match enumerated w org (req_token req) with
         | inl e => error_response e
         | inr repos =>
             match collected w (parse_includeRuns (query_includeRuns req))
                             org (req_token req) repos with
             | inr ps => mkResponse 200 (BPipelines ps)
             | inl e => error_response e
             end
         end).
Proof.
  intros Horg Hne. unfold github_pipelines. rewrite Horg.
  unfold Js.truthy, Js.or_str. apply String.eqb_neq in Hne. rewrite Hne.
  cbn [negb]. unfold try_catch, bind at 1.
  pose proof (aggregate_result w (parse_includeRuns (query_includeRuns req))
                org (req_token req) s) as Hres.
  destruct (aggregate w (parse_includeRuns (query_includeRuns req)) org
              (req_token req) s) as [[e | ps] s1]; simpl in Hres.
  - destruct (enumerated w org (req_token req)) as [e1 | repos].
    + injection Hres as ->. reflexivity.
    + rewrite <- Hres. reflexivity.
  - destruct (enumerated w org (req_token req)) as [e1 | repos];
      [discriminate|].
    rewrite <- Hres. reflexivity.
Qed.

Lemma github_pipelines_calls (w : World) (req : Req) (s : St) (org : string) :
  query_org req = Some org -> org <> "" ->
  calls (snd (github_pipelines w req s))
  = calls s
    ++ match list_repos w org (req_token req) St0 with
       | (inl _, d) => calls d
       | (inr repos, d) =>
           calls d
           ++ calls (snd (repo_loop w (parse_includeRuns (query_includeRuns req))
                                    org (req_token req) repos St0))
       end.
Proof.
  intros Horg Hne. unfold github_pipelines. rewrite Horg.
  unfold Js.truthy, Js.or_str. apply String.eqb_neq in Hne. rewrite Hne.
  cbn [negb]. unfold try_catch, bind at 1. rewrite aggregate_run.
  destruct (list_repos w org (req_token req) St0) as [[e | repos] d];
    [reflexivity|].
  destruct (collected w _ org (req_token req) repos); reflexivity.
Qed.

(** The loops call the workflow listing and the run listing only. *)
Lemma repo_loop_calls (w : World) (includeRuns : bool) (org token : string)
    (repos : list Repo) :
  Forall (fun c => is_loop_call c = true
                   /\ (includeRuns = false -> is_runs c = false))
         (calls (snd (repo_loop w includeRuns org token repos St0)))
  /\ (includeRuns = false ->
      Forall (fun p => latest_run p = None)
             (pipelines (snd (repo_loop w includeRuns org token repos St0)))).
Proof.
  destruct (Adds.adds_repo_loop
              (fun c => is_loop_call c = true
                        /\ (includeRuns = false -> is_runs c = false))
              (fun p => includeRuns = false -> latest_run p = None)
              w includeRuns) with (org := org) (token := token)
                                  (repos := repos) (s := St0)
    as (dc & dp & Hs & Hc & Hp).
  - intros o r t. split; reflexivity.
  - intros Hir o r i t. split; [reflexivity | congruence].
  - intros p Hp. exact Hp.
  - rewrite Hs. simpl. split; [exact Hc|].
    intros Hir. apply Forall_impl with (2 := Hp). auto.
Qed.

Lemma count_calls_app (p : Call -> bool) (l1 l2 : list Call) :
  count_calls p (l1 ++ l2) = count_calls p l1 + count_calls p l2.
Proof. unfold count_calls. now rewrite filter_app, length_app. Qed.

Lemma count_calls_none (p : Call -> bool) (l : list Call) :
  Forall (fun c => p c = false) l -> count_calls p l = 0.
Proof.
  unfold count_calls. induction 1 as [|c l Hc _ IH]; simpl; [reflexivity|].
  now rewrite Hc.
Qed.

Lemma count_calls_skip (p : Call -> bool) (c : Call) (l : list Call) :
  p c = false -> count_calls p (c :: l) = count_calls p l.
Proof. intros Hc. unfold count_calls. simpl. now rewrite Hc. Qed.

End AggregateFacts.

Lemma repo_local_status_in (e : Exn) :
  repo_local e <-> status_in [403; 404; 409] e = true.
Proof.
  unfold repo_local, status_in. destruct (response_status e) as [n|].
  - cbn [existsb]. rewrite !Bool.orb_true_iff, !Nat.eqb_eq.
    split.
    + intros [H | [H | H]]; injection H as ->; auto.
    + intros [H | [H | [H | H]]]; subst; auto. discriminate.
  - split; [intros [H | [H | H]]; discriminate | discriminate].
Qed.

(** The loop over [l1 ++ k :: l2] when the workflow listing of [k] is
    rejected: with one of the three local codes it gives what the loop over
    [l1 ++ l2] gives; otherwise it aborts with the error of the listing,
    unless [l1] aborted before. *)
Lemma listing_failure_collected
    (w : World) (includeRuns : bool) (org token : string)
    (l1 l2 : list Repo) (k : Repo) (e : Exn) :
  api_workflows w (owner_of org k) (repo_name k) token = inl e ->
  (repo_local e ->
     collected w includeRuns org token (l1 ++ k :: l2)
     = collected w includeRuns org token (l1 ++ l2)
     /\ collected w includeRuns org token [k] = inr []
     /\ (forall p1 p2,
           collected w includeRuns org token l1 = inr p1 ->
           collected w includeRuns org token l2 = inr p2 ->
           collected w includeRuns org token (l1 ++ k :: l2) = inr (p1 ++ p2)))
  /\ (~ repo_local e ->
      collected w includeRuns org token (l1 ++ k :: l2)
      = match collected w includeRuns org token l1 with
        | inl e1 => inl e1
        | inr _ => inl e
        end
      /\ (forall req s p1,
            query_org req = Some org -> org <> "" ->
            req_token req = token ->
            parse_includeRuns (query_includeRuns req) = includeRuns ->
            enumerated w org token = inr (l1 ++ k :: l2) ->
            collected w includeRuns org token l1 = inr p1 ->
            fst (github_pipelines w req s) = inr (error_response e))).
Proof.
  intros He.
  pose proof (AggregateFacts.collected_single_fails w includeRuns org token k e He)
    as Hk.
  assert (Hsplit : collected w includeRuns org token (l1 ++ k :: l2)
                   = match collected w includeRuns org token l1 with
                     | inl e1 => inl e1
                     | inr p1 =>
                         match collected w includeRuns org token [k] with
                         | inl e2 => inl e2
                         | inr pk =>
                             match collected w includeRuns org token l2 with
                             | inl e3 => inl e3
                             | inr p2 => inr (p1 ++ pk ++ p2)
                             end
                         end
                     end).
  { change (k :: l2) with ([k] ++ l2).
    rewrite !AggregateFacts.collected_app.
    destruct (collected w includeRuns org token l1); [reflexivity|].
    destruct (collected w includeRuns org token [k]); [reflexivity|].
    destruct (collected w includeRuns org token l2); reflexivity. }
  split.
  - intros Hloc. apply repo_local_status_in in Hloc. rewrite Hloc in Hk.
    rewrite Hsplit, Hk, AggregateFacts.collected_app.
    split; [|split].
    + destruct (collected w includeRuns org token l1); [reflexivity|].
      destruct (collected w includeRuns org token l2); reflexivity.
    + reflexivity.
    + intros p1 p2 H1 H2. rewrite H1, H2. reflexivity.
  - intros Hloc.
    assert (Hin : status_in [403; 404; 409] e = false).
    { destruct (status_in [403; 404; 409] e) eqn:Hin; [|reflexivity].
      exfalso. apply Hloc, repo_local_status_in, Hin. }
    rewrite Hin in Hk. rewrite Hsplit, Hk.
    split; [reflexivity|].
    intros req s p1 Horg Hne Htok Hir Henum H1.
    rewrite (AggregateFacts.github_pipelines_result w req s org Horg Hne).
    rewrite Htok, Hir, Henum, Hsplit, Hk, H1. reflexivity.
Qed.

(** C4: when the organization-scoped listing fails with a 404, the
    account-scoped listing is called exactly once in the whole request and
    its answer is the enumeration; when it fails with anything else, the
    account-scoped listing is not called and the handler reports that very
    error. *)
Theorem org_listing_fallback (w : World) (req : Req) (org : string) (e : Exn) :
  query_org req = Some org -> org <> "" ->
  api_org_repos w org (req_token req) = inl e ->
  (response_status e = Some 404 ->
     list_repos w org (req_token req) St0
     = (api_user_repos w org (req_token req),
        mkSt [GetOrgRepos org (req_token req);
              GetUserRepos org (req_token req)] [])
     /\ count_calls is_user_repos (snd (run (github_pipelines w req))) = 1)
  /\ (response_status e <> Some 404 ->
      list_repos w org (req_token req) St0
      = (inl e, mkSt [GetOrgRepos org (req_token req)] [])
      /\ run (github_pipelines w req)
         = (inr (error_response e), [GetOrgRepos org (req_token req)])
      /\ count_calls is_user_repos (snd (run (github_pipelines w req))) = 0).
Proof.
  intros Horg Hne He.
  pose proof (AggregateFacts.list_repos_run w org (req_token req) St0) as Hlist.
  rewrite He in Hlist. simpl in Hlist.
  assert (Hrun : forall A (m : M A), snd (run m) = calls (snd (m St0))).
  { intros A m. unfold run. destruct (m St0); reflexivity. }
  split.
  - intros H404. unfold status_is in Hlist. rewrite H404 in Hlist.
    simpl in Hlist. split; [exact Hlist|].
    rewrite Hrun, (AggregateFacts.github_pipelines_calls w req St0 org Horg Hne).
    rewrite Hlist. simpl.
    destruct (api_user_repos w org (req_token req)) as [e2 | repos];
      [reflexivity|].
    simpl. unfold count_calls. simpl. f_equal.
    apply (AggregateFacts.count_calls_none is_user_repos).
    destruct (AggregateFacts.repo_loop_calls w
                (parse_includeRuns (query_includeRuns req)) org
                (req_token req) repos) as [Hc _].
    apply Forall_impl with (2 := Hc).
    intros c [Hloop _]. destruct c; simpl in *; congruence.
  - intros H404.
    assert (Hst : status_is 404 e = false).
    { unfold status_is. destruct (response_status e) as [n|]; [|reflexivity].
      apply Nat.eqb_neq. congruence. }
    rewrite Hst in Hlist. split; [exact Hlist|].
    assert (Hres : run (github_pipelines w req)
                   = (inr (error_response e), [GetOrgRepos org (req_token req)])).
    { pose proof (AggregateFacts.github_pipelines_result w req St0 org Horg Hne)
        as Hr.
      pose proof (AggregateFacts.github_pipelines_calls w req St0 org Horg Hne)
        as Hc.
      unfold enumerated in Hr. rewrite Hlist in Hr, Hc. simpl in Hr, Hc.
      unfold run. destruct (github_pipelines w req St0) as [r s1].
      simpl in Hr, Hc. rewrite Hr, Hc. reflexivity. }
    split; [exact Hres|]. rewrite Hres. reflexivity.
Qed.

(** [octocat] is an account: the organization listing answers 404 and the
    account listing is called once. *)
Lemma org_listing_fallback_witness :
  count_calls is_user_repos
    (snd (run (github_pipelines acme_world
                 (with_github (with_query req0 (Some "octocat") None)
                              "ghp_env" SrcEnv)))) = 1.
Proof.
  refine (proj2 (proj1 (org_listing_fallback acme_world
            (with_github (with_query req0 (Some "octocat") None) "ghp_env" SrcEnv)
            "octocat" (http_error 404 "Not Found") eq_refl _ eq_refl) eq_refl)).
  discriminate.
Defined.

Lemma maybeAuth_query (req : Req) :
  query_org (maybeAuth req) = query_org req
  /\ query_includeRuns (maybeAuth req) = query_includeRuns req.
Proof.
  unfold maybeAuth.
  destruct (Js.truthy _); [split; reflexivity|].
  destruct (Js.truthy _); split; reflexivity.
Qed.

(** With the run look-up suppressed, the handler of [GET /github/pipelines]
    adds no run listing to the trace and every pipeline it returns has no
    run. *)
Lemma github_pipelines_no_runs (w : World) (req : Req) (s : St) :
  parse_includeRuns (query_includeRuns req) = false ->
  count_calls is_runs (calls (snd (github_pipelines w req s)))
  = count_calls is_runs (calls s)
  /\ (forall ps,
        fst (github_pipelines w req s) = inr (mkResponse 200 (BPipelines ps)) ->
        Forall (fun p => latest_run p = None) ps).
Proof.
  intros Hir.
  destruct (Js.truthy (query_org req)) eqn:Horg.
  - unfold Js.truthy in Horg. destruct (query_org req) as [org|] eqn:Hq;
      [|discriminate].
    assert (Hne : org <> "").
    { apply String.eqb_neq. now destruct (org =? ""). }
    split.
    + rewrite (AggregateFacts.github_pipelines_calls w req s org Hq Hne).
      rewrite AggregateFacts.count_calls_app, Hir.
      rewrite (AggregateFacts.list_repos_run w org (req_token req) St0).
      assert (Hloop : forall repos,
                count_calls is_runs
                  (calls (snd (repo_loop w false org (req_token req) repos St0)))
                = 0).
      { intros repos. apply AggregateFacts.count_calls_none.
        destruct (AggregateFacts.repo_loop_calls w false org (req_token req)
                    repos) as [Hc _].
        apply Forall_impl with (2 := Hc). intros c [_ Hc']. now apply Hc'. }
      assert (Hzero : count_calls is_runs [] = 0) by reflexivity.
      destruct (api_org_repos w org (req_token req)) as [e | repos];
        [destruct (status_is 404 e);
         [destruct (api_user_repos w org (req_token req)) as [e2 | repos]|]|];
        simpl;
        repeat rewrite AggregateFacts.count_calls_skip by reflexivity;
        rewrite ?Hloop, ?Hzero; lia.
    + intros ps. rewrite (AggregateFacts.github_pipelines_result w req s org Hq Hne).
      rewrite Hir. unfold error_response.
      destruct (enumerated w org (req_token req)) as [e | repos];
        [discriminate|].
      unfold collected.
      destruct (AggregateFacts.repo_loop_calls w false org (req_token req) repos)
        as [_ Hp].
      destruct (repo_loop w false org (req_token req) repos St0)
        as [[e | []] s1]; [discriminate|].
      intros H. injection H as <-. now apply Hp.
  - unfold github_pipelines. rewrite Horg. simpl.
    split; [reflexivity | discriminate].
Qed.

(** C5: with [includeRuns=false], the run listing is called zero times in
    the whole request, and every pipeline of a 200 answer has
    [latest_run = null]. *)
Theorem no_runs_when_suppressed (w : World) (req : Req) :
  parse_includeRuns (query_includeRuns req) = false ->
  count_calls is_runs (snd (run (github_route w (github_pipelines w) req))) = 0
  /\ (forall ps,
        fst (run (github_route w (github_pipelines w) req))
        = inr (Sent (mkResponse 200 (BPipelines ps))) ->
        Forall (fun p => latest_run p = None) ps).
Proof.
  intros Hir. unfold run. rewrite TokenFacts.github_route_run.
  assert (Hmw : count_calls is_runs
                  (store_calls (maybeAuth req)
                     ++ self_test_calls w (maybeAuth req)) = 0).
  { apply AggregateFacts.count_calls_none, Forall_app. split.
    - unfold store_calls. destruct (userId (maybeAuth req)) as [uid|];
        [destruct (uid =? "")|]; repeat constructor.
    - unfold self_test_calls.
      destruct (selected_credential w (maybeAuth req)) as [[t src]|];
        repeat constructor. }
  unfold resolution.
  destruct (selected_credential w (maybeAuth req)) as [[token source]|];
    [destruct (api_user w token) as [e | []]|];
    try (split; [exact Hmw | discriminate]).
  destruct (github_pipelines_no_runs w
              (with_github (maybeAuth req) token source)
              (mkSt (store_calls (maybeAuth req)
                       ++ self_test_calls w (maybeAuth req)) []))
    as [Hc Hp].
  { simpl. now rewrite (proj2 (maybeAuth_query req)). }
  destruct (github_pipelines w (with_github (maybeAuth req) token source) _)
    as [[e1 | resp] s1]; cbn [fst snd calls] in Hc, Hp |- *.
  - split; [now rewrite Hc | discriminate].
  - split; [now rewrite Hc|].
    intros ps H. injection H as ->. now apply Hp.
Qed.

(** [GET /github/pipelines?org=acme&includeRuns=FALSE] with the
    environment token. *)
Lemma no_runs_when_suppressed_witness :
  count_calls is_runs
    (snd (run (github_route acme_world (github_pipelines acme_world)
                 (with_query req0 (Some "acme") (Some "FALSE"))))) = 0.
Proof.
  exact (proj1 (no_runs_when_suppressed acme_world
                  (with_query req0 (Some "acme") (Some "FALSE")) eq_refl)).
Defined.

(** The pipeline pushed for a workflow. *)
Lemma workflow_loop_keeps (w : World) (includeRuns : bool)
    (owner repo token : string) (wfs : list Workflow) (s : St) (p : Pipeline) :
  In p (pipelines s) ->
  In p (pipelines (snd (workflow_loop w includeRuns owner repo token wfs s))).
Proof.
  intros Hin.
  destruct (Adds.adds_workflow_loop (fun _ => True) (fun _ => True)
              w includeRuns) with (owner := owner) (repo := repo)
                                  (token := token) (wfs := wfs) (s := s)
    as (dc & dp & Hs & _); auto.
  rewrite Hs. simpl. apply in_or_app. now left.
Qed.

(** One turn of the workflow loop for a workflow whose run listing holds
    no run: [fetchLatestRun] returns [null], the pipeline is pushed with
    [latest_run = null] and the loop goes on. *)
Lemma zero_runs_step
    (w : World) (owner repo token : string) (wf : Workflow)
    (rest : list Workflow) (s : St) :
  api_runs w owner repo (wf_id wf) token = inr (Some []) ->
  let p := mkPipeline owner repo (wf_id wf) (wf_name wf) (wf_path wf)
                      (wf_state wf) (wf_created_at wf) (wf_updated_at wf)
                      (wf_html_url wf) None in
  fetchLatestRun w owner repo (wf_id wf) token s
  = (inr None,
     mkSt (calls s ++ [GetRuns owner repo (wf_id wf) token]) (pipelines s))
  /\ workflow_loop w true owner repo token (wf :: rest) s
     = workflow_loop w true owner repo token rest
         (mkSt (calls s ++ [GetRuns owner repo (wf_id wf) token])
               (pipelines s ++ [p]))
  /\ In p (pipelines (snd (workflow_loop w true owner repo token (wf :: rest) s))).
Proof.
  intros Hruns p.
  assert (Hfetch : fetchLatestRun w owner repo (wf_id wf) token s
                   = (inr None,
                      mkSt (calls s ++ [GetRuns owner repo (wf_id wf) token])
                           (pipelines s))).
  { unfold fetchLatestRun, bind, axios_get_runs, request.
    rewrite Hruns. reflexivity. }
  assert (Hloop : workflow_loop w true owner repo token (wf :: rest) s
                  = workflow_loop w true owner repo token rest
                      (mkSt (calls s ++ [GetRuns owner repo (wf_id wf) token])
                            (pipelines s ++ [p]))).
  { cbn [workflow_loop]. unfold bind at 1. rewrite Hfetch.
    unfold bind, push. reflexivity. }
  split; [exact Hfetch|]. split; [exact Hloop|].
  rewrite Hloop. apply workflow_loop_keeps. simpl.
  apply in_or_app. right. now left.
Qed.

(* ------------------------------------------------------------------ *)
(** ** Uniqueness of the emitted pipelines                             *)
(* ------------------------------------------------------------------ *)

Module Unique.

Section Loop.

Variable w : World.
Variable includeRuns : bool.
Variables org token : string.

Lemma fetchLatestRun_pipelines (owner repo : string) (id : N) (s : St) :
  pipelines (snd (fetchLatestRun w owner repo id token s)) = pipelines s.
Proof.
  unfold fetchLatestRun, bind, axios_get_runs, request.
  destruct (api_runs w owner repo id token) as [e | [[|run rest]|]]; reflexivity.
Qed.

(** The workflow loop pushes the pipelines of a prefix of the listing. *)
Lemma workflow_loop_triples (owner repo : string) (wfs : list Workflow) (s : St) :
  exists n,
    map triple (pipelines (snd (workflow_loop w includeRuns owner repo token wfs s)))
    = map triple (pipelines s)
      ++ firstn n (map (fun wf => (owner, repo, wf_id wf)) wfs).
Proof.
  revert s; induction wfs as [|wf rest IH]; intros s.
  - exists 0. simpl. now rewrite app_nil_r.
  - cbn [workflow_loop]. unfold bind at 1.
    assert (Hkeep : pipelines
                      (snd ((if includeRuns
                             then fetchLatestRun w owner repo (wf_id wf) token
                             else ret None) s)) = pipelines s).
    { destruct includeRuns; [apply fetchLatestRun_pipelines | reflexivity]. }
    destruct ((if includeRuns
               then fetchLatestRun w owner repo (wf_id wf) token
               else ret None) s) as [[e | lr] s1]; simpl in Hkeep.
    + exists 0. simpl. now rewrite Hkeep, app_nil_r.
    + unfold bind, push. simpl.
      destruct (IH (mkSt (calls s1)
                         (pipelines s1
                            ++ [mkPipeline owner repo (wf_id wf) (wf_name wf)
                                  (wf_path wf) (wf_state wf) (wf_created_at wf)
                                  (wf_updated_at wf) (wf_html_url wf) lr])))
        as [n Hn].
      exists (S n). rewrite Hn. simpl. rewrite Hkeep, map_app, <- app_assoc.
      reflexivity.
Qed.

Lemma repo_body_triples (r : Repo) (s : St) :
  exists n,
    map triple (pipelines (snd (repo_body w includeRuns org token r s)))
    = map triple (pipelines s) ++ firstn n (triples_of w org token r).
Proof.
  unfold triples_of, repo_body, listed_workflows,
    try_catch, bind, axios_get_workflows, request.
  destruct (api_workflows w (owner_of org r) (repo_name r) token)
    as [e | [[|wf wfs]|]].
  - exists 0. destruct (status_in _ e); simpl; now rewrite app_nil_r.
  - exists 0. simpl. now rewrite app_nil_r.
  - destruct (workflow_loop_triples (owner_of org r) (repo_name r) (wf :: wfs)
                (mkSt (calls s ++ [GetWorkflows (owner_of org r) (repo_name r)
                                     token]) (pipelines s))) as [n Hn].
    exists n. cbn [pipelines] in Hn. rewrite <- Hn.
    destruct (workflow_loop w includeRuns (owner_of org r) (repo_name r) token
                (wf :: wfs) _) as [[e | []] s1]; [|reflexivity].
    destruct (status_in _ e); reflexivity.
  - exists 0. simpl. now rewrite app_nil_r.
Qed.

Lemma triples_of_key (r : Repo) (t : string * string * N) :
  In t (triples_of w org token r) -> fst t = repo_key org r.
Proof.
  unfold triples_of. intros Hin. apply in_map_iff in Hin.
  destruct Hin as (wf & <- & _). reflexivity.
Qed.

Lemma triples_of_nodup (r : Repo) :
  NoDup (map wf_id (listed_workflows w org token r)) -> NoDup (triples_of w org token r).
Proof.
  unfold triples_of.
  induction (listed_workflows w org token r) as [|wf l IH];
    simpl; intros Hnd; [constructor|].
  apply NoDup_cons_iff in Hnd as [Hnotin Hnd].
  constructor; [|now apply IH].
  intros Hin. apply Hnotin. apply in_map_iff in Hin.
  destruct Hin as (wf' & Heq & Hin'). injection Heq as Heq.
  rewrite <- Heq. now apply in_map.
Qed.

Lemma firstn_nodup {A} (n : nat) (l : list A) : NoDup l -> NoDup (firstn n l).
Proof.
  intros H. rewrite <- (firstn_skipn n l) in H.
  exact (NoDup_app_remove_r _ _ H).
Qed.

Lemma firstn_in {A} (n : nat) (l : list A) (x : A) : In x (firstn n l) -> In x l.
Proof.
  intros H. rewrite <- (firstn_skipn n l). apply in_or_app. now left.
Qed.

(** The loop keeps the triples distinct, as long as the pipelines already
    pushed belong to none of the repositories still to come. *)
Lemma repo_loop_nodup (repos : list Repo) (s : St) :
  NoDup (map (repo_key org) repos) ->
  (forall r, In r repos -> NoDup (map wf_id (listed_workflows w org token r))) ->
  NoDup (map triple (pipelines s)) ->
  (forall t, In t (map triple (pipelines s)) ->
             ~ In (fst t) (map (repo_key org) repos)) ->
  NoDup (map triple
           (pipelines (snd (repo_loop w includeRuns org token repos s)))).
Proof.
  revert s; induction repos as [|r rest IH]; intros s Hkeys Hids Hnd Hfresh.
  - exact Hnd.
  - cbn [repo_loop]. unfold bind.
    destruct (repo_body_triples r s) as [n Hn].
    apply NoDup_cons_iff in Hkeys as [Hr Hrest]. fold (map (repo_key org) rest) in *.
    assert (Hnd1 : NoDup (map triple (pipelines s) ++ firstn n (triples_of w org token r))).
    { apply NoDup_app.
      - exact Hnd.
      - apply firstn_nodup, triples_of_nodup, Hids. now left.
      - intros t Hin Hin2. apply (Hfresh t Hin).
        apply firstn_in, triples_of_key in Hin2. rewrite Hin2. now left. }
    destruct (repo_body w includeRuns org token r s) as [[e | []] s1];
      simpl in Hn |- *.
    + rewrite Hn. exact Hnd1.
    + apply IH.
      * exact Hrest.
      * intros r' Hr'. apply Hids. now right.
      * rewrite Hn. exact Hnd1.
      * intros t Hin. rewrite Hn in Hin. apply in_app_or in Hin as [Hin | Hin].
        -- intros Hk. apply (Hfresh t Hin). now right.
        -- apply firstn_in, triples_of_key in Hin. now rewrite Hin.
Qed.

End Loop.

End Unique.

(** C8: when the enumeration names each repository once and each workflow
    listing holds distinct identifiers, the [(owner, repo, workflowId)]
    triples of the pipelines in a 200 answer are pairwise distinct. *)
Theorem pipeline_triples_unique
    (w : World) (req : Req) (s : St) (org : string) (ps : list Pipeline) :
  query_org req = Some org -> org <> "" ->
  (forall repos,
      enumerated w org (req_token req) = inr repos ->
      NoDup (map (repo_key org) repos)
      /\ (forall r, In r repos ->
            NoDup (map wf_id (listed_workflows w org (req_token req) r)))) ->
  fst (github_pipelines w req s) = inr (mkResponse 200 (BPipelines ps)) ->
  NoDup (map triple ps).
Proof.
  intros Horg Hne Hworld.
  rewrite (AggregateFacts.github_pipelines_result w req s org Horg Hne).
  unfold error_response.
  destruct (enumerated w org (req_token req)) as [e | repos]; [discriminate|].
  destruct (Hworld repos eq_refl) as [Hkeys Hids].
  unfold collected.
  pose proof (Unique.repo_loop_nodup w (parse_includeRuns (query_includeRuns req))
                org (req_token req) repos St0 Hkeys Hids) as Hnd.
  destruct (repo_loop w (parse_includeRuns (query_includeRuns req)) org
              (req_token req) repos St0) as [[e | []] s1]; [discriminate|].
  intros H. injection H as <-. apply Hnd.
  - constructor.
  - intros t [].
Qed.

(** [GET /github/pipelines?org=acme] with the environment token: [api] and
    [web] both have a workflow 11, under different repositories. *)
Lemma pipeline_triples_unique_witness :
  NoDup [("acme", "api", 11%N); ("acme", "api", 12%N); ("acme", "web", 11%N)].
Proof.
  refine (pipeline_triples_unique acme_world
            (with_github (with_query req0 (Some "acme") (Some "false"))
                         "ghp_env" SrcEnv)
            St0 "acme"
            [mkPipeline "acme" "api" 11 "build" ".github/workflows/build.yml"
               "active" "2024-01-01T00:00:00Z" "2024-01-02T00:00:00Z"
               "https://github.com/acme/api/actions/workflows/build.yml" None;
             mkPipeline "acme" "api" 12 "lint" ".github/workflows/lint.yml"
               "active" "2024-01-01T00:00:00Z" "2024-01-02T00:00:00Z"
               "https://github.com/acme/api/actions/workflows/lint.yml" None;
             mkPipeline "acme" "web" 11 "docs" ".github/workflows/docs.yml"
               "active" "2024-02-01T00:00:00Z" "2024-02-02T00:00:00Z"
               "https://github.com/acme/web/actions/workflows/docs.yml" None]
            eq_refl _ _ eq_refl).
  - discriminate.
  - intros repos H. vm_compute in H. injection H as <-. split.
    + repeat constructor; simpl; intuition discriminate.
    + intros r [<- | [<- | [<- | []]]]; vm_compute;
        repeat constructor; simpl; intuition discriminate.
Defined.

(* ------------------------------------------------------------------ *)
(** ** The stored payload: encrypt and decrypt                         *)
(* ------------------------------------------------------------------ *)

Module PayloadFacts.

Lemma rev_string_twice (a acc b : string) :
  Js.rev_string b (Js.rev_string acc a) = Js.rev_string (a ++ b)%string acc.
Proof.
  revert acc b; induction a as [|c a IH]; intros acc b; simpl.
  - reflexivity.
  - rewrite IH. reflexivity.
Qed.

Lemma rev_string_involutive (a : string) :
  Js.rev_string "" (Js.rev_string "" a) = a.
Proof.
  rewrite rev_string_twice. simpl.
  induction a as [|c a IH]; simpl; [reflexivity | now rewrite IH].
Qed.

Lemma append_assoc (a b c : string) :
  ((a ++ b) ++ c = a ++ (b ++ c))%string.
Proof. induction a as [|x a IH]; simpl; [reflexivity | now rewrite IH]. Qed.

(** Reading a field that holds no separator, up to the next separator. *)
Lemma split_from_field (a cur r : string) :
  no_colon a = true ->
  Js.split_from ":" cur (a ++ String ":" r)
  = Js.rev_string "" (Js.rev_string cur a) :: Js.split_from ":" "" r.
Proof.
  revert cur; induction a as [|c a IH]; intros cur Ha; simpl.
  - reflexivity.
  - simpl in Ha. apply Bool.andb_true_iff in Ha as [Hc Ha].
    apply Bool.negb_true_iff in Hc. rewrite Hc. now apply IH.
Qed.

(** Reading the last field. *)
Lemma split_from_last (a cur : string) :
  no_colon a = true ->
  Js.split_from ":" cur a = [Js.rev_string "" (Js.rev_string cur a)].
Proof.
  revert cur; induction a as [|c a IH]; intros cur Ha; simpl.
  - reflexivity.
  - simpl in Ha. apply Bool.andb_true_iff in Ha as [Hc Ha].
    apply Bool.negb_true_iff in Hc. rewrite Hc. now apply IH.
Qed.

Lemma split_three_fields (a b c : string) :
  no_colon a = true -> no_colon b = true -> no_colon c = true ->
  Js.split ":" (a ++ ":" ++ b ++ ":" ++ c) = [a; b; c].
Proof.
  intros Ha Hb Hc. unfold Js.split.
  change (":" ++ b ++ ":" ++ c)%string with (String ":" (b ++ ":" ++ c)).
  rewrite (split_from_field a "" _ Ha).
  change (":" ++ c)%string with (String ":" c).
  rewrite (split_from_field b "" _ Hb), (split_from_last c "" Hc).
  now rewrite !rev_string_involutive.
Qed.

(** [split] gives one piece more than there are separators. *)
Lemma split_from_length (sep : ascii) (cur s : string) :
  List.length (Js.split_from sep cur s) = S (count_sep sep s).
Proof.
  revert cur; induction s as [|c s IH]; intros cur; simpl.
  - reflexivity.
  - destruct (Ascii.eqb c sep); simpl; now rewrite IH.
Qed.

End PayloadFacts.

(** X1: a payload with fewer than two separators is refused, whatever the
    key and whatever the cipher would say. *)
Theorem decrypt_needs_three_fields
    (cipher : string -> string -> string -> option string) (payload : string) :
  count_sep ":" payload < 2 -> Crypto.decrypt cipher payload = None.
Proof.
  intros Hcount. unfold Crypto.decrypt, Js.split.
  pose proof (PayloadFacts.split_from_length ":" "" payload) as Hlen.
  destruct (Js.split_from ":" "" payload) as [|a [|b [|c l]]]; try reflexivity.
  simpl in Hlen. lia.
Qed.

Lemma decrypt_needs_three_fields_witness :
  Crypto.decrypt toy_open "aXY=:dGFn" = None.
Proof.
  apply (decrypt_needs_three_fields toy_open "aXY=:dGFn"). simpl. lia.
Defined.

(** X2: what [encrypt] writes, [decrypt] reads back, as long as the cipher
    opens what it sealed, the three base64 fields are free of [:] and none
    of them is empty. *)
Theorem encrypt_decrypt_round_trip
    (seal : string -> string -> string * string)
    (open : string -> string -> string -> option string)
    (iv plain tag enc : string) :
  seal iv plain = (tag, enc) ->
  open iv tag enc = Some plain ->
  no_colon iv = true -> no_colon tag = true -> no_colon enc = true ->
  iv <> "" -> tag <> "" -> enc <> "" ->
  Crypto.decrypt open (encrypt seal iv (Some plain)) = Some plain.
Proof.
  intros Hseal Hopen Hiv Htag Henc Hiv0 Htag0 Henc0.
  unfold encrypt, Crypto.decrypt. rewrite Hseal.
  rewrite (PayloadFacts.split_three_fields iv tag enc Hiv Htag Henc).
  apply String.eqb_neq in Hiv0, Htag0, Henc0.
  rewrite Hiv0, Htag0, Henc0. exact Hopen.
Qed.

Lemma encrypt_decrypt_round_trip_witness :
  Crypto.decrypt toy_open (encrypt toy_seal "aXY=" (Some "ghp_abcdef"))
  = Some "ghp_abcdef".
Proof.
  apply (encrypt_decrypt_round_trip toy_seal toy_open
           "aXY=" "ghp_abcdef" "dGFn" "ghp_abcdef");
    solve [reflexivity | discriminate].
Defined.

(** X3: a payload whose cipher text field is empty, which is what sealing
    an empty plain text gives, is not read back: [decrypt] answers [null],
    not the empty string. *)
Theorem encrypt_empty_is_lost
    (seal : string -> string -> string * string)
    (open : string -> string -> string -> option string)
    (iv plain tag : string) :
  seal iv plain = (tag, "") ->
  no_colon iv = true -> no_colon tag = true ->
  Crypto.decrypt open (encrypt seal iv (Some plain)) = None.
Proof.
  intros Hseal Hiv Htag. unfold encrypt, Crypto.decrypt. rewrite Hseal.
  rewrite (PayloadFacts.split_three_fields iv tag "" Hiv Htag eq_refl).
  rewrite Bool.orb_true_r. reflexivity.
Qed.

Lemma encrypt_empty_is_lost_witness :
  Crypto.decrypt toy_open (encrypt toy_seal "aXY=" None) = None.
Proof.
  exact (encrypt_empty_is_lost toy_seal toy_open "aXY=" "" "dGFn"
           eq_refl eq_refl eq_refl).
Defined.

(* ------------------------------------------------------------------ *)
(** ** More on the masked form                                         *)
(* ------------------------------------------------------------------ *)

Module MaskMore.

Lemma substring_whole (b : string) : substring 0 (String.length b) b = b.
Proof. induction b as [|c b IH]; simpl; [reflexivity | now rewrite IH]. Qed.

Lemma substring_app_r (a b : string) :
  substring (String.length a) (String.length b) (a ++ b)%string = b.
Proof.
  induction a as [|c a IH]; simpl; [apply substring_whole | exact IH].
Qed.

(** The masked form of a long string, and its length. *)
Lemma mask_long_form (s : string) :
  4 < String.length s ->
  Crypto.mask (Some s)
  = Some (Js.repeat "*" (String.length s - 4) ++ Js.slice_last 4 s)%string
  /\ String.length (Js.slice_last 4 s) = 4.
Proof.
  intros Hlen. unfold Crypto.mask.
  destruct (String.eqb_spec s "") as [-> | _]; [simpl in Hlen; lia|].
  destruct (Nat.leb_spec (String.length s) 4); [lia|].
  split; [reflexivity|].
  unfold Js.slice_last. apply MaskFacts.length_substring. lia.
Qed.

End MaskMore.

(** X4: the masked form of a non-empty string has the length of the
    string, and four code units when the string is shorter than that: the
    length of a short secret is hidden, the length of a long one is
    shown. *)
Theorem mask_length (s m : string) :
  Crypto.mask (Some s) = Some m ->
  String.length m = Nat.max 4 (String.length s).
Proof.
  unfold Crypto.mask. destruct (s =? ""); [discriminate|].
  destruct (Nat.leb_spec (String.length s) 4) as [Hshort | Hlong];
    intros H; injection H as <-.
  - rewrite Nat.max_l by exact Hshort. reflexivity.
  - rewrite Nat.max_r by lia.
    rewrite MaskFacts.length_app, MaskFacts.length_repeat.
    unfold Js.slice_last. rewrite MaskFacts.length_substring; lia.
Qed.

Lemma mask_length_witness :
  String.length "****" = Nat.max 4 (String.length "ab").
Proof. exact (mask_length "ab" "****" eq_refl). Defined.

(** X5: masking is idempotent: the masked form of a masked form is that
    masked form, so a value that went through [mask] twice shows what it
    showed after the first pass. *)
Theorem mask_idempotent (s m : string) :
  Crypto.mask (Some s) = Some m -> Crypto.mask (Some m) = Some m.
Proof.
  intros Hm.
  destruct (Nat.leb_spec (String.length s) 4) as [Hshort | Hlong].
  - unfold Crypto.mask in Hm. destruct (s =? ""); [discriminate|].
    apply Nat.leb_le in Hshort. rewrite Hshort in Hm.
    injection Hm as <-. reflexivity.
  - destruct (MaskMore.mask_long_form s Hlong) as [Hform Hlast].
    rewrite Hform in Hm. injection Hm as <-.
    set (stars := Js.repeat "*" (String.length s - 4)).
    set (tail := Js.slice_last 4 s) in *.
    assert (Hlen : String.length (stars ++ tail)%string = String.length s).
    { rewrite MaskFacts.length_app. unfold stars.
      rewrite MaskFacts.length_repeat, Hlast. lia. }
    destruct (MaskMore.mask_long_form (stars ++ tail)%string) as [Hform2 _];
      [lia|].
    rewrite Hform2, Hlen. fold stars. do 2 f_equal.
    unfold Js.slice_last. rewrite Hlen.
    replace (String.length s - 4) with (String.length stars)
      by (unfold stars; apply MaskFacts.length_repeat).
    rewrite <- Hlast at 1. apply MaskMore.substring_app_r.
Qed.

Lemma mask_idempotent_witness :
  Crypto.mask (Some "******cdef") = Some "******cdef".
Proof. exact (mask_idempotent "ghp_abcdef" "******cdef" eq_refl). Defined.

(* ------------------------------------------------------------------ *)
(** ** More on the aggregation                                         *)
(* ------------------------------------------------------------------ *)

Module LoopMore.

Section Facts.

Variable w : World.
Variable includeRuns : bool.
Variables org token : string.

(** What the body of the repository loop throws has none of the three
    local codes: those are caught, for the listing and for the run
    look-ups alike. *)
Lemma repo_body_throws (r : Repo) (s : St) (e : Exn) :
  fst (repo_body w includeRuns org token r s) = inl e ->
  status_in [403; 404; 409] e = false.
Proof.
  unfold repo_body, try_catch.
  destruct ((workflows <- axios_get_workflows w (owner_of org r) (repo_name r)
                                              token ;;
             match workflows with
             | Some (wf :: wfs) =>
                 workflow_loop w includeRuns (owner_of org r) (repo_name r)
                               token (wf :: wfs)
             | _ => ret tt
             end) s) as [[e0 | []] s1]; [|discriminate].
  destruct (status_in [403; 404; 409] e0) eqn:Hin; simpl; [discriminate|].
  intros H. injection H as <-. exact Hin.
Qed.

Lemma collected_single (r : Repo) :
  collected w includeRuns org token [r]
  = match repo_body w includeRuns org token r St0 with
    | (inr _, s) => inr (pipelines s)
    | (inl e, _) => inl e
    end.
Proof.
  unfold collected. simpl. unfold bind, ret.
  destruct (repo_body w includeRuns org token r St0) as [[e | []] s];
    reflexivity.
Qed.

Lemma collected_cons (r : Repo) (rest : list Repo) :
  collected w includeRuns org token (r :: rest)
  = match collected w includeRuns org token [r] with
    | inl e => inl e
    | inr p1 =>
        match collected w includeRuns org token rest with
        | inl e => inl e
        | inr p2 => inr (p1 ++ p2)
        end
    end.
Proof. exact (AggregateFacts.collected_app w includeRuns org token [r] rest). Qed.

Lemma collected_throws (repos : list Repo) (e : Exn) :
  collected w includeRuns org token repos = inl e ->
  status_in [403; 404; 409] e = false.
Proof.
  induction repos as [|r rest IH]; [discriminate|].
  rewrite collected_cons, collected_single.
  pose proof (repo_body_throws r St0) as Hbody.
  destruct (repo_body w includeRuns org token r St0) as [[e1 | []] s1].
  - intros H. injection H as <-. now apply Hbody.
  - destruct (collected w includeRuns org token rest) as [e2 | p2];
      [|discriminate].
    intros H. injection H as <-. now apply IH.
Qed.

End Facts.

End LoopMore.

(** X6: once the repositories are enumerated, the aggregation never aborts
    with a 403, a 404 or a 409, whether such an answer comes from a
    workflow listing or from a run look-up; so the handler of
    [GET /github/pipelines] never answers with one of these codes after a
    successful enumeration. *)
Theorem aggregation_absorbs_local_failures
    (w : World) (req : Req) (s : St) (org : string) (repos : list Repo) :
  query_org req = Some org -> org <> "" ->
  enumerated w org (req_token req) = inr repos ->
  (forall e,
      collected w (parse_includeRuns (query_includeRuns req)) org
                (req_token req) repos = inl e -> ~ repo_local e)
  /\ (forall resp,
        fst (github_pipelines w req s) = inr resp ->
        status resp <> 403 /\ status resp <> 404 /\ status resp <> 409).
Proof.
  intros Horg Hne Henum.
  assert (Hloop : forall e,
            collected w (parse_includeRuns (query_includeRuns req)) org
                      (req_token req) repos = inl e ->
            status_in [403; 404; 409] e = false).
  { intros e. apply LoopMore.collected_throws. }
  split.
  - intros e He Hloc. apply repo_local_status_in in Hloc.
    rewrite (Hloop e He) in Hloc. discriminate.
  - intros resp.
    rewrite (AggregateFacts.github_pipelines_result w req s org Horg Hne), Henum.
    destruct (collected w (parse_includeRuns (query_includeRuns req)) org
                (req_token req) repos) as [e | ps] eqn:Hc.
    + intros H. injection H as <-. specialize (Hloop e eq_refl).
      unfold error_response, status_or_500, status_in in *. simpl.
      destruct (response_status e) as [n|]; [|repeat split; discriminate].
      cbn [existsb] in Hloop.
      apply Bool.orb_false_iff in Hloop as [H403 Hloop].
      apply Bool.orb_false_iff in Hloop as [H404 Hloop].
      apply Bool.orb_false_iff in Hloop as [H409 _].
      apply Nat.eqb_neq in H403, H404, H409.
      destruct (Nat.eqb n 0); repeat split; (discriminate || assumption).
    + intros H. injection H as <-. simpl. repeat split; discriminate.
Qed.

(** In [lab] the listing of [broken] answers 500: the request fails, with
    that code. *)
Lemma aggregation_absorbs_local_failures_witness :
  status (mkResponse 500 (BError "Server Error")) <> 404.
Proof.
  refine (proj1 (proj2 (proj2 (aggregation_absorbs_local_failures acme_world
            (with_github (with_query req0 (Some "lab") None) "ghp_env" SrcEnv)
            St0 "lab"
            [mkRepo (Some "lab") "api"; mkRepo (Some "lab") "broken";
             mkRepo (Some "lab") "web"]
            eq_refl _ eq_refl) (mkResponse 500 (BError "Server Error")) eq_refl))).
  discriminate.
Defined.

Module RunFailure.

Section Facts.

Variable w : World.
Variables owner repo token : string.

(** The workflow loop with run look-ups that all answer: one call and one
    pipeline per workflow, in order. *)
Lemma workflow_loop_answers (pre rest : list Workflow) (s : St) :
  (forall wf, In wf pre ->
     exists runs, api_runs w owner repo (wf_id wf) token = inr runs) ->
  workflow_loop w true owner repo token (pre ++ rest) s
  = workflow_loop w true owner repo token rest
      (mkSt (calls s ++ map (fun wf => GetRuns owner repo (wf_id wf) token) pre)
            (pipelines s ++ map (pipeline_of w owner repo token) pre)).
Proof.
  revert s; induction pre as [|wf pre IH]; intros s Hruns.
  - simpl. rewrite !app_nil_r. now destruct s.
  - destruct (Hruns wf (or_introl eq_refl)) as [runs Hwf].
    cbn [app workflow_loop]. unfold bind at 1.
    unfold fetchLatestRun, bind at 1, axios_get_runs, request.
    rewrite Hwf.
    assert (Hp : forall lr s1,
              (push (mkPipeline owner repo (wf_id wf) (wf_name wf) (wf_path wf)
                       (wf_state wf) (wf_created_at wf) (wf_updated_at wf)
                       (wf_html_url wf) lr) ;;;
               workflow_loop w true owner repo token (pre ++ rest)) s1
              = workflow_loop w true owner repo token (pre ++ rest)
                  (mkSt (calls s1)
                        (pipelines s1
                           ++ [mkPipeline owner repo (wf_id wf) (wf_name wf)
                                 (wf_path wf) (wf_state wf) (wf_created_at wf)
                                 (wf_updated_at wf) (wf_html_url wf) lr]))).
    { reflexivity. }
    assert (Hpipe : pipeline_of w owner repo token wf
                    = mkPipeline owner repo (wf_id wf) (wf_name wf) (wf_path wf)
                        (wf_state wf) (wf_created_at wf) (wf_updated_at wf)
                        (wf_html_url wf)
                        match runs with
                        | Some (run :: _) =>
                            Some (mkLatestRun (run_id run) (run_status run)
                                    (run_conclusion run) (run_event run)
                                    (run_head_branch run) (run_created_at run)
                                    (run_updated_at run) (run_html_url run)
                                    (run_actor_login run))
                        | _ => None
                        end).
    { unfold pipeline_of. rewrite Hwf. reflexivity. }
    destruct runs as [[|run l]|]; unfold ret; rewrite Hp, IH;
      try (intros wf' Hin; apply Hruns; now right);
      cbn [calls pipelines map]; rewrite Hpipe, <- !app_assoc; reflexivity.
Qed.

(** The loop stops at the first run look-up that fails. *)
Lemma workflow_loop_fails (wf : Workflow) (post : list Workflow) (e : Exn) (s : St) :
  api_runs w owner repo (wf_id wf) token = inl e ->
  workflow_loop w true owner repo token (wf :: post) s
  = (inl e, mkSt (calls s ++ [GetRuns owner repo (wf_id wf) token]) (pipelines s)).
Proof.
  intros He. cbn [workflow_loop].
  unfold bind, fetchLatestRun, bind, axios_get_runs, request.
  rewrite He. reflexivity.
Qed.

End Facts.

End RunFailure.

(** X7: the [try] of the repository loop also covers the run look-ups.
    When the look-up of one workflow of a repository fails with 403, 404
    or 409, the repository keeps the pipelines of the workflows listed
    before it, loses that workflow and those after it, and the next
    repositories are processed; with any other failure the whole
    aggregation aborts with that error. *)
Theorem run_failure_truncates_repository
    (w : World) (org token : string) (k : Repo) (rest : list Repo)
    (pre post : list Workflow) (wf : Workflow) (e : Exn) :
  api_workflows w (owner_of org k) (repo_name k) token
  = inr (Some (pre ++ wf :: post)) ->
  (forall wf', In wf' pre ->
     exists runs,
       api_runs w (owner_of org k) (repo_name k) (wf_id wf') token = inr runs) ->
  api_runs w (owner_of org k) (repo_name k) (wf_id wf) token = inl e ->
  (repo_local e ->
     collected w true org token (k :: rest)
     = match collected w true org token rest with
       | inl e2 => inl e2
       | inr p2 =>
           inr (map (pipeline_of w (owner_of org k) (repo_name k) token) pre
                  ++ p2)
       end)
  /\ (~ repo_local e -> collected w true org token (k :: rest) = inl e).
Proof.
  intros Hlist Hpre Hfail.
  assert (Hbody : repo_body w true org token k St0
                  = ((if status_in [403; 404; 409] e then inr tt else inl e),
                     mkSt (GetWorkflows (owner_of org k) (repo_name k) token
                             :: map (fun wf' => GetRuns (owner_of org k)
                                                  (repo_name k) (wf_id wf') token)
                                    pre
                             ++ [GetRuns (owner_of org k) (repo_name k)
                                         (wf_id wf) token])
                          (map (pipeline_of w (owner_of org k) (repo_name k) token)
                               pre))).
  { unfold repo_body, try_catch, bind at 1, axios_get_workflows, request.
    rewrite Hlist.
    assert (Hloop : workflow_loop w true (owner_of org k) (repo_name k) token
                      (pre ++ wf :: post)
                      (mkSt (calls St0 ++ [GetWorkflows (owner_of org k)
                                             (repo_name k) token])
                            (pipelines St0))
                    = (inl e,
                       mkSt (GetWorkflows (owner_of org k) (repo_name k) token
                               :: map (fun wf' => GetRuns (owner_of org k)
                                                    (repo_name k) (wf_id wf')
                                                    token) pre
                               ++ [GetRuns (owner_of org k) (repo_name k)
                                           (wf_id wf) token])
                            (map (pipeline_of w (owner_of org k) (repo_name k)
                                              token) pre))).
    { rewrite (RunFailure.workflow_loop_answers w _ _ _ pre (wf :: post) _ Hpre).
      rewrite (RunFailure.workflow_loop_fails w _ _ _ wf post e _ Hfail).
      reflexivity. }
    destruct (pre ++ wf :: post) as [|wf0 wfs] eqn:El;
      [destruct pre; discriminate|].
    rewrite Hloop. destruct (status_in [403; 404; 409] e); reflexivity. }
  rewrite LoopMore.collected_cons, LoopMore.collected_single, Hbody.
  split.
  - intros Hloc. apply repo_local_status_in in Hloc. rewrite Hloc.
    reflexivity.
  - intros Hloc.
    destruct (status_in [403; 404; 409] e) eqn:Hin; [|reflexivity].
    exfalso. apply Hloc, repo_local_status_in, Hin.
Qed.

(** In [flaky_world] the run look-up of [lint] answers 404: [api] keeps
    [build] alone and [web] is still processed. *)
Lemma run_failure_truncates_repository_witness :
  collected flaky_world true "acme" "ghp_env"
    [mkRepo (Some "acme") "api"; mkRepo None "web"]
  = inr [pipeline_of flaky_world "acme" "api" "ghp_env" wf_build;
         pipeline_of flaky_world "acme" "web" "ghp_env" wf_docs].
Proof.
  rewrite (proj1 (run_failure_truncates_repository flaky_world "acme" "ghp_env"
                    (mkRepo (Some "acme") "api") [mkRepo None "web"]
                    [wf_build] [] wf_lint (http_error 404 "Not Found")
                    eq_refl
                    (fun wf' Hin =>
                       match Hin with
                       | or_introl Heq =>
                           ex_intro _ (Some [run_build])
                             (eq_ind wf_build
                                (fun x => api_runs flaky_world "acme" "api"
                                            (wf_id x) "ghp_env"
                                          = inr (Some [run_build]))
                                eq_refl wf' Heq)
                       | or_intror Hfalse => match Hfalse with end
                       end)
                    eq_refl)
                 (or_intror (or_introl eq_refl))).
  reflexivity.
Defined.

(* ------------------------------------------------------------------ *)
(** ** The token of the calls                                          *)
(* ------------------------------------------------------------------ *)

Module TokenTrace.

Section Facts.

Variable w : World.
Variable includeRuns : bool.
Variables org token : string.

Lemma token_workflow_loop (owner repo : string) (wfs : list Workflow) :
  adds (mine token) (fun _ => True) (workflow_loop w includeRuns owner repo token wfs).
Proof.
  induction wfs as [|wf rest IH]; simpl; [apply Adds.adds_ret|].
  apply Adds.adds_bind.
  - destruct includeRuns; [|apply Adds.adds_ret].
    apply Adds.adds_fetchLatestRun. split; reflexivity.
  - intros lr. apply Adds.adds_bind; [|intros _; exact IH].
    apply Adds.adds_push. exact I.
Qed.

Lemma token_repo_loop (repos : list Repo) :
  adds (mine token) (fun _ => True) (repo_loop w includeRuns org token repos).
Proof.
  induction repos as [|r rest IH]; simpl; [apply Adds.adds_ret|].
  apply Adds.adds_bind; [|intros _; exact IH].
  unfold repo_body, axios_get_workflows. apply Adds.adds_try_catch.
  - apply Adds.adds_bind; [apply Adds.adds_request; split; reflexivity|].
    intros [[|wf wfs]|]; try apply Adds.adds_ret. apply token_workflow_loop.
  - intros e. destruct (status_in _ e);
      [apply Adds.adds_ret | apply Adds.adds_throw].
Qed.

(** The aggregation appends calls of its own kind, with its token. *)
Lemma aggregate_calls (s : St) :
  exists dc,
    calls (snd (aggregate w includeRuns org token s)) = calls s ++ dc
    /\ Forall (mine token) dc.
Proof.
  rewrite AggregateFacts.aggregate_run.
  rewrite (AggregateFacts.list_repos_run w org token St0).
  assert (Hloop : forall repos,
            Forall (mine token) (calls (snd (repo_loop w includeRuns org token repos St0)))).
  { intros repos. destruct (token_repo_loop repos St0) as (dc & dp & Hs & Hc & _).
    rewrite Hs. exact Hc. }
  assert (Horg : mine token (GetOrgRepos org token)) by (split; reflexivity).
  assert (Husr : mine token (GetUserRepos org token)) by (split; reflexivity).
  destruct (api_org_repos w org token) as [e | repos].
  - destruct (status_is 404 e).
    + destruct (api_user_repos w org token) as [e2 | repos]; simpl.
      * eexists. split; [reflexivity|]. repeat constructor; assumption.
      * eexists. split; [reflexivity|].
        repeat (constructor; [assumption|]). apply Hloop.
    + simpl. eexists. split; [reflexivity|]. repeat constructor; assumption.
  - simpl. eexists. split; [reflexivity|].
    constructor; [assumption | apply Hloop].
Qed.

End Facts.

Lemma github_pipelines_tokens (w : World) (req : Req) (s : St) :
  exists dc,
    calls (snd (github_pipelines w req s)) = calls s ++ dc
    /\ Forall (mine (req_token req)) dc.
Proof.
  unfold github_pipelines.
  destruct (negb (Js.truthy (query_org req))).
  - exists []. simpl. rewrite app_nil_r. split; [reflexivity | constructor].
  - destruct (aggregate_calls w (parse_includeRuns (query_includeRuns req))
                (Js.or_str (query_org req) "") (req_token req) s)
      as (dc & Hc & Hdc).
    exists dc. split; [|exact Hdc]. rewrite <- Hc.
    unfold try_catch, bind, ret.
    destruct (aggregate w _ _ _ s) as [[e | ps] s1]; reflexivity.
Qed.

Lemma pipeline_index_tokens (w : World) (req : Req) (s : St) :
  exists dc,
    calls (snd (pipeline_index w req s)) = calls s ++ dc
    /\ Forall (fun c => mine (Js.or_str (pipeline_token w req) "") c
                        /\ Js.truthy (pipeline_token w req) = true) dc.
Proof.
  unfold pipeline_index.
  destruct (negb (Js.truthy (query_org req))).
  - exists []. simpl. rewrite app_nil_r. split; [reflexivity | constructor].
  - destruct (Js.truthy (pipeline_token w req)) eqn:Htok; simpl.
    + destruct (aggregate_calls w (parse_includeRuns (query_includeRuns req))
                  (Js.or_str (query_org req) "")
                  (Js.or_str (pipeline_token w req) "") s)
        as (dc & Hc & Hdc).
      exists dc. split.
      * rewrite <- Hc. unfold try_catch, bind, ret.
        destruct (aggregate w _ _ _ s) as [[e | ps] s1]; [|reflexivity].
        destruct (status_is 404 e); reflexivity.
      * apply Forall_impl with (2 := Hdc). auto.
    + exists []. rewrite app_nil_r. split; [reflexivity | constructor].
Qed.

End TokenTrace.

(** X8: one credential per request.  On the guarded route
    [GET /github/pipelines] every remote call of a request, the self-test
    and all the listings, presents the token that the resolution selected;
    a request for which nothing is selected makes no remote call. *)
Theorem one_token_per_request (w : World) (req : Req) :
  match selected_credential w (maybeAuth req) with
  | Some (token, _) =>
      Forall (fun c => is_remote c = true -> call_token c = Some token)
             (snd (run (github_route w (github_pipelines w) req)))
  | None =>
      remote_calls (snd (run (github_route w (github_pipelines w) req))) = []
  end.
Proof.
  unfold run. rewrite TokenFacts.github_route_run.
  assert (Hstore : forall P : Call -> Prop,
            (forall id, P (DbFindById id)) ->
            Forall P (store_calls (maybeAuth req))).
  { intros P HP. unfold store_calls.
    destruct (userId (maybeAuth req)) as [uid|];
      [destruct (uid =? "")|]; repeat constructor; apply HP. }
  assert (Hnone : remote_calls (store_calls (maybeAuth req)) = []).
  { unfold remote_calls, store_calls.
    destruct (userId (maybeAuth req)) as [uid|];
      [destruct (uid =? "")|]; reflexivity. }
  unfold resolution, self_test_calls.
  destruct (selected_credential w (maybeAuth req)) as [[token source]|].
  - assert (Hmw : Forall (fun c => is_remote c = true -> call_token c = Some token)
                         (store_calls (maybeAuth req) ++ [GetUser token])).
    { apply Forall_app. split.
      - apply Hstore. intros id H. discriminate H.
      - repeat constructor. }
    destruct (api_user w token) as [e | []]; [exact Hmw|].
    destruct (TokenTrace.github_pipelines_tokens w
                (with_github (maybeAuth req) token source)
                (mkSt (store_calls (maybeAuth req) ++ [GetUser token]) []))
      as (dc & Hc & Hdc).
    destruct (github_pipelines w (with_github (maybeAuth req) token source) _)
      as [[e | resp] s1]; cbn [snd calls] in Hc |- *; rewrite Hc;
      (apply Forall_app; split; [exact Hmw|]);
      apply Forall_impl with (2 := Hdc); intros c [_ Hc'] _; exact Hc'.
  - simpl. rewrite app_nil_r. exact Hnone.
Qed.

(** X9: the route of [routes/pipeline.js] only calls the four listings of
    the aggregation, each with the token it selected (OAuth, then header,
    then environment): it never consults the credential store and never
    calls the identity endpoint. *)
Theorem pipeline_route_calls (w : World) (req : Req) :
  Forall (fun c => is_aggregation_call c = true
                   /\ call_token c = pipeline_token w req
                   /\ Js.truthy (pipeline_token w req) = true)
         (snd (run (pipeline_route w req))).
Proof.
  unfold run, pipeline_route, bind, ret.
  destruct (TokenTrace.pipeline_index_tokens w req St0) as (dc & Hc & Hdc).
  destruct (pipeline_index w req St0) as [[e | resp] s1];
    cbn [snd calls] in Hc |- *; rewrite Hc; simpl;
    apply Forall_impl with (2 := Hdc);
    intros c [[Hkind Htok] Htruthy]; (split; [exact Hkind|]);
    (split; [|exact Htruthy]); rewrite Htok;
    unfold Js.truthy in Htruthy; unfold Js.or_str;
    destruct (pipeline_token w req) as [t|]; try discriminate;
    destruct (t =? ""); try discriminate; reflexivity.
Qed.

(* ------------------------------------------------------------------ *)
(** ** The two pipelines handlers                                      *)
(* ------------------------------------------------------------------ *)

Lemma pipeline_index_result (w : World) (req : Req) (s : St) (org t : string) :
  query_org req = Some org -> org <> "" ->
  pipeline_token w req = Some t -> t <> "" ->
  fst (pipeline_index w req s)
  = inr (match fst (aggregate w (parse_includeRuns (query_includeRuns req))
                      org t s) with
         | inr ps => mkResponse 200 (BPipelines ps)
         | inl e => if status_is 404 e then not_found_response org
                    else error_response e
         end).
Proof.
  intros Horg Hne Htok Htne. unfold pipeline_index.
  rewrite Horg, Htok. unfold Js.truthy, Js.or_str.
  apply String.eqb_neq in Hne, Htne. rewrite Hne, Htne. cbn [negb].
  unfold try_catch, bind, ret.
  destruct (aggregate w _ org t s) as [[e | ps] s1]; [|reflexivity].
  cbn [fst]. destruct (status_is 404 e); reflexivity.
Qed.

Lemma github_pipelines_aggregate (w : World) (req : Req) (s : St) (org : string) :
  query_org req = Some org -> org <> "" ->
  fst (github_pipelines w req s)
  = inr (match fst (aggregate w (parse_includeRuns (query_includeRuns req))
                      org (req_token req) s) with
         | inr ps => mkResponse 200 (BPipelines ps)
         | inl e => error_response e
         end).
Proof.
  intros Horg Hne.
  rewrite (AggregateFacts.github_pipelines_result w req s org Horg Hne).
  rewrite AggregateFacts.aggregate_result.
  destruct (enumerated w org (req_token req)); reflexivity.
Qed.

Lemma status_or_500_404 (e : Exn) :
  status_or_500 e = 404 <-> status_is 404 e = true.
Proof.
  unfold status_or_500, status_is.
  destruct (response_status e) as [n|]; [|split; discriminate].
  destruct (Nat.eqb_spec n 0) as [-> | Hn0].
  - split; discriminate.
  - rewrite Nat.eqb_eq. reflexivity.
Qed.

(** X10: with the same organization and the same token the route of
    [routes/pipeline.js] answers what the handler of
    [GET /github/pipelines] answers, except that an answer with status 404
    carries its own message; and it answers 404 exactly when the
    organization listing and the account listing both answer 404. *)
Theorem pipeline_index_agrees
    (w : World) (req : Req) (s : St) (org t : string) (source : TokenSource) :
  query_org req = Some org -> org <> "" ->
  pipeline_token w req = Some t -> t <> "" ->
  (exists resp,
      fst (github_pipelines w (with_github req t source) s) = inr resp
      /\ fst (pipeline_index w req s)
         = inr (if Nat.eqb (status resp) 404 then not_found_response org
                else resp))
  /\ (fst (pipeline_index w req s) = inr (not_found_response org)
      <-> exists e1 e2,
            api_org_repos w org t = inl e1 /\ response_status e1 = Some 404
            /\ api_user_repos w org t = inl e2
            /\ response_status e2 = Some 404).
Proof.
  intros Horg Hne Htok Htne.
  pose proof (pipeline_index_result w req s org t Horg Hne Htok Htne) as Hidx.
  pose proof (github_pipelines_aggregate w (with_github req t source) s org
                Horg Hne) as Hgh.
  change (req_token (with_github req t source)) with t in Hgh.
  change (query_includeRuns (with_github req t source))
    with (query_includeRuns req) in Hgh.
  assert (H404 : forall e, status_is 404 e = true <-> response_status e = Some 404).
  { intros e. unfold status_is. destruct (response_status e) as [n|].
    - rewrite Nat.eqb_eq. split; [intros -> | intros [= ->]]; reflexivity.
    - split; discriminate. }
  split.
  - eexists. split; [exact Hgh|]. rewrite Hidx. f_equal.
    destruct (fst (aggregate w (parse_includeRuns (query_includeRuns req))
                     org t s)) as [e | ps]; [|reflexivity].
    change (status (error_response e)) with (status_or_500 e).
    destruct (status_is 404 e) eqn:He.
    + apply status_or_500_404 in He. rewrite He. reflexivity.
    + destruct (Nat.eqb_spec (status_or_500 e) 404) as [Heq | _];
        [|reflexivity].
      apply status_or_500_404 in Heq. congruence.
  - rewrite Hidx, AggregateFacts.aggregate_result. unfold enumerated.
    rewrite (AggregateFacts.list_repos_run w org t St0).
    split.
    + intros H. injection H as H.
      destruct (api_org_repos w org t) as [e1 | repos].
      * destruct (status_is 404 e1) eqn:H1.
        -- cbn [fst] in H.
           destruct (api_user_repos w org t) as [e2 | repos].
           ++ destruct (status_is 404 e2) eqn:H2.
              ** exists e1, e2. repeat split; now apply H404.
              ** unfold error_response, not_found_response in H.
                 injection H as Hst _. apply status_or_500_404 in Hst.
                 congruence.
           ++ destruct (collected w _ org t repos) as [e | ps] eqn:Hc;
                [|discriminate].
              pose proof (LoopMore.collected_throws w _ org t repos e Hc) as Hin.
              destruct (status_is 404 e) eqn:He.
              ** unfold status_is in He. unfold status_in in Hin.
                 destruct (response_status e) as [n|]; [|discriminate].
                 apply Nat.eqb_eq in He. subst n. discriminate.
              ** unfold error_response, not_found_response in H.
                 injection H as Hst _. apply status_or_500_404 in Hst.
                 congruence.
        -- cbn [fst] in H. rewrite H1 in H.
           unfold error_response, not_found_response in H.
           injection H as Hst _. apply status_or_500_404 in Hst. congruence.
      * cbn [fst] in H.
        destruct (collected w _ org t repos) as [e | ps] eqn:Hc;
          [|discriminate].
        pose proof (LoopMore.collected_throws w _ org t repos e Hc) as Hin.
        destruct (status_is 404 e) eqn:He.
        -- unfold status_is in He. unfold status_in in Hin.
           destruct (response_status e) as [n|]; [|discriminate].
           apply Nat.eqb_eq in He. subst n. discriminate.
        -- unfold error_response, not_found_response in H.
           injection H as Hst _. apply status_or_500_404 in Hst. congruence.
    + intros (e1 & e2 & H1 & Hs1 & H2 & Hs2).
      rewrite H1. apply H404 in Hs1, Hs2. rewrite Hs1. cbn [fst].
      rewrite H2, Hs2. reflexivity.
Qed.

(** [nobody] is neither an organization nor an account of [acme_world]. *)
Lemma pipeline_index_agrees_witness :
  fst (pipeline_index acme_world
         (with_query (with_header req0 "ghp_header") (Some "nobody") None) St0)
  = inr (not_found_response "nobody").
Proof.
  refine (proj2 (proj2 (pipeline_index_agrees acme_world
            (with_query (with_header req0 "ghp_header") (Some "nobody") None)
            St0 "nobody" "ghp_header" SrcHeader eq_refl _ eq_refl _)) _).
  - discriminate.
  - discriminate.
  - exists (http_error 404 "Not Found"), (http_error 404 "Not Found").
    repeat split.
Defined.

(* ------------------------------------------------------------------ *)
(** ** What the middleware lets through                                *)
(* ------------------------------------------------------------------ *)

(** X11: [ensureGitHubToken] never throws and never passes an error to
    [next]; it answers with status 401 or lets the request through, and a
    request is let through only with a non-empty token that passed the
    self-test and whose provenance tag names the source it was read from. *)
Theorem gate_soundness (w : World) (req : Req) (s : St) :
  (exists r, fst (ensureGitHubToken w req s) = inr r
             /\ (forall e, r <> MwError e)
             /\ (forall resp, r = MwRespond resp -> status resp = 401))
  /\ (forall token source,
        fst (ensureGitHubToken w req s) = inr (MwNext token source) ->
        token <> ""
        /\ api_user w token = inr tt
        /\ match source with
           | SrcDb => stored_credential w req = Some token
           | SrcHeader => stored_credential w req = None
                          /\ header_x_github_token req = Some token
           | SrcEnv => stored_credential w req = None
                       /\ Js.truthy (header_x_github_token req) = false
                       /\ env_GITHUB_PAT w = Some token
           | SrcNone => False
           end).
Proof.
  rewrite TokenFacts.ensureGitHubToken_run. cbn [fst].
  assert (Hsel : forall token source,
            selected_credential w req = Some (token, source) ->
            token <> ""
            /\ match source with
               | SrcDb => stored_credential w req = Some token
               | SrcHeader => stored_credential w req = None
                              /\ header_x_github_token req = Some token
               | SrcEnv => stored_credential w req = None
                           /\ Js.truthy (header_x_github_token req) = false
                           /\ env_GITHUB_PAT w = Some token
               | SrcNone => False
               end).
  { intros token source. unfold selected_credential.
    destruct (stored_credential w req) as [pat|] eqn:Hst.
    - intros H. injection H as <- <-. split; [|reflexivity].
      unfold stored_credential in Hst.
      repeat match type of Hst with
             | match ?x with _ => _ end = _ => destruct x eqn:?; try discriminate
             | (if ?x then _ else _) = _ => destruct x eqn:?; try discriminate
             end.
      injection Hst as <-. now apply String.eqb_neq.
    - assert (Henv : match env_GITHUB_PAT w with
                     | Some t => if t =? "" then None else Some (t, SrcEnv)
                     | None => None
                     end = Some (token, source) ->
                     token <> "" /\ source = SrcEnv
                     /\ env_GITHUB_PAT w = Some token).
      { destruct (env_GITHUB_PAT w) as [t|]; [|discriminate].
        destruct (String.eqb_spec t "") as [-> | Ht]; [discriminate|].
        intros H. injection H as <- <-. auto. }
      destruct (header_x_github_token req) as [h|].
      + destruct (String.eqb_spec h "") as [-> | Hh]; simpl.
        * intros H. destruct (Henv H) as (Ht & -> & He). auto.
        * intros H. injection H as <- <-. auto.
      + intros H. destruct (Henv H) as (Ht & -> & He). auto. }
  unfold resolution. split.
  - destruct (selected_credential w req) as [[token source]|];
      [destruct (api_user w token) as [e | []]|];
      eexists; (split; [reflexivity|]); split;
      try (intros e0; discriminate); intros resp H;
      try discriminate; injection H as <-; reflexivity.
  - intros token source.
    destruct (selected_credential w req) as [[t src]|]; [|discriminate].
    destruct (api_user w t) as [e | []] eqn:Hok; [discriminate|].
    intros H. injection H as <- <-.
    destruct (Hsel t src eq_refl) as [Hne Hsrc]. auto.
Qed.

Lemma gate_soundness_witness :
  api_user acme_world "ghp_stored" = inr tt
  /\ stored_credential acme_world (with_userId req0 (Some "u1"))
     = Some "ghp_stored".
Proof.
  destruct (proj2 (gate_soundness acme_world (with_userId req0 (Some "u1")) St0)
              "ghp_stored" SrcDb eq_refl) as (_ & Hok & Hst).
  split; [exact Hok | exact Hst].
Defined.

(* ------------------------------------------------------------------ *)
(** ** routes/me.js                                                    *)
(* ------------------------------------------------------------------ *)

Module MeFacts.

Section Facts.

Variable aes_gcm_seal : string -> string -> string * string.

(** The stored PAT after [POST /me/config]. *)
Lemma patEnc_after (iv1 iv2 : string) (b : ConfigBody) (g0 : option GithubConfig) :
  patEnc (config_github aes_gcm_seal iv1 iv2 b g0)
  = match cb_pat b with
    | Some pat =>
        if JsText.trim pat =? "" then
          match g0 with Some g => patEnc g | None => None end
        else Some (encrypt aes_gcm_seal iv1 (Some (JsText.trim pat)))
    | None => match g0 with Some g => patEnc g | None => None end
    end.
Proof.
  unfold config_github.
  destruct (cb_pat b) as [pat|]; [destruct (JsText.trim pat =? "")|];
    destruct (cb_clientId b); destruct (cb_clientSecret b) as [v|];
    try destruct (JsText.trim v =? "");
    destruct (cb_callbackUrl b); destruct (cb_homepageUrl b);
    destruct g0; reflexivity.
Qed.

(** The stored client secret after [POST /me/config]. *)
Lemma clientSecretEnc_after (iv1 iv2 : string) (b : ConfigBody)
    (g0 : option GithubConfig) :
  clientSecretEnc (config_github aes_gcm_seal iv1 iv2 b g0)
  = match cb_clientSecret b with
    | Some v =>
        if JsText.trim v =? "" then
          match g0 with Some g => clientSecretEnc g | None => None end
        else Some (encrypt aes_gcm_seal iv2 (Some (JsText.trim v)))
    | None => match g0 with Some g => clientSecretEnc g | None => None end
    end.
Proof.
  unfold config_github.
  destruct (cb_pat b) as [pat|]; [destruct (JsText.trim pat =? "")|];
    destruct (cb_clientId b); destruct (cb_clientSecret b) as [v|];
    try destruct (JsText.trim v =? "");
    destruct (cb_callbackUrl b); destruct (cb_homepageUrl b);
    destruct g0; reflexivity.
Qed.

(** The stored client identifier after [POST /me/config]. *)
Lemma clientId_after (iv1 iv2 : string) (b : ConfigBody) (g0 : option GithubConfig) :
  clientId (config_github aes_gcm_seal iv1 iv2 b g0)
  = match cb_clientId b with
    | Some v => JsText.or_null (Some (JsText.trim v))
    | None => match g0 with Some g => clientId g | None => None end
    end.
Proof.
  unfold config_github.
  destruct (cb_pat b) as [pat|]; [destruct (JsText.trim pat =? "")|];
    destruct (cb_clientId b); destruct (cb_clientSecret b) as [v|];
    try destruct (JsText.trim v =? "");
    destruct (cb_callbackUrl b); destruct (cb_homepageUrl b);
    destruct g0; reflexivity.
Qed.

End Facts.

(** Every code unit of a masked form before its last four is a star. *)
Lemma mask_starred (s m : string) : Crypto.mask (Some s) = Some m -> starred m.
Proof.
  intros Hm i Hi.
  destruct (Nat.leb_spec (String.length s) 4) as [Hshort | Hlong].
  - unfold Crypto.mask in Hm. destruct (s =? ""); [discriminate|].
    apply Nat.leb_le in Hshort. rewrite Hshort in Hm.
    injection Hm as <-. simpl in Hi. lia.
  - destruct (MaskMore.mask_long_form s Hlong) as [Hform Hlast].
    rewrite Hform in Hm. injection Hm as <-.
    rewrite MaskFacts.length_app, MaskFacts.length_repeat, Hlast in Hi.
    rewrite MaskFacts.get_masked by exact Hlong.
    destruct (Nat.ltb_spec i (String.length s - 4)); [reflexivity | lia].
Qed.

End MeFacts.

(** The payload written by [encrypt] is not empty and reads back. *)
Lemma encrypt_round_trip_aux
    (seal : string -> string -> string * string)
    (open : string -> string -> string -> option string)
    (iv plain tag enc : string) :
  seal iv plain = (tag, enc) ->
  open iv tag enc = Some plain ->
  no_colon iv = true -> no_colon tag = true -> no_colon enc = true ->
  iv <> "" -> tag <> "" -> enc <> "" ->
  Crypto.decrypt open (encrypt seal iv (Some plain)) = Some plain
  /\ encrypt seal iv (Some plain) <> "".
Proof.
  intros Hseal Hopen Hiv Htag Henc Hiv0 Htag0 Henc0.
  unfold encrypt, Crypto.decrypt. rewrite Hseal. split.
  - rewrite (PayloadFacts.split_three_fields iv tag enc Hiv Htag Henc).
    apply String.eqb_neq in Hiv0, Htag0, Henc0.
    rewrite Hiv0, Htag0, Henc0. exact Hopen.
  - destruct iv; [congruence | discriminate].
Qed.

(** X12: [POST /me/config] cannot remove a stored secret: whatever the
    body, a stored PAT stays stored (replaced or untouched) and so does a
    stored client secret; a blank or missing value leaves the stored
    payload as it is, whereas a blank client identifier clears the stored
    identifier. *)
Theorem config_never_clears_secrets
    (seal : string -> string -> string * string) (iv1 iv2 : string)
    (b : ConfigBody) (g : GithubConfig) :
  (forall x, patEnc g = Some x ->
     exists y, patEnc (config_github seal iv1 iv2 b (Some g)) = Some y)
  /\ (forall x, clientSecretEnc g = Some x ->
        exists y,
          clientSecretEnc (config_github seal iv1 iv2 b (Some g)) = Some y)
  /\ (forall pat, cb_pat b = Some pat -> JsText.trim pat = "" ->
        patEnc (config_github seal iv1 iv2 b (Some g)) = patEnc g)
  /\ (cb_pat b = None ->
        patEnc (config_github seal iv1 iv2 b (Some g)) = patEnc g)
  /\ (forall v, cb_clientId b = Some v -> JsText.trim v = "" ->
        clientId (config_github seal iv1 iv2 b (Some g)) = None).
Proof.
  rewrite MeFacts.patEnc_after, MeFacts.clientSecretEnc_after,
    MeFacts.clientId_after.
  repeat split.
  - intros x Hx. destruct (cb_pat b) as [pat|];
      [destruct (JsText.trim pat =? "")|]; eauto.
  - intros x Hx. destruct (cb_clientSecret b) as [v|];
      [destruct (JsText.trim v =? "")|]; eauto.
  - intros pat -> ->. reflexivity.
  - intros ->. reflexivity.
  - intros v -> ->. reflexivity.
Qed.

(** A body whose [pat] is blank, sent for a user with a stored PAT. *)
Lemma config_never_clears_secrets_witness :
  patEnc (config_github toy_seal "aXY=" "aXY=" 
            (mkConfigBody (Some "   ") (Some " ") None None None)
            (Some (mkGithubConfig (Some "aXY=:dGFn:old") (Some "app") None None None)))
  = Some "aXY=:dGFn:old".
Proof.
  exact (proj1 (proj2 (proj2
    (config_never_clears_secrets toy_seal "aXY=" "aXY="
       (mkConfigBody (Some "   ") (Some " ") None None None)
       (mkGithubConfig (Some "aXY=:dGFn:old") (Some "app") None None None))))
    "   " eq_refl eq_refl).
Defined.

(** X13: a PAT saved through [POST /me/config] shows in [GET /me]: the
    profile of the saved document is marked as configured and carries the
    masked form of the trimmed PAT, as long as the cipher opens what it
    sealed and the three base64 fields are non-empty and free of [:]. *)
Theorem saved_pat_shows_masked
    (seal : string -> string -> string * string)
    (open : string -> string -> string -> option string)
    (iv1 iv2 : string) (b : ConfigBody) (user : Account)
    (pat tag enc : string) :
  cb_pat b = Some pat -> JsText.trim pat <> "" ->
  seal iv1 (JsText.trim pat) = (tag, enc) ->
  open iv1 tag enc = Some (JsText.trim pat) ->
  no_colon iv1 = true -> no_colon tag = true -> no_colon enc = true ->
  iv1 <> "" -> tag <> "" -> enc <> "" ->
  exists saved p,
    me_config seal iv1 iv2 (Some b) (Some user) = (MeOk, Some saved)
    /\ me_get open (Some saved) = MeProfile p
    /\ pr_githubConfigured p = true
    /\ pr_patMasked p = Crypto.mask (Some (JsText.trim pat))
    /\ pr_patMasked p <> None
    /\ pr_id p = acc_id user /\ pr_username p = acc_username user.
Proof.
  intros Hpat Htrim Hseal Hopen Hiv Htag Henc Hiv0 Htag0 Henc0.
  pose proof (encrypt_round_trip_aux seal open iv1 (JsText.trim pat) tag enc
                Hseal Hopen Hiv Htag Henc Hiv0 Htag0 Henc0) as [Hrt Hne].
  eexists. eexists. split; [reflexivity|].
  unfold me_get, github_field. cbn [acc_github acc_id acc_username].
  rewrite MeFacts.patEnc_after, Hpat.
  apply String.eqb_neq in Htrim. rewrite Htrim.
  unfold Js.or_str at 1. apply String.eqb_neq in Hne. rewrite Hne, Hrt.
  split; [reflexivity|]. cbn [pr_githubConfigured pr_patMasked pr_id pr_username].
  unfold Js.truthy, Js.or_str. rewrite Htrim. cbn [negb orb].
  rewrite Hne, Hrt, Htrim.
  repeat split. unfold Crypto.mask. rewrite Htrim. discriminate.
Qed.

Lemma saved_pat_shows_masked_witness :
  exists saved p,
    me_config toy_seal "aXY=" "aXY="
      (Some (mkConfigBody (Some " ghp_abcdef ") None None None None))
      (Some (mkAccount "u1" "Ada" "Lovelace" "ada" None))
    = (MeOk, Some saved)
    /\ me_get toy_open (Some saved) = MeProfile p
    /\ pr_githubConfigured p = true
    /\ pr_patMasked p = Some "******cdef".
Proof.
  destruct (saved_pat_shows_masked toy_seal toy_open "aXY=" "aXY="
              (mkConfigBody (Some " ghp_abcdef ") None None None None)
              (mkAccount "u1" "Ada" "Lovelace" "ada" None)
              " ghp_abcdef " "dGFn" "ghp_abcdef" eq_refl)
    as (saved & p & Hsave & Hget & Hconf & Hmask & _);
    try solve [reflexivity | discriminate].
  exists saved, p. repeat split; assumption.
Defined.

(** X14: the profile of [GET /me] shows secrets in masked form only: in
    [patMasked] and [clientSecretMasked] every code unit before the last
    four is a star.  A profile with a masked PAT is marked as configured,
    and a profile marked as configured has a masked PAT or else a client
    identifier, a masked client secret and a callback URL. *)
Theorem profile_shows_masks_only
    (open : string -> string -> string -> option string)
    (user : Account) (p : Profile) :
  me_get open (Some user) = MeProfile p ->
  (forall m, pr_patMasked p = Some m -> starred m /\ 4 <= String.length m)
  /\ (forall m, pr_clientSecretMasked p = Some m -> starred m)
  /\ (pr_patMasked p <> None -> pr_githubConfigured p = true)
  /\ (pr_githubConfigured p = true ->
      pr_patMasked p <> None
      \/ (pr_clientId p <> None /\ pr_clientSecretMasked p <> None
          /\ pr_callbackUrl p <> None)).
Proof.
  unfold me_get. intros H. injection H as <-.
  cbn [pr_patMasked pr_clientSecretMasked pr_githubConfigured pr_clientId
         pr_callbackUrl].
  set (patPlain := Crypto.decrypt open (Js.or_str (github_field patEnc user) "")).
  set (secretPlain :=
         Crypto.decrypt open (Js.or_str (github_field clientSecretEnc user) "")).
  assert (Hmask : forall v : option string,
            Crypto.mask (Some (Js.or_str v "")) <> None <-> Js.truthy v = true).
  { intros [v|]; unfold Crypto.mask, Js.or_str, Js.truthy; simpl.
    - destruct (v =? "") eqn:Hv; simpl; [|rewrite Hv]; split;
        congruence || discriminate.
    - split; congruence || discriminate. }
  assert (Hlen : forall s m, Crypto.mask (Some s) = Some m -> 4 <= String.length m).
  { intros s m Hm. unfold Crypto.mask in Hm. destruct (s =? ""); [discriminate|].
    destruct (Nat.leb_spec (String.length s) 4); injection Hm as <-.
    - simpl. lia.
    - rewrite MaskFacts.length_app, MaskFacts.length_repeat.
      unfold Js.slice_last. rewrite MaskFacts.length_substring; lia. }
  split; [|split; [|split]].
  - intros m Hm. split; [exact (MeFacts.mask_starred _ m Hm) | exact (Hlen _ m Hm)].
  - intros m Hm. exact (MeFacts.mask_starred _ m Hm).
  - intros Hpat. apply Hmask in Hpat. rewrite Hpat. reflexivity.
  - intros Hconf. apply Bool.orb_true_iff in Hconf as [Hpat | Hoauth].
    + left. now apply Hmask.
    + right. apply Bool.andb_true_iff in Hoauth as [Hoauth Hcb].
      apply Bool.andb_true_iff in Hoauth as [Hid Hsecret].
      unfold JsText.or_null. rewrite Hid, Hcb.
      repeat split.
      * unfold Js.truthy in Hid. destruct (github_field clientId user);
          discriminate.
      * now apply Hmask.
      * unfold Js.truthy in Hcb. destruct (github_field callbackUrl user);
          discriminate.
Qed.

Lemma profile_shows_masks_only_witness :
  starred "******cdef".
Proof.
  exact (proj1 (proj1 (profile_shows_masks_only toy_open
           (mkAccount "u1" "Ada" "Lovelace" "ada"
              (Some (mkGithubConfig (Some "aXY=:dGFn:ghp_abcdef")
                                    None None None None)))
           _ eq_refl) "******cdef" eq_refl)).
Defined.

(* ------------------------------------------------------------------ *)
(** ** middleware/requireAuth.js                                       *)
(* ------------------------------------------------------------------ *)

Module BearerFacts.

Lemma prefix_slice (p s : string) :
  String.prefix p s = true ->
  s = (p ++ JsText.slice_from (String.length p) s)%string.
Proof.
  revert s; induction p as [|a p IH]; intros s H; simpl.
  - reflexivity.
  - destruct s as [|b s]; simpl in H; [discriminate|].
    destruct (ascii_dec a b) as [-> | _]; [|discriminate].
    f_equal. now apply IH.
Qed.

Lemma prefix_app (p t : string) : String.prefix p (p ++ t)%string = true.
Proof.
  induction p as [|a p IH]; simpl; [destruct t; reflexivity|].
  destruct (ascii_dec a a); [exact IH | congruence].
Qed.

Lemma slice_app (p t : string) :
  JsText.slice_from (String.length p) (p ++ t)%string = t.
Proof. induction p as [|a p IH]; simpl; [reflexivity | exact IH]. Qed.

End BearerFacts.

(** X15: [requireAuth] lets a request through exactly when its
    [Authorization] header is [Bearer ] followed by a non-empty token that
    the verifier accepts, and the principal it sets is the one of the
    token; any other request is answered with status 401. *)
Theorem bearer_gate
    (verify : string -> option (option string)) (authorization : option string) :
  (forall uid,
      requireAuth verify authorization = AuthNext uid
      <-> exists t, authorization = Some ("Bearer " ++ t)%string
                    /\ t <> "" /\ verify t = Some uid)
  /\ (forall resp, requireAuth verify authorization = AuthRespond resp ->
                   status resp = 401).
Proof.
  unfold requireAuth, JsText.startsWith. split.
  - intros uid. split.
    + remember (Js.or_str authorization "") as h eqn:Hh.
      destruct (String.prefix "Bearer " h) eqn:Hp; [|discriminate].
      apply BearerFacts.prefix_slice in Hp. cbn [String.length] in Hp.
      remember (JsText.slice_from 7 h) as tok eqn:Htok.
      unfold Js.truthy, Js.or_str.
      destruct (String.eqb_spec tok "") as [He | Hne]; [discriminate|].
      cbn [negb].
      destruct (verify tok) as [id|] eqn:Hv; [|discriminate].
      intros H. injection H as <-.
      exists tok. repeat split; try assumption.
      unfold Js.or_str in Hh. destruct authorization as [a|].
      * destruct (a =? ""); [subst h; discriminate Hp|]. congruence.
      * subst h. discriminate Hp.
    + intros (t & -> & Hne & Hv).
      assert (Hh : Js.or_str (Some ("Bearer " ++ t)%string) ""
                   = ("Bearer " ++ t)%string) by reflexivity.
      rewrite Hh, BearerFacts.prefix_app.
      change 7 with (String.length "Bearer ").
      rewrite BearerFacts.slice_app.
      unfold Js.truthy, Js.or_str. apply String.eqb_neq in Hne.
      rewrite Hne. cbn [negb]. rewrite Hv. reflexivity.
  - intros resp.
    destruct (String.prefix "Bearer " (Js.or_str authorization "")).
    + destruct (negb (Js.truthy _)); [intros H; injection H as <-; reflexivity|].
      destruct (verify _); [discriminate|].
      intros H; injection H as <-; reflexivity.
    + simpl. intros H; injection H as <-; reflexivity.
Qed.

(* ------------------------------------------------------------------ *)
(** ** Jobs of a run: listing and log                                  *)
(* ------------------------------------------------------------------ *)

Module JobFacts.

Lemma to_uint_nonnil (n : N) : N.to_uint n <> Decimal.Nil.
Proof.
  destruct n as [|p]; [discriminate|].
  exact (DecimalPos.Unsigned.to_uint_nonnil p).
Qed.

(** [String(n)] separates the identifiers. *)
Lemma of_N_inj (n m : N) : Js.of_N n = Js.of_N m -> n = m.
Proof.
  unfold Js.of_N. intros H.
  apply DecimalN.Unsigned.to_uint_inj.
  pose proof (NilZero.usu (N.to_uint n) (to_uint_nonnil n)) as Hn.
  pose proof (NilZero.usu (N.to_uint m) (to_uint_nonnil m)) as Hm.
  rewrite H in Hn. congruence.
Qed.

Lemma of_N_nonempty (n : N) : Js.of_N n <> "".
Proof.
  unfold Js.of_N. pose proof (to_uint_nonnil n) as Hn.
  destruct (N.to_uint n); [congruence | discriminate ..].
Qed.

(** [find] gives nothing when no element passes the test. *)
Lemma find_nothing {A} (f : A -> bool) (l : list A) :
  (forall x, In x l -> f x = false) -> find f l = None.
Proof.
  induction l as [|x l IH]; intros H; simpl; [reflexivity|].
  rewrite (H x (or_introl eq_refl)). apply IH. intros y Hy. apply H. now right.
Qed.

(** [find] gives something when an element passes the test. *)
Lemma find_something {A} (f : A -> bool) (l : list A) (x : A) :
  In x l -> f x = true -> exists y, find f l = Some y.
Proof.
  induction l as [|z l IH]; intros Hin Hx; simpl; [destruct Hin|].
  destruct (f z) eqn:Hz; [eauto|].
  destruct Hin as [-> | Hin]; [congruence | now apply IH].
Qed.

(** The answer of the job-log handler for a request with its four
    parameters. *)
Lemma job_log_run (w : World) (req : Req) (s : St)
    (owner repo runId jobId : string) (jobs : option (list Job)) :
  query_owner req = Some owner -> owner <> "" ->
  query_repo req = Some repo -> repo <> "" ->
  query_runId req = Some runId -> runId <> "" ->
  query_jobId req = Some jobId -> jobId <> "" ->
  api_jobs w owner repo runId (req_token req) = inr jobs ->
  fst (github_job_log w req s)
  = inr (match find_job jobs jobId with
         | None => mkResponse 200 (BText "(No job found to assemble log)")
         | Some job => mkResponse 200 (BText (Js.join LF (job_log_lines job)))
         end).
Proof.
  intros Ho Hone Hr Hrne Hrun Hrunne Hj Hjne Hjobs.
  unfold github_job_log. rewrite Ho, Hr, Hrun, Hj. unfold Js.truthy, Js.or_str.
  apply String.eqb_neq in Hone, Hrne, Hrunne, Hjne.
  rewrite Hone, Hrne, Hrunne, Hjne. cbn [negb orb].
  unfold try_catch, bind, axios_get_jobs, request. rewrite Hjobs.
  destruct (find_job jobs jobId); reflexivity.
Qed.

End JobFacts.

(** X16: a job identifier that matches no job of the run is not an error:
    the job-log handler answers 200 with the placeholder text. *)
Theorem unknown_job_gets_placeholder
    (w : World) (req : Req) (s : St)
    (owner repo runId jobId : string) (jobs : option (list Job)) :
  query_owner req = Some owner -> owner <> "" ->
  query_repo req = Some repo -> repo <> "" ->
  query_runId req = Some runId -> runId <> "" ->
  query_jobId req = Some jobId -> jobId <> "" ->
  api_jobs w owner repo runId (req_token req) = inr jobs ->
  (forall js j, jobs = Some js -> In j js -> Js.of_N (job_id j) <> jobId) ->
  fst (github_job_log w req s)
  = inr (mkResponse 200 (BText "(No job found to assemble log)")).
Proof.
  intros Ho Hone Hr Hrne Hrun Hrunne Hj Hjne Hjobs Hnone.
  rewrite (JobFacts.job_log_run w req s owner repo runId jobId jobs
             Ho Hone Hr Hrne Hrun Hrunne Hj Hjne Hjobs).
  unfold find_job. rewrite JobFacts.find_nothing; [reflexivity|].
  intros j Hin. apply String.eqb_neq.
  destruct jobs as [js|]; [|destruct Hin]. now apply (Hnone js j).
Qed.

Lemma unknown_job_gets_placeholder_witness :
  fst (github_job_log acme_world
         (mkReq None None None None None None
                (Some "acme") (Some "api") (Some "9001") (Some "078")
                (Some "ghp_env") (Some SrcEnv)) St0)
  = inr (mkResponse 200 (BText "(No job found to assemble log)")).
Proof.
  apply (unknown_job_gets_placeholder acme_world _ St0
           "acme" "api" "9001" "078" (Some [job_unordered]));
    try solve [reflexivity | discriminate].
  intros js j H Hin. injection H as <-.
  destruct Hin as [<- | []]. discriminate.
Defined.

(** X17: the two handlers over the jobs of a run agree.  [GET
    /github/run-jobs] lists the jobs in the order of the source, with
    [total_count] zero only for an empty list; and for every job it lists,
    [GET /github/job-log] with that job's identifier answers with the log
    of a job of that identifier, never with the placeholder. *)
Theorem listed_job_has_log
    (w : World) (run_id id : option string) (total : option nat)
    (html_url : Job -> option string)
    (req : Req) (s : St) (owner repo runId : string) (jobs : option (list Job)) :
  query_owner req = Some owner -> owner <> "" ->
  query_repo req = Some repo -> repo <> "" ->
  query_runId req = Some runId -> runId <> "" ->
  api_jobs w owner repo runId (req_token req) = inr jobs ->
  exists n,
    fst (github_run_jobs w run_id id total html_url req s)
    = inr (RjJobs n (view_jobs html_url jobs))
    /\ (n = 0 -> view_jobs html_url jobs = [])
    /\ map jv_id (view_jobs html_url jobs)
       = map job_id (match jobs with Some js => js | None => [] end)
    /\ (forall jv, In jv (view_jobs html_url jobs) ->
          exists job,
            job_id job = jv_id jv
            /\ fst (github_job_log w (with_jobId req (Js.of_N (jv_id jv))) s)
               = inr (mkResponse 200
                        (BText (Js.join LF (job_log_lines job))))).
Proof.
  intros Ho Hone Hr Hrne Hrun Hrunne Hjobs.
  eexists. split; [|split; [|split]].
  - assert (Hparam : run_id_param run_id id req = Some runId).
    { unfold run_id_param, Js.or_else, Js.truthy. rewrite Hrun.
      destruct (String.eqb_spec runId "") as [-> | _]; [congruence|].
      cbn [negb]. destruct (String.eqb_spec runId "") as [-> | _];
        [congruence | reflexivity]. }
    unfold github_run_jobs. rewrite Hparam, Ho, Hr.
    unfold Js.truthy, Js.or_str.
    destruct (String.eqb_spec owner "") as [-> | _]; [congruence|].
    destruct (String.eqb_spec repo "") as [-> | _]; [congruence|].
    destruct (String.eqb_spec runId "") as [-> | _]; [congruence|].
    cbn [negb orb].
    unfold try_catch, bind, axios_get_jobs, request. rewrite Hjobs.
    reflexivity.
  - destruct total as [[|n]|]; cbn [Nat.eqb]; try discriminate;
      intros H; now apply length_zero_iff_nil.
  - unfold view_jobs. rewrite map_map. reflexivity.
  - intros jv Hin. unfold view_jobs in Hin. apply in_map_iff in Hin.
    destruct Hin as (j & <- & Hin). cbn [jv_id].
    assert (Hlog := JobFacts.job_log_run w
                      (with_jobId req (Js.of_N (job_id j))) s
                      owner repo runId (Js.of_N (job_id j)) jobs
                      Ho Hone Hr Hrne Hrun Hrunne eq_refl
                      (JobFacts.of_N_nonempty _) Hjobs).
    destruct (JobFacts.find_something
                (fun j' => Js.of_N (job_id j') =? Js.of_N (job_id j))
                _ j Hin (String.eqb_refl _)) as [job Hfind].
    exists job. split.
    + apply find_some in Hfind as [_ Heq].
      apply String.eqb_eq in Heq. now apply JobFacts.of_N_inj.
    + rewrite Hlog. unfold find_job. rewrite Hfind. reflexivity.
Qed.

Lemma listed_job_has_log_witness :
  exists n,
    fst (github_run_jobs acme_world None None (Some 1) (fun _ => None)
           (mkReq None None None None None None
                  (Some "acme") (Some "api") (Some "9001") None
                  (Some "ghp_env") (Some SrcEnv)) St0)
    = inr (RjJobs n (view_jobs (fun _ => None) (Some [job_unordered]))).
Proof.
  destruct (listed_job_has_log acme_world None None (Some 1) (fun _ => None)
              (mkReq None None None None None None
                     (Some "acme") (Some "api") (Some "9001") None
                     (Some "ghp_env") (Some SrcEnv)) St0
              "acme" "api" "9001" (Some [job_unordered]) eq_refl)
    as (n & Hrun & _); try solve [reflexivity | discriminate].
  exists n. exact Hrun.
Defined.

(* ------------------------------------------------------------------ *)
(** ** routes/ai.js: the prompt                                        *)
(* ------------------------------------------------------------------ *)

Module PromptFacts.




End PromptFacts.


(* ------------------------------------------------------------------ *)
(** ** Requests without a principal                                    *)
(* ------------------------------------------------------------------ *)

(** The trace of a guarded pipelines request: the store look-up, the
    self-test, then calls of the aggregation. *)
Lemma guarded_pipelines_trace (w : World) (req : Req) :
  exists dc,
    snd (run (github_route w (github_pipelines w) req))
    = store_calls (maybeAuth req) ++ self_test_calls w (maybeAuth req) ++ dc
    /\ Forall (fun c => is_aggregation_call c = true) dc.
Proof.
  unfold run. rewrite TokenFacts.github_route_run.
  unfold resolution, self_test_calls.
  destruct (selected_credential w (maybeAuth req)) as [[token source]|].
  - destruct (api_user w token) as [e | []].
    + exists []. rewrite !app_nil_r. split; [reflexivity | constructor].
    + destruct (TokenTrace.github_pipelines_tokens w
                  (with_github (maybeAuth req) token source)
                  (mkSt (store_calls (maybeAuth req) ++ [GetUser token]) []))
        as (dc & Hc & Hdc).
      exists dc. split.
      * destruct (github_pipelines w _ _) as [[e | resp] s1];
          cbn [snd calls] in Hc |- *; rewrite Hc, <- app_assoc; reflexivity.
      * apply Forall_impl with (2 := Hdc). intros c [Hk _]. exact Hk.
  - exists []. rewrite !app_nil_r. split; [reflexivity | constructor].
Qed.

(** X19: a request that carries no session principal never reaches the
    credential store: on [GET /github/pipelines] all its calls are remote
    calls, and the token comes from the header or from the environment. *)
Theorem anonymous_request_skips_store (w : World) (req : Req) :
  user req = None -> session_passport_user req = None -> userId req = None ->
  remote_calls (snd (run (github_route w (github_pipelines w) req)))
  = snd (run (github_route w (github_pipelines w) req))
  /\ stored_credential w (maybeAuth req) = None
  /\ (forall token source,
        selected_credential w (maybeAuth req) = Some (token, source) ->
        source = SrcHeader \/ source = SrcEnv).
Proof.
  intros Huser Hsession Hid.
  assert (Hreq : maybeAuth req = req).
  { unfold maybeAuth. rewrite Huser, Hsession. reflexivity. }
  assert (Hst : stored_credential w (maybeAuth req) = None).
  { rewrite Hreq. unfold stored_credential. now rewrite Hid. }
  split; [|split; [exact Hst|]].
  - destruct (guarded_pipelines_trace w req) as (dc & Htr & Hdc).
    rewrite Htr. unfold store_calls. rewrite Hreq, Hid. cbn [app].
    unfold remote_calls. rewrite filter_app. f_equal.
    + unfold self_test_calls.
      destruct (selected_credential w req) as [[t src]|]; reflexivity.
    + clear Htr. induction Hdc as [|c dc Hc _ IH]; [reflexivity|].
      simpl. destruct c; try discriminate Hc; simpl; now rewrite IH.
  - intros token source. unfold selected_credential. rewrite Hst.
    assert (Henv : match env_GITHUB_PAT w with
                   | Some t => if t =? "" then None else Some (t, SrcEnv)
                   | None => None
                   end = Some (token, source) -> source = SrcEnv).
    { destruct (env_GITHUB_PAT w) as [t|]; [|discriminate].
      destruct (t =? ""); [discriminate|].
      intros H. inversion H. reflexivity. }
    rewrite Hreq.
    destruct (header_x_github_token req) as [h|].
    + destruct (negb (h =? "")).
      * intros H. inversion H. now left.
      * intros H. right. exact (Henv H).
    + intros H. right. exact (Henv H).
Qed.

Lemma anonymous_request_skips_store_witness :
  remote_calls
    (snd (run (github_route acme_world (github_pipelines acme_world)
                 (with_query req0 (Some "acme") (Some "false")))))
  = snd (run (github_route acme_world (github_pipelines acme_world)
                (with_query req0 (Some "acme") (Some "false")))).
Proof.
  exact (proj1 (anonymous_request_skips_store acme_world
                  (with_query req0 (Some "acme") (Some "false"))
                  eq_refl eq_refl eq_refl)).
Defined.

(* ------------------------------------------------------------------ *)
(** ** The content of the answer                                       *)
(* ------------------------------------------------------------------ *)

Module Settled.

Section Facts.

Variable w : World.
Variables org token : string.

(** With the run look-up suppressed the workflow loop pushes one bare
    pipeline per workflow and makes no call. *)
Lemma workflow_loop_bare (owner repo : string) (wfs : list Workflow) (s : St) :
  workflow_loop w false owner repo token wfs s
  = (inr tt,
     mkSt (calls s) (pipelines s ++ map (bare_pipeline owner repo) wfs)).
Proof.
  revert s; induction wfs as [|wf rest IH]; intros s.
  - simpl. rewrite app_nil_r. now destruct s.
  - cbn [workflow_loop]. unfold bind, ret, push. rewrite IH.
    cbn [calls pipelines map]. rewrite <- app_assoc. reflexivity.
Qed.

(** A repository that settles ends its turn of the loop without error,
    having pushed its contribution. *)
Lemma repo_body_settles (includeRuns : bool) (r : Repo) (s : St) :
  settles w includeRuns org token r ->
  exists s',
    repo_body w includeRuns org token r s = (inr tt, s')
    /\ pipelines s' = pipelines s ++ contribution w includeRuns org token r.
Proof.
  unfold settles, contribution, listed_workflows.
  destruct (api_workflows w (owner_of org r) (repo_name r) token)
    as [e | [wfs|]] eqn:Hlist.
  - intros Hloc. apply repo_local_status_in in Hloc.
    rewrite (AggregateFacts.repo_body_listing_fails w includeRuns org token
               r e s Hlist), Hloc.
    eexists. split; [reflexivity|]. simpl. now rewrite app_nil_r.
  - intros Hruns.
    unfold repo_body, try_catch, bind at 1, axios_get_workflows, request.
    rewrite Hlist.
    destruct wfs as [|wf wfs].
    + eexists. split; [reflexivity|]. simpl. now rewrite app_nil_r.
    + destruct includeRuns.
      * pose proof (RunFailure.workflow_loop_answers w (owner_of org r)
                      (repo_name r) token (wf :: wfs) []
                      (mkSt (calls s ++ [GetWorkflows (owner_of org r)
                                           (repo_name r) token])
                            (pipelines s)) (Hruns eq_refl)) as Hloop.
        rewrite app_nil_r in Hloop. rewrite Hloop.
        eexists. split; [reflexivity|]. reflexivity.
      * rewrite workflow_loop_bare.
        eexists. split; [reflexivity|]. reflexivity.
  - intros _.
    unfold repo_body, try_catch, bind, axios_get_workflows, request.
    rewrite Hlist. eexists. split; [reflexivity|]. simpl. now rewrite app_nil_r.
Qed.

(** The loop over repositories that all settle gives their contributions,
    in enumeration order. *)
Lemma collected_settles (includeRuns : bool) (repos : list Repo) :
  (forall r, In r repos -> settles w includeRuns org token r) ->
  collected w includeRuns org token repos
  = inr (List.concat (map (contribution w includeRuns org token) repos)).
Proof.
  induction repos as [|r rest IH]; intros Hall; [reflexivity|].
  rewrite LoopMore.collected_cons, LoopMore.collected_single.
  destruct (repo_body_settles includeRuns r St0 (Hall r (or_introl eq_refl)))
    as (s' & Hbody & Hp).
  rewrite Hbody, IH by (intros r' Hr'; apply Hall; now right).
  simpl in Hp. rewrite Hp. reflexivity.
Qed.

(** A workflow without runs that the loop reaches leaves its pipeline in
    the array, however the rest of the repository goes. *)
Lemma zero_runs_repo_body (r : Repo) (pre post : list Workflow) (wf : Workflow)
      (s : St) :
  api_workflows w (owner_of org r) (repo_name r) token
  = inr (Some (pre ++ wf :: post)) ->
  (forall wf', In wf' pre ->
     exists runs,
       api_runs w (owner_of org r) (repo_name r) (wf_id wf') token = inr runs) ->
  api_runs w (owner_of org r) (repo_name r) (wf_id wf) token = inr (Some []) ->
  In (bare_pipeline (owner_of org r) (repo_name r) wf)
     (pipelines (snd (repo_body w true org token r s))).
Proof.
  intros Hlist Hpre Hzero.
  unfold repo_body, try_catch, bind at 1, axios_get_workflows, request.
  rewrite Hlist.
  assert (Hin : In (bare_pipeline (owner_of org r) (repo_name r) wf)
                   (pipelines
                      (snd (workflow_loop w true (owner_of org r) (repo_name r)
                              token (pre ++ wf :: post)
                              (mkSt (calls s ++ [GetWorkflows (owner_of org r)
                                                   (repo_name r) token])
                                    (pipelines s)))))).
  { rewrite (RunFailure.workflow_loop_answers w _ _ _ pre (wf :: post) _ Hpre).
    match goal with
    | |- In _ (pipelines (snd (workflow_loop _ _ _ _ _ _ ?st))) =>
        destruct (zero_runs_step w (owner_of org r) (repo_name r) token wf post
                    st Hzero) as (_ & _ & Hkept)
    end.
    exact Hkept. }
  destruct (pre ++ wf :: post) as [|wf0 wfs] eqn:El;
    [destruct pre; discriminate|].
  destruct (workflow_loop w true (owner_of org r) (repo_name r) token
              (wf0 :: wfs) _) as [[e | []] s1]; cbn [snd] in Hin |- *.
  - destruct (status_in [403; 404; 409] e); exact Hin.
  - exact Hin.
Qed.

End Facts.

End Settled.

(** C3, as stated, fails for rate limit exhaustion: an exhausted rate
    limit that the remote API answers with status 403 on every workflow
    listing does not abort the aggregation; each repository is skipped and
    the handler answers 200 with an empty list. *)
Lemma rate_limit_403_is_swallowed :
  rate_limit_exhausted rate_limit_403 = true
  /\ api_workflows throttled_world "acme" "api" "ghp_env" = inl rate_limit_403
  /\ run (github_route throttled_world (github_pipelines throttled_world)
            (with_query req0 (Some "acme") None))
     = (inr (Sent (mkResponse 200 (BPipelines []))),
        [GetUser "ghp_env"; GetOrgRepos "acme" "ghp_env";
         GetWorkflows "acme" "api" "ghp_env";
         GetWorkflows "acme" "vault" "ghp_env";
         GetWorkflows "acme" "web" "ghp_env"]).
Proof. repeat split. Qed.

(** C3 (amended): when the workflow listing of repository [k] fails with
    status 403, 404 or 409 (a rate-limit answer sent with status 403
    included), the aggregation gives what it gives without [k], and when
    the other repositories settle the handler answers 200 with the
    pipelines of the repositories before [k] followed by those of the
    repositories after [k], each in listing order, and nothing of [k].
    When that listing fails with any other status (429, 5xx) or without a
    response, the aggregation aborts with that very error and the handler
    answers with the status (or 500) and the message of the error. *)
Theorem listing_failure_skips_repository
    (w : World) (req : Req) (s : St) (org : string)
    (l1 l2 : list Repo) (k : Repo) (e : Exn) :
  query_org req = Some org -> org <> "" ->
  enumerated w org (req_token req) = inr (l1 ++ k :: l2) ->
  api_workflows w (owner_of org k) (repo_name k) (req_token req) = inl e ->
  (repo_local e ->
     contribution w (parse_includeRuns (query_includeRuns req)) org
                  (req_token req) k = []
     /\ collected w (parse_includeRuns (query_includeRuns req)) org
                  (req_token req) (l1 ++ k :: l2)
        = collected w (parse_includeRuns (query_includeRuns req)) org
                    (req_token req) (l1 ++ l2)
     /\ (forall p1 p2,
           collected w (parse_includeRuns (query_includeRuns req)) org
                     (req_token req) l1 = inr p1 ->
           collected w (parse_includeRuns (query_includeRuns req)) org
                     (req_token req) l2 = inr p2 ->
           fst (github_pipelines w req s)
           = inr (mkResponse 200 (BPipelines (p1 ++ p2))))
     /\ ((forall r, In r (l1 ++ l2) ->
            settles w (parse_includeRuns (query_includeRuns req)) org
                    (req_token req) r) ->
         fst (github_pipelines w req s)
         = inr (mkResponse 200
                  (BPipelines
                     (List.concat
                        (map (contribution w
                                (parse_includeRuns (query_includeRuns req))
                                org (req_token req)) l1)
                      ++ List.concat
                           (map (contribution w
                                   (parse_includeRuns (query_includeRuns req))
                                   org (req_token req)) l2))))))
  /\ (~ repo_local e ->
      collected w (parse_includeRuns (query_includeRuns req)) org
                (req_token req) (l1 ++ k :: l2)
      = match collected w (parse_includeRuns (query_includeRuns req)) org
                        (req_token req) l1 with
        | inl e1 => inl e1
        | inr _ => inl e
        end
      /\ (forall p1,
            collected w (parse_includeRuns (query_includeRuns req)) org
                      (req_token req) l1 = inr p1 ->
            fst (github_pipelines w req s) = inr (error_response e))
      /\ ((forall r, In r l1 ->
             settles w (parse_includeRuns (query_includeRuns req)) org
                     (req_token req) r) ->
          fst (github_pipelines w req s) = inr (error_response e))).
Proof.
  intros Horg Hne Henum He.
  set (ir := parse_includeRuns (query_includeRuns req)).
  set (token := req_token req) in *.
  pose proof (AggregateFacts.github_pipelines_result w req s org Horg Hne)
    as Hres.
  fold ir token in Hres. rewrite Henum in Hres.
  destruct (listing_failure_collected w ir org token l1 l2 k e He)
    as [Hskip Habort].
  split.
  - intros Hloc. destruct (Hskip Hloc) as (Hsame & _ & Happ).
    split; [|split; [exact Hsame|split]].
    + unfold contribution, listed_workflows. fold token. rewrite He.
      reflexivity.
    + intros p1 p2 H1 H2. rewrite Hres, (Happ p1 p2 H1 H2). reflexivity.
    + intros Hall.
      assert (H1 : collected w ir org token l1
                   = inr (List.concat (map (contribution w ir org token) l1))).
      { apply Settled.collected_settles. intros r Hr. apply Hall.
        apply in_or_app. now left. }
      assert (H2 : collected w ir org token l2
                   = inr (List.concat (map (contribution w ir org token) l2))).
      { apply Settled.collected_settles. intros r Hr. apply Hall.
        apply in_or_app. now right. }
      rewrite Hres, (Happ _ _ H1 H2). reflexivity.
  - intros Hloc. destruct (Habort Hloc) as (Hcol & _).
    split; [exact Hcol|]. split.
    + intros p1 H1. rewrite Hres, Hcol, H1. reflexivity.
    + intros Hall. rewrite Hres, Hcol.
      rewrite (Settled.collected_settles w org token ir l1 Hall). reflexivity.
Qed.

(** In [acme] the listing of [vault] answers 403: the answer holds the two
    pipelines of [api], then the one of [web]. *)
Lemma listing_failure_skips_repository_witness :
  fst (github_pipelines acme_world
         (with_github (with_query req0 (Some "acme") None) "ghp_env" SrcEnv)
         St0)
  = inr (mkResponse 200
           (BPipelines
              [pipeline_of acme_world "acme" "api" "ghp_env" wf_build;
               pipeline_of acme_world "acme" "api" "ghp_env" wf_lint;
               pipeline_of acme_world "acme" "web" "ghp_env" wf_docs])).
Proof.
  refine (proj2 (proj2 (proj2 (proj1
    (listing_failure_skips_repository acme_world
       (with_github (with_query req0 (Some "acme") None) "ghp_env" SrcEnv)
       St0 "acme"
       [mkRepo (Some "acme") "api"] [mkRepo None "web"]
       (mkRepo (Some "acme") "vault")
       (http_error 403 "Resource not accessible")
       eq_refl _ eq_refl eq_refl) _))) _).
  - discriminate.
  - left. reflexivity.
  - intros r [<- | [<- | []]]; intros _ wf.
    + intros [<- | [<- | []]]; eexists; reflexivity.
    + intros [<- | []]; eexists; reflexivity.
Defined.

(** C6: when the run listing of a workflow holds no run, [fetchLatestRun]
    returns [null] and does not throw, and the pipeline of that workflow,
    with [latest_run = null], is in the list of every 200 answer of the
    handler, provided the loop reaches the workflow (the run look-ups of
    the workflows listed before it in its repository answer); and the
    handler does answer 200, with that pipeline in the list, when all the
    repositories settle. *)
Theorem zero_runs_pipeline_in_answer
    (w : World) (req : Req) (s : St) (org : string) (repos : list Repo)
    (r : Repo) (pre post : list Workflow) (wf : Workflow) :
  query_org req = Some org -> org <> "" ->
  parse_includeRuns (query_includeRuns req) = true ->
  enumerated w org (req_token req) = inr repos -> In r repos ->
  api_workflows w (owner_of org r) (repo_name r) (req_token req)
  = inr (Some (pre ++ wf :: post)) ->
  (forall wf', In wf' pre ->
     exists runs,
       api_runs w (owner_of org r) (repo_name r) (wf_id wf') (req_token req)
       = inr runs) ->
  api_runs w (owner_of org r) (repo_name r) (wf_id wf) (req_token req)
  = inr (Some []) ->
  fetchLatestRun w (owner_of org r) (repo_name r) (wf_id wf) (req_token req) s
  = (inr None,
     mkSt (calls s ++ [GetRuns (owner_of org r) (repo_name r) (wf_id wf)
                               (req_token req)]) (pipelines s))
  /\ (forall ps,
        fst (github_pipelines w req s) = inr (mkResponse 200 (BPipelines ps)) ->
        In (bare_pipeline (owner_of org r) (repo_name r) wf) ps)
  /\ ((forall r', In r' repos -> settles w true org (req_token req) r') ->
      exists ps,
        fst (github_pipelines w req s) = inr (mkResponse 200 (BPipelines ps))
        /\ In (bare_pipeline (owner_of org r) (repo_name r) wf) ps).
Proof.
  intros Horg Hne Hir Henum Hr Hlist Hpre Hzero.
  set (token := req_token req) in *.
  pose proof (AggregateFacts.github_pipelines_result w req s org Horg Hne)
    as Hres.
  fold token in Hres. rewrite Henum, Hir in Hres.
  assert (Hin : forall ps, collected w true org token repos = inr ps ->
                  In (bare_pipeline (owner_of org r) (repo_name r) wf) ps).
  { intros ps Hcol. destruct (in_split r repos Hr) as (l1 & l2 & ->).
    rewrite AggregateFacts.collected_app, LoopMore.collected_cons,
      LoopMore.collected_single in Hcol.
    pose proof (Settled.zero_runs_repo_body w org token r pre post wf St0
                  Hlist Hpre Hzero) as Hbody.
    destruct (collected w true org token l1) as [e1 | p1]; [discriminate|].
    destruct (repo_body w true org token r St0) as [[e | []] s1];
      [discriminate|].
    destruct (collected w true org token l2) as [e2 | p2]; [discriminate|].
    injection Hcol as <-. cbn [snd] in Hbody.
    apply in_or_app. right. apply in_or_app. now left. }
  split; [|split].
  - exact (proj1 (zero_runs_step w (owner_of org r) (repo_name r) token wf post
                    s Hzero)).
  - intros ps. rewrite Hres. unfold error_response.
    destruct (collected w true org token repos) as [e | ps0] eqn:Hcol;
      [discriminate|].
    intros H. injection H as <-. now apply Hin.
  - intros Hall. rewrite Hres.
    pose proof (Settled.collected_settles w org token true repos Hall) as Hcol.
    rewrite Hcol. eexists. split; [reflexivity|]. now apply Hin.
Qed.

(** The workflow [lint] of [acme/api] has never run: its pipeline is in
    the answer for [acme], without a run. *)
Lemma zero_runs_pipeline_in_answer_witness :
  exists ps,
    fst (github_pipelines acme_world
           (with_github (with_query req0 (Some "acme") None) "ghp_env" SrcEnv)
           St0)
    = inr (mkResponse 200 (BPipelines ps))
    /\ In (mkPipeline "acme" "api" 12 "lint" ".github/workflows/lint.yml"
             "active" "2024-01-01T00:00:00Z" "2024-01-02T00:00:00Z"
             "https://github.com/acme/api/actions/workflows/lint.yml" None)
          ps.
Proof.
  refine (proj2 (proj2
    (zero_runs_pipeline_in_answer acme_world
       (with_github (with_query req0 (Some "acme") None) "ghp_env" SrcEnv)
       St0 "acme"
       [mkRepo (Some "acme") "api"; mkRepo (Some "acme") "vault";
        mkRepo None "web"]
       (mkRepo (Some "acme") "api") [wf_build] [] wf_lint
       eq_refl _ eq_refl eq_refl (or_introl eq_refl) eq_refl _ eq_refl)) _).
  - discriminate.
  - intros wf' [<- | []]. eexists. reflexivity.
  - intros r' [<- | [<- | [<- | []]]].
    + intros _ wf' [<- | [<- | []]]; eexists; reflexivity.
    + left. reflexivity.
    + intros _ wf' [<- | []]; eexists; reflexivity.
Defined.
